(** * FrameWork: the script editor, the progress hook and the edit pipeline

    A shallow embedding of the parts of the FrameWork repository that its
    specification talks about:

    - [JS]: the JavaScript values the front end handles (parsed JSON,
      truthiness, property reads, [String.prototype.trim]);
    - [ScriptView]: [components/ScriptView.jsx], the script editor and its
      [handleSave];
    - [ProjectStatus]: [hooks/useProjectStatus.js], the WebSocket hook with
      its global connection cache, heartbeat and reconnect logic;
    - [Backend]: the orchestration core (change analysis, invalidation,
      run lock), whose code is not part of the front-end sources and is
      modelled from the specification. *)

From Stdlib Require Import Ascii String QArith.
From stdpp Require Import gmap strings list fin_maps.

Local Open Scope string_scope.
Local Open Scope list_scope.
Set Warnings "-register-all".

(* ===================================================================== *)
(** * JavaScript values *)
(* ===================================================================== *)

Module JS.

(** A JavaScript string is the sequence of its code units; the model keeps
    the code units below 256, one [ascii] each. *)

(** The values [JSON.parse] and property reads produce.  A number is
    identified with the text [Number::toString] gives it, which is
    canonical: two numbers are equal exactly when their texts are. *)
Inductive jsval : Type :=
| JUndefined
| JNull
| JBool (b : bool)
| JNum (repr : string)
| JStr (s : string)
| JArr (items : list jsval)
| JObj (fields : list (string * jsval)).

(** [ToBoolean]. *)
Definition truthy (v : jsval) : bool :=
  match v with
  | JUndefined | JNull => false
  | JBool b => b
  | JNum r => negb (String.eqb r "0") && negb (String.eqb r "NaN")
  | JStr s => negb (String.eqb s EmptyString)
  | JArr _ | JObj _ => true
  end.

(** The own property [k] of an object literal or parsed object: a key that
    occurs twice keeps its last value. *)
Fixpoint own_prop (fields : list (string * jsval)) (k : string) : option jsval :=
  match fields with
  | [] => None
  | (k', v) :: rest =>
      match own_prop rest k with
      | Some v' => Some v'
      | None => if String.eqb k' k then Some v else None
      end
  end.

(** [v.k] for a property name [k] that no built-in prototype defines (the
    source reads [type], [stage], [status], [message], [error],
    [should_regenerate], [reason], [change_summary], [change_percentage]).
    [None] is the [TypeError] of reading a property of [null] or
    [undefined]. *)
Definition get_prop (v : jsval) (k : string) : option jsval :=
  match v with
  | JUndefined | JNull => None
  | JObj fields => Some (default JUndefined (own_prop fields k))
  | _ => Some JUndefined
  end.

(** [a || b]. *)
Definition js_or (a b : jsval) : jsval := if truthy a then a else b.

(** [a === 'text']. *)
Definition is_str (v : jsval) (text : string) : bool :=
  match v with
  | JStr s => String.eqb s text
  | _ => false
  end.

(** [ToString], as [ToPropertyKey] applies it to a computed key
    [[data.stage]]: an array joins its elements with commas, [null] and
    [undefined] elements giving the empty text. *)
Fixpoint to_string (v : jsval) : string :=
  match v with
  | JUndefined => "undefined"
  | JNull => "null"
  | JBool true => "true"
  | JBool false => "false"
  | JNum r => r
  | JStr s => s
  | JObj _ => "[object Object]"
  | JArr items =>
      (fix join (xs : list jsval) : string :=
         match xs with
         | [] => EmptyString
         | x :: rest =>
             let element :=
               match x with
               | JUndefined | JNull => EmptyString
               | _ => to_string x
               end in
             match rest with
             | [] => element
             | _ :: _ => element +:+ "," +:+ join rest
             end
         end) items
  end.

(** White space and line terminators of ECMAScript among the code units
    below 256: TAB, LF, VT, FF, CR, SP and NBSP. *)
Definition is_white_space (c : ascii) : bool :=
  let n := nat_of_ascii c in
  (9 <=? n)%nat && (n <=? 13)%nat || (n =? 32)%nat || (n =? 160)%nat.

Fixpoint trim_start (s : string) : string :=
  match s with
  | String c rest => if is_white_space c then trim_start rest else s
  | EmptyString => EmptyString
  end.

Fixpoint string_rev_onto (s acc : string) : string :=
  match s with
  | EmptyString => acc
  | String c rest => string_rev_onto rest (String c acc)
  end.

Definition string_rev (s : string) : string := string_rev_onto s EmptyString.

Definition trim_end (s : string) : string :=
  string_rev (trim_start (string_rev s)).

(** [String.prototype.trim]. *)
Definition trim (s : string) : string := trim_end (trim_start s).

(** Every code unit of [s] is white space ([s] may be empty). *)
Fixpoint blank (s : string) : bool :=
  match s with
  | EmptyString => true
  | String c rest => is_white_space c && blank rest
  end.

(** [process.env.NAME || fallback]. *)
Definition env_or (value : option string) (fallback : string) : string :=
  match value with
  | Some s => if String.eqb s EmptyString then fallback else s
  | None => fallback
  end.

(** ** [JSON.stringify] *)

Definition dquote : ascii := "034"%char.
Definition backslash : ascii := "092"%char.

Definition hex_digit (n : nat) : ascii :=
  match String.get n "0123456789abcdef" with
  | Some c => c
  | None => "0"%char
  end.

(** [QuoteJSONString] on one code unit: the quote and the backslash are
    escaped, the control characters become [\b \t \n \f \r] or a
    four-digit escape, every other code unit stands for itself. *)
Definition escape_unit (c : ascii) : string :=
  let n := nat_of_ascii c in
  if (n =? 34)%nat then String backslash (String dquote EmptyString)
  else if (n =? 92)%nat then String backslash (String backslash EmptyString)
  else if (n =? 8)%nat then String backslash "b"
  else if (n =? 9)%nat then String backslash "t"
  else if (n =? 10)%nat then String backslash "n"
  else if (n =? 12)%nat then String backslash "f"
  else if (n =? 13)%nat then String backslash "r"
  else if (n <? 32)%nat then
    String backslash
      (String "u" (String "0" (String "0"
         (String (hex_digit (n / 16)) (String (hex_digit (n mod 16))
            EmptyString)))))
  else String c EmptyString.

Fixpoint escape (s : string) : string :=
  match s with
  | EmptyString => EmptyString
  | String c rest => escape_unit c +:+ escape rest
  end.

Definition JSON_quote (s : string) : string :=
  String dquote (escape s +:+ String dquote EmptyString).

(** [JSON.stringify(v)] for a value built from literals and parsed JSON
    (an object's keys distinct); [None] is the [undefined] it returns for
    [undefined].  In an array [undefined] is written [null]; in an object a
    property whose value is [undefined] is left out. *)
Fixpoint JSON_stringify (v : jsval) : option string :=
  match v with
  | JUndefined => None
  | JNull => Some "null"
  | JBool true => Some "true"
  | JBool false => Some "false"
  | JNum r =>
      if String.eqb r "NaN" || String.eqb r "Infinity"
         || String.eqb r "-Infinity"
      then Some "null" else Some r
  | JStr s => Some (JSON_quote s)
  | JArr items =>
      Some ("[" +:+
        (fix elements (xs : list jsval) : string :=
           match xs with
           | [] => EmptyString
           | x :: rest =>
               let e := default "null" (JSON_stringify x) in
               match rest with
               | [] => e
               | _ :: _ => e +:+ "," +:+ elements rest
               end
           end) items +:+ "]")
  | JObj fields =>
      Some ("{" +:+
        (fix members (first : bool) (fs : list (string * jsval)) : string :=
           match fs with
           | [] => EmptyString
           | (k, x) :: rest =>
               match JSON_stringify x with
               | None => members first rest
               | Some e =>
                   (if first then EmptyString else ",") +:+
                   JSON_quote k +:+ ":" +:+ e +:+ members false rest
               end
           end) true fields +:+ "}")
  end.

(** The digits and escapes [JSON.parse] reads in a string literal. *)
Definition hex_value (c : ascii) : option nat :=
  let n := nat_of_ascii c in
  if (48 <=? n)%nat && (n <=? 57)%nat then Some (n - 48)%nat
  else if (97 <=? n)%nat && (n <=? 102)%nat then Some (n - 87)%nat
  else if (65 <=? n)%nat && (n <=? 70)%nat then Some (n - 55)%nat
  else None.

Definition simple_escape (e : ascii) : option ascii :=
  let n := nat_of_ascii e in
  if (n =? 34)%nat then Some dquote
  else if (n =? 92)%nat then Some backslash
  else if (n =? 47)%nat then Some "/"%char
  else if (n =? 98)%nat then Some "008"%char
  else if (n =? 116)%nat then Some "009"%char
  else if (n =? 110)%nat then Some "010"%char
  else if (n =? 102)%nat then Some "012"%char
  else if (n =? 114)%nat then Some "013"%char
  else None.

(** Reading a JSON string literal from just after its opening quote: the
    text it denotes and what follows its closing quote. *)
Fixpoint read_quoted (s : string) : option (string * string) :=
  match s with
  | EmptyString => None
  | String c rest =>
      if Ascii.eqb c dquote then Some (EmptyString, rest)
      else if Ascii.eqb c backslash then
        match rest with
        | String e rest' =>
            if Ascii.eqb e "u" then
              match rest' with
              | String h1 (String h2 (String h3 (String h4 rest''))) =>
                  match hex_value h1, hex_value h2,
                        hex_value h3, hex_value h4 with
                  | Some 0%nat, Some 0%nat, Some a, Some b =>
                      prod_map (String (ascii_of_nat (16 * a + b))) id
                        <$> read_quoted rest''
                  | _, _, _, _ => None
                  end
              | _ => None
              end
            else
              match simple_escape e with
              | Some c' => prod_map (String c') id <$> read_quoted rest'
              | None => None
              end
        | EmptyString => None
        end
      else if (nat_of_ascii c <? 32)%nat then None
      else prod_map (String c) id <$> read_quoted rest
  end.

End JS.

(* ===================================================================== *)
(** * The orchestration core (modelled from the specification) *)
(* ===================================================================== *)

Module Backend.

(** Modelled from the spec: the stages of the Stage Registry (section 4.1);
    the registry's code is not among the front-end sources. *)
Inductive Stage : Type := script | storyboard | shot_list.

#[global] Instance Stage_eq_dec : EqDecision Stage.
Proof. solve_decision. Defined.

(** Modelled from the spec: the registry's fixed order, [[script,
    storyboard, shot_list]]. *)
Definition registry : list Stage := [script; storyboard; shot_list].

(** Modelled from the spec: "storyboard depends on script; shot_list
    depends on storyboard". *)
Definition upstream (s : Stage) : option Stage :=
  match s with
  | script => None
  | storyboard => Some script
  | shot_list => Some storyboard
  end.

(** Modelled from the spec: [t] depends on [s], directly or through other
    stages ("shot_list depends transitively on script through
    storyboard"); [fuel] bounds the walk up the [upstream] chain. *)
Fixpoint depends_on (fuel : nat) (t s : Stage) : bool :=
  match fuel with
  | O => false
  | S fuel' =>
      match upstream t with
      | None => false
      | Some u => if decide (u = s) then true else depends_on fuel' u s
      end
  end.

(** Modelled from the spec: the dependent stages of [s], in registry
    order. *)
Definition dependents (s : Stage) : list Stage :=
  List.filter (fun t => depends_on (length registry) t s) registry.

(** Modelled from the spec: the status of a StageRecord (section 3). *)
Inductive StageStatus : Type := pending | running | done | failed.

#[global] Instance StageStatus_eq_dec : EqDecision StageStatus.
Proof. solve_decision. Defined.

(** Modelled from the spec: StageRecord (section 3): status, start and
    completion timestamps, last error. *)
Record StageRecord : Type := mkStageRecord {
  status : StageStatus;
  started_at : option nat;
  completed_at : option nat;
  last_error : option string
}.

(** Modelled from the spec: a record as an invalidation leaves it. *)
Definition fresh_record : StageRecord :=
  {| status := pending; started_at := None; completed_at := None;
     last_error := None |}.

(** Modelled from the spec: the overall status of a Project (section 3). *)
Inductive OverallStatus : Type :=
  created | processing | completed | project_failed.

(** Modelled from the spec: Project (section 3); an artifact is kept as its
    text, [None] until produced. *)
Record Project : Type := mkProject {
  project_id : string;
  prompt : string;
  overall : OverallStatus;
  classification : Stage -> bool;
  records : Stage -> StageRecord;
  artifacts : Stage -> option string
}.

(** Modelled from the spec: ChangeVerdict (section 3). *)
Record ChangeVerdict : Type := mkVerdict {
  magnitude : Q;
  significant : bool;
  rationale : string;
  invalidate : list Stage
}.

(** Modelled from the spec: what the external judgment call returns when it
    succeeds: "a decision plus the same magnitude-style percentage ... and
    a short rationale string". *)
Record Judgment : Type := mkJudgment {
  judged_significant : bool;
  judged_magnitude : Q;
  judged_rationale : string
}.

(** Modelled from the spec: an analysis either has its verdict, or must
    consult the judgment call once and resumes with the call's result
    ([None] when the call fails or returns malformed output). *)
Inductive Analysis : Type :=
| Decided (v : ChangeVerdict)
| Consult (old new : string) (stage : Stage)
    (resume : option Judgment -> ChangeVerdict).

Section ChangeAnalyzer.

(** The spec leaves open whether the diff is by line or by token, and how
    the changed units are counted. *)
Variable units : string -> list string.
Variable changed_units : list string -> list string -> nat.

(** The spec's open design choice (section 9): the verdict when the
    qualitative pass fails above the threshold, or with no magnitude. *)
Variable significant_on_failure : option Q -> bool.

(** Modelled from the spec: the "changed units" of an edit. *)
Definition changed (old new : string) : nat :=
  changed_units (units old) (units new).

(** Modelled from the spec: "max(len(old), len(new))", in units. *)
Definition longer (old new : string) : nat :=
  Nat.max (length (units old)) (length (units new)).

(** Modelled from the spec: "magnitude = (changed units) / (max(len(old),
    len(new)))"; [None] when both contents are empty and the quotient is
    undefined (the "inconclusive" quantitative pass). *)
Definition quantitative (old new : string) : option Q :=
  if (longer old new =? 0)%nat then None
  else Some (Z.of_nat (changed old new) # Pos.of_nat (longer old new)).

(** Modelled from the spec: the low threshold, 3%. *)
Definition threshold : Q := 3 # 100.

(** Modelled from the spec: the verdict after the qualitative pass. *)
Definition qualitative (stage : Stage) (measured : option Q)
    (j : option Judgment) : ChangeVerdict :=
  match j with
  | Some j =>
      {| magnitude := judged_magnitude j;
         significant := judged_significant j;
         rationale := judged_rationale j;
         invalidate := dependents stage |}
  | None =>
      {| magnitude := default 0%Q measured;
         significant := significant_on_failure measured;
         rationale := "qualitative analysis unavailable";
         invalidate := dependents stage |}
  end.

(** Modelled from the spec: [analyze(oldArtifact, newArtifact, stageName)]
    (section 4.3): the quantitative pass decides alone at or below the
    threshold; the qualitative pass runs only above it, or when the
    quantitative pass is inconclusive. *)
Definition analyze (old new : string) (stage : Stage) : Analysis :=
  match quantitative old new with
  | Some m =>
      if Qle_bool m threshold then
        Decided {| magnitude := m; significant := false;
                   rationale := "change at or below the threshold";
                   invalidate := dependents stage |}
      else Consult old new stage (qualitative stage (Some m))
  | None => Consult old new stage (qualitative stage None)
  end.

(** Modelled from the spec: running an analysis against a judgment call;
    the second component counts the calls made. *)
Definition run_analysis (judge : string -> string -> Stage -> option Judgment)
    (a : Analysis) : ChangeVerdict * nat :=
  match a with
  | Decided v => (v, O)
  | Consult old new stage resume => (resume (judge old new stage), 1%nat)
  end.

(** Modelled from the spec: "persists newContent as the new artifact
    value". *)
Definition save_artifact (stage : Stage) (content : string) (p : Project)
    : Project :=
  {| project_id := project_id p; prompt := prompt p; overall := overall p;
     classification := classification p; records := records p;
     artifacts := fun s => if decide (s = stage) then Some content
                           else artifacts p s |}.

(** Modelled from the spec: "resets the invalidated dependent StageRecords
    to pending, clears their stored artifacts". *)
Definition invalidate_stages (stages : list Stage) (p : Project) : Project :=
  {| project_id := project_id p; prompt := prompt p; overall := overall p;
     classification := classification p;
     records := fun s => if decide (s ∈ stages) then fresh_record
                         else records p s;
     artifacts := fun s => if decide (s ∈ stages) then None
                           else artifacts p s |}.

(** Modelled from the spec: what [applyEdit] leaves behind: the project,
    the verdict returned to the caller, the stages it invalidated, the skip
    set of the run it scheduled (if any), and how often the judgment call
    was consulted. *)
Record EditOutcome : Type := mkEditOutcome {
  project_after : Project;
  verdict : ChangeVerdict;
  invalidated : list Stage;
  scheduled_run : option (list Stage);
  judge_calls : nat
}.

(** Modelled from the spec: [applyEdit(project, stageName, newContent)]
    (section 4.5). *)
Definition applyEdit (judge : string -> string -> Stage -> option Judgment)
    (p : Project) (stage : Stage) (newContent : string) : EditOutcome :=
  let old := default EmptyString (artifacts p stage) in
  let '(v, calls) := run_analysis judge (analyze old newContent stage) in
  let saved := save_artifact stage newContent p in
  if significant v then
    {| project_after := invalidate_stages (invalidate v) saved;
       verdict := v; invalidated := invalidate v;
       scheduled_run := Some [stage]; judge_calls := calls |}
  else
    {| project_after := saved; verdict := v; invalidated := [];
       scheduled_run := None; judge_calls := calls |}.

End ChangeAnalyzer.

(** Modelled from the spec: a line-level instance of the diff's units: the
    lines of a text, separated by LF. *)
Fixpoint lines (s : string) : list string :=
  match s with
  | EmptyString => []
  | String c rest =>
      if Ascii.eqb c "010"%char then EmptyString :: lines rest
      else match lines rest with
           | [] => [String c EmptyString]
           | l :: ls => String c l :: ls
           end
  end.

(** Modelled from the spec: a line-level instance of the changed units: the
    positions at which the two line sequences differ, the surplus lines of
    the longer one included. *)
Fixpoint changed_lines (o n : list string) : nat :=
  match o, n with
  | [], _ => length n
  | _, [] => length o
  | x :: o', y :: n' =>
      ((if String.eqb x y then 0 else 1) + changed_lines o' n')%nat
  end.

(** Modelled from the spec: the body of the edit endpoint's synchronous
    response, with the fields the README's API reference lists for
    [PUT /projects/{id}/script] in its two forms.  [percentage] is the
    number the server reports for the verdict's magnitude and [summary]
    its change summary. *)
Definition script_update_response (pid : string) (o : EditOutcome)
    (summary percentage : string) : JS.jsval :=
  let v := verdict o in
  if significant v then
    JS.JObj
      [ ("message", JS.JStr "Script updated and regeneration started");
        ("project_id", JS.JStr pid);
        ("should_regenerate", JS.JBool true);
        ("regenerate_storyboard",
          JS.JBool (bool_decide (storyboard ∈ invalidated o)));
        ("regenerate_shot_list",
          JS.JBool (bool_decide (shot_list ∈ invalidated o)));
        ("reason", JS.JStr (rationale v));
        ("change_summary", JS.JStr summary);
        ("change_percentage", JS.JNum percentage) ]
  else
    JS.JObj
      [ ("message", JS.JStr "Script updated (no regeneration needed)");
        ("project_id", JS.JStr pid);
        ("should_regenerate", JS.JBool false);
        ("reason", JS.JStr (rationale v));
        ("change_summary", JS.JStr summary);
        ("change_percentage", JS.JNum percentage) ].

(** ** Run control *)

(** Modelled from the spec: a pipeline walk in progress (section 4.4): the
    project it walks, its skip set, the stages of the registry it still has
    to visit, and the stage whose generation it is waiting for. *)
Record Walk : Type := mkWalk {
  walk_project : string;
  walk_skip : list Stage;
  walk_todo : list Stage;
  walk_running : option Stage
}.

(** Modelled from the spec: the executor's state (section 5): the
    projects, the per-project run lock (project id to the run holding it),
    and the walks in progress. *)
Record System : Type := mkSystem {
  projects : gmap string Project;
  run_lock : gmap string nat;
  walks : gmap nat Walk;
  next_run : nat
}.

(** Modelled from the spec: the answer to a run request: the run started,
    or the "already running" rejection (ConcurrentRunConflict). *)
Inductive RunReply : Type :=
| Started (run : nat)
| AlreadyRunning
| NoSuchProject.

(** Modelled from the spec: updates of single fields (the persistence
    collaborator is "atomic at the single-field granularity"). *)
Definition set_overall (o : OverallStatus) (p : Project) : Project :=
  {| project_id := project_id p; prompt := prompt p; overall := o;
     classification := classification p; records := records p;
     artifacts := artifacts p |}.

(** Modelled from the spec: [saveStageRecord(id, stage, record)]. *)
Definition set_record (stage : Stage) (r : StageRecord) (p : Project)
    : Project :=
  {| project_id := project_id p; prompt := prompt p; overall := overall p;
     classification := classification p;
     records := fun s => if decide (s = stage) then r else records p s;
     artifacts := artifacts p |}.

(** Modelled from the spec: a StageRecord with its status changed. *)
Definition set_status (st : StageStatus) (r : StageRecord) : StageRecord :=
  {| status := st; started_at := started_at r;
     completed_at := completed_at r; last_error := last_error r |}.

(** Modelled from the spec: a run request (sections 4.4 and 5, policy (a)):
    taking the project's run lock is one atomic test-and-set; a request for
    a project whose lock is held is rejected. *)
Definition request_run (pid : string) (skip : list Stage) (s : System)
    : System * RunReply :=
  match projects s !! pid with
  | None => (s, NoSuchProject)
  | Some p =>
      match run_lock s !! pid with
      | Some _ => (s, AlreadyRunning)
      | None =>
          let r := next_run s in
          ({| projects := <[pid := set_overall processing p]> (projects s);
              run_lock := <[pid := r]> (run_lock s);
              walks := <[r := {| walk_project := pid; walk_skip := skip;
                                 walk_todo := registry;
                                 walk_running := None |}]> (walks s);
              next_run := S r |},
           Started r)
      end
  end.

(** Modelled from the spec: the next stage of a walk: the first stage left
    that is neither in the skip set nor already [done]. *)
Fixpoint next_stage (skip : list Stage) (p : Project) (todo : list Stage)
    : option (Stage * list Stage) :=
  match todo with
  | [] => None
  | s :: rest =>
      if bool_decide (s ∈ skip) then next_stage skip p rest
      else match status (records p s) with
           | done => next_stage skip p rest
           | _ => Some (s, rest)
           end
  end.

(** Modelled from the spec: the overall status a finished walk sets:
    [completed] iff every record is [done]. *)
Definition overall_of (p : Project) : OverallStatus :=
  if forallb (fun s => bool_decide (status (records p s) = done)) registry
  then completed
  else if existsb (fun s => bool_decide (status (records p s) = failed))
            registry
  then project_failed
  else created.

(** Modelled from the spec: the end of a walk: the lock is released and
    the overall status set. *)
Definition release (r : nat) (pid : string) (p : Project) (s : System)
    : System :=
  {| projects := <[pid := set_overall (overall_of p) p]> (projects s);
     run_lock := delete pid (run_lock s);
     walks := delete r (walks s);
     next_run := next_run s |}.

(** Modelled from the spec: the walk moves on: it marks the next stage
    [running] and waits for its generation, or, with no stage left, ends. *)
Definition advance (r : nat) (s : System) : System :=
  match walks s !! r with
  | None => s
  | Some w =>
      match walk_running w, projects s !! walk_project w with
      | None, Some p =>
          match next_stage (walk_skip w) p (walk_todo w) with
          | Some (stage, rest) =>
              {| projects :=
                   <[walk_project w :=
                       set_record stage (set_status running (records p stage)) p]>
                     (projects s);
                 run_lock := run_lock s;
                 walks := <[r := {| walk_project := walk_project w;
                                    walk_skip := walk_skip w;
                                    walk_todo := rest;
                                    walk_running := Some stage |}]> (walks s);
                 next_run := next_run s |}
          | None => release r (walk_project w) p s
          end
      | _, _ => s
      end
  end.

(** Modelled from the spec: the generation the walk waits for returns: on
    success the artifact is stored and the stage is [done]; on failure the
    stage is [failed] and the walk stops. *)
Definition generated (r : nat) (result : string + string) (s : System)
    : System :=
  match walks s !! r with
  | None => s
  | Some w =>
      match walk_running w, projects s !! walk_project w with
      | Some stage, Some p =>
          match result with
          | inl artifact =>
              {| projects :=
                   <[walk_project w :=
                       save_artifact stage artifact
                         (set_record stage (set_status done (records p stage)) p)]>
                     (projects s);
                 run_lock := run_lock s;
                 walks := <[r := {| walk_project := walk_project w;
                                    walk_skip := walk_skip w;
                                    walk_todo := walk_todo w;
                                    walk_running := None |}]> (walks s);
                 next_run := next_run s |}
          | inr error =>
              let r' := {| status := failed;
                           started_at := started_at (records p stage);
                           completed_at := completed_at (records p stage);
                           last_error := Some error |} in
              release r (walk_project w) (set_record stage r' p) s
          end
      | _, _ => s
      end
  end.

(** Modelled from the spec: what can happen next, in any interleaving: a
    request arrives, a walk moves on, or a generation returns. *)
Inductive Action : Type :=
| RequestRun (pid : string) (skip : list Stage)
| Advance (run : nat)
| Generated (run : nat) (result : string + string).

(** Modelled from the spec: one action, taken atomically. *)
Definition step (s : System) (a : Action) : System :=
  match a with
  | RequestRun pid skip => fst (request_run pid skip s)
  | Advance r => advance r s
  | Generated r result => generated r result s
  end.

(** Modelled from the spec: an interleaving of actions. *)
Definition run (s : System) (actions : list Action) : System :=
  fold_left step actions s.

(** No run is in progress, no lock is held and no record is [running]: a
    system before any request. *)
Definition idle (s : System) : Prop :=
  run_lock s = ∅ ∧ walks s = ∅ ∧
  ∀ pid p stage, projects s !! pid = Some p →
    status (records p stage) ≠ running.

(** Every walk in progress holds the lock of its project, which exists;
    every held lock belongs to a walk in progress; and every [running]
    record is the stage the lock holder waits for. *)
Definition exclusive (s : System) : Prop :=
  (∀ r w, walks s !! r = Some w →
     run_lock s !! walk_project w = Some r ∧ (r < next_run s)%nat) ∧
  (∀ r w, walks s !! r = Some w → is_Some (projects s !! walk_project w)) ∧
  (∀ pid r, run_lock s !! pid = Some r →
     ∃ w, walks s !! r = Some w ∧ walk_project w = pid) ∧
  (∀ pid p stage, projects s !! pid = Some p →
     status (records p stage) = running →
     ∃ r w, run_lock s !! pid = Some r ∧ walks s !! r = Some w ∧
            walk_running w = Some stage).

(** ** Facts about the run lock *)

Lemma exclusive_idle s : idle s → exclusive s.
Proof.
  intros (Hl & Hw & Hr). split; [|split; [|split]].
  - intros r w H. rewrite Hw in H. by rewrite lookup_empty in H.
  - intros r w H. rewrite Hw in H. by rewrite lookup_empty in H.
  - intros pid r H. rewrite Hl in H. by rewrite lookup_empty in H.
  - intros pid p stage Hp Hs. by destruct (Hr pid p stage Hp).
Qed.

Lemma exclusive_request pid skip s :
  exclusive s → exclusive (fst (request_run pid skip s)).
Proof.
  intros (Hw & Hx & Hl & Hr). unfold request_run.
  destruct (projects s !! pid) as [p|] eqn:Hp;
    [|exact (conj Hw (conj Hx (conj Hl Hr)))].
  destruct (run_lock s !! pid) as [r0|] eqn:Hlock;
    [exact (conj Hw (conj Hx (conj Hl Hr)))|].
  cbn [fst]. split; [|split; [|split]]; cbn.
  - intros r w Hrw. destruct (decide (r = next_run s)) as [->|Hne].
    + rewrite lookup_insert_eq in Hrw. injection Hrw as <-. cbn.
      rewrite lookup_insert_eq. split; [done | lia].
    + rewrite lookup_insert_ne in Hrw by done.
      destruct (Hw r w Hrw) as [Hk Hlt].
      destruct (decide (walk_project w = pid)) as [Heq|Hnp].
      * rewrite Heq in Hk. congruence.
      * rewrite lookup_insert_ne by done. split; [done | lia].
  - intros r w Hrw. apply lookup_insert_is_Some'.
    destruct (decide (r = next_run s)) as [->|Hne].
    + rewrite lookup_insert_eq in Hrw. injection Hrw as <-. by left.
    + rewrite lookup_insert_ne in Hrw by done. right. by eapply Hx.
  - intros pid' r Hk. destruct (decide (pid' = pid)) as [->|Hnp].
    + rewrite lookup_insert_eq in Hk. injection Hk as <-.
      rewrite lookup_insert_eq. by eexists.
    + rewrite lookup_insert_ne in Hk by done.
      destruct (Hl pid' r Hk) as (w & Hrw & Hwp).
      exists w. split; [|done].
      destruct (Hw r w Hrw) as [_ Hlt].
      rewrite lookup_insert_ne by lia. done.
  - intros pid' p' stage Hp' Hs. destruct (decide (pid' = pid)) as [->|Hnp].
    + rewrite lookup_insert_eq in Hp'. injection Hp' as <-. cbn in Hs.
      destruct (Hr pid p stage Hp Hs) as (r & w & Hk & _). congruence.
    + rewrite lookup_insert_ne in Hp' by done.
      destruct (Hr pid' p' stage Hp' Hs) as (r & w & Hk & Hrw & Hrun).
      exists r, w. rewrite lookup_insert_ne by done.
      destruct (Hw r w Hrw) as [_ Hlt].
      rewrite lookup_insert_ne by lia. done.
Qed.

Lemma exclusive_release r w p s :
  exclusive s →
  walks s !! r = Some w →
  (∀ stage, status (records p stage) ≠ running) →
  exclusive (release r (walk_project w) p s).
Proof.
  intros (Hw & Hx & Hl & Hr) Hrw Hp. unfold release.
  split; [|split; [|split]]; cbn.
  - intros r' w' Hrw'. destruct (decide (r' = r)) as [->|Hne].
    + by rewrite lookup_delete_eq in Hrw'.
    + rewrite lookup_delete_ne in Hrw' by done.
      destruct (Hw r' w' Hrw') as [Hk Hlt]. split; [|done].
      destruct (decide (walk_project w' = walk_project w)) as [Heq|Hnp].
      * destruct (Hw r w Hrw) as [Hk' _]. rewrite Heq in Hk. congruence.
      * by rewrite lookup_delete_ne.
  - intros r' w' Hrw'. apply lookup_insert_is_Some'. right.
    apply lookup_delete_Some in Hrw' as [_ Hrw']. by eapply Hx.
  - intros pid r' Hk. destruct (decide (pid = walk_project w)) as [->|Hnp].
    + by rewrite lookup_delete_eq in Hk.
    + rewrite lookup_delete_ne in Hk by done.
      destruct (Hl pid r' Hk) as (w' & Hrw' & Hwp). exists w'. split; [|done].
      destruct (decide (r' = r)) as [->|Hne].
      * rewrite Hrw in Hrw'. injection Hrw' as <-. by destruct Hnp.
      * by rewrite lookup_delete_ne.
  - intros pid p' stage Hp' Hs.
    destruct (decide (pid = walk_project w)) as [->|Hnp].
    + rewrite lookup_insert_eq in Hp'. injection Hp' as <-. cbn in Hs.
      by destruct (Hp stage).
    + rewrite lookup_insert_ne in Hp' by done.
      destruct (Hr pid p' stage Hp' Hs) as (r' & w' & Hk & Hrw' & Hrun).
      exists r', w'. rewrite lookup_delete_ne by done. split; [done|].
      destruct (decide (r' = r)) as [->|Hne].
      * destruct (Hl pid r Hk) as (w'' & Hrw'' & Hwp).
        rewrite Hrw in Hrw''. injection Hrw'' as <-. by destruct Hnp.
      * by rewrite lookup_delete_ne.
Qed.

Lemma running_is_current s r w p stage :
  exclusive s →
  walks s !! r = Some w →
  projects s !! walk_project w = Some p →
  status (records p stage) = running →
  walk_running w = Some stage.
Proof.
  intros (Hw & _ & Hl & Hr) Hrw Hp Hs.
  destruct (Hr _ _ _ Hp Hs) as (r0 & w0 & Hk & Hrw0 & Hrun).
  destruct (Hw r w Hrw) as [Hk' _].
  rewrite Hk' in Hk. injection Hk as <-.
  rewrite Hrw in Hrw0. by injection Hrw0 as <-.
Qed.

(** Replacing the walk [r] by one on the same project, and its project by
    one whose [running] records are the new walk's current stage, keeps the
    lock discipline. *)
Lemma exclusive_update s r w w' p p' :
  exclusive s →
  walks s !! r = Some w →
  projects s !! walk_project w = Some p →
  walk_project w' = walk_project w →
  (∀ stage, status (records p' stage) = running →
            walk_running w' = Some stage) →
  exclusive {| projects := <[walk_project w := p']> (projects s);
               run_lock := run_lock s;
               walks := <[r := w']> (walks s);
               next_run := next_run s |}.
Proof.
  intros Hex Hrw Hp Hsame Hcur.
  destruct Hex as (Hw & Hx & Hl & Hr). split; [|split; [|split]]; cbn.
  - intros r0 w0 Hrw0. destruct (decide (r0 = r)) as [->|Hne].
    + rewrite lookup_insert_eq in Hrw0. injection Hrw0 as <-.
      rewrite Hsame. by apply Hw.
    + rewrite lookup_insert_ne in Hrw0 by done. by apply Hw.
  - intros r0 w0 Hrw0. apply lookup_insert_is_Some'.
    destruct (decide (r0 = r)) as [->|Hne].
    + rewrite lookup_insert_eq in Hrw0. injection Hrw0 as <-. by left.
    + rewrite lookup_insert_ne in Hrw0 by done. right. by eapply Hx.
  - intros pid r0 Hk. destruct (decide (r0 = r)) as [->|Hne].
    + rewrite lookup_insert_eq. exists w'. split; [done|].
      destruct (Hl pid r Hk) as (w0 & Hrw0 & Hwp).
      rewrite Hrw in Hrw0. injection Hrw0 as <-. congruence.
    + rewrite lookup_insert_ne by done. by apply Hl.
  - intros pid p0 stage Hp0 Hs.
    destruct (decide (pid = walk_project w)) as [->|Hnp].
    + rewrite lookup_insert_eq in Hp0. injection Hp0 as <-.
      exists r, w'. rewrite lookup_insert_eq.
      destruct (Hw r w Hrw) as [Hk _]. auto.
    + rewrite lookup_insert_ne in Hp0 by done.
      destruct (Hr pid p0 stage Hp0 Hs) as (r0 & w0 & Hk & Hrw0 & Hrun).
      exists r0, w0. split; [done|]. split; [|done].
      destruct (decide (r0 = r)) as [->|Hne].
      * destruct (Hl pid r Hk) as (w1 & Hrw1 & Hwp).
        rewrite Hrw in Hrw1. injection Hrw1 as <-. by destruct Hnp.
      * by rewrite lookup_insert_ne.
Qed.

Lemma exclusive_advance r s : exclusive s → exclusive (advance r s).
Proof.
  intros Hex. unfold advance.
  destruct (walks s !! r) as [w|] eqn:Hrw; [|done].
  destruct (walk_running w) as [cur|] eqn:Hcur; [done|].
  destruct (projects s !! walk_project w) as [p|] eqn:Hp; [|done].
  destruct (next_stage (walk_skip w) p (walk_todo w)) as [[stage rest]|].
  - apply (exclusive_update s r w _ p); [done..|].
    intros st Hs. cbn in *. destruct (decide (st = stage)) as [->|Hne]; [done|].
    pose proof (running_is_current s r w p st Hex Hrw Hp Hs). congruence.
  - apply exclusive_release; [done..|].
    intros st Hs.
    pose proof (running_is_current s r w p st Hex Hrw Hp Hs). congruence.
Qed.

Lemma exclusive_generated r result s :
  exclusive s → exclusive (generated r result s).
Proof.
  intros Hex. unfold generated.
  destruct (walks s !! r) as [w|] eqn:Hrw; [|done].
  destruct (walk_running w) as [cur|] eqn:Hcur; [|done].
  destruct (projects s !! walk_project w) as [p|] eqn:Hp; [|done].
  destruct result as [artifact|error].
  - apply (exclusive_update s r w _ p); [done..|].
    intros st Hs. cbn in *. destruct (decide (st = cur)) as [->|Hne]; [done|].
    pose proof (running_is_current s r w p st Hex Hrw Hp Hs). congruence.
  - apply exclusive_release; [done..|].
    intros st Hs. cbn in *. destruct (decide (st = cur)) as [->|Hne]; [done|].
    pose proof (running_is_current s r w p st Hex Hrw Hp Hs). congruence.
Qed.

Lemma exclusive_step s a : exclusive s → exclusive (step s a).
Proof.
  destruct a; cbn;
    auto using exclusive_request, exclusive_advance, exclusive_generated.
Qed.

Lemma exclusive_run actions : ∀ s, exclusive s → exclusive (run s actions).
Proof.
  induction actions as [|a actions IH]; intros s Hex; [done|].
  cbn. apply IH. by apply exclusive_step.
Qed.

(** Under the lock discipline a request starts a run exactly when no walk
    of the project is in progress. *)
Lemma request_rejected_while_walking s r w skip :
  exclusive s →
  walks s !! r = Some w →
  request_run (walk_project w) skip s = (s, AlreadyRunning).
Proof.
  intros (Hw & Hx & _) Hrw. destruct (Hx r w Hrw) as [p Hp].
  unfold request_run. rewrite Hp. destruct (Hw r w Hrw) as [-> _]. done.
Qed.

(** ** The change analyzer and the edit path *)

Lemma dependents_script : dependents script = [storyboard; shot_list].
Proof. reflexivity. Qed.

Section EditFacts.

Variable units : string -> list string.
Variable changed_units : list string -> list string -> nat.
Variable significant_on_failure : option Q -> bool.

Abbreviation analyze := (analyze units changed_units significant_on_failure).
Abbreviation applyEdit :=
  (applyEdit units changed_units significant_on_failure).
Abbreviation quantitative := (quantitative units changed_units).
Abbreviation changed := (changed units changed_units).
Abbreviation longer := (longer units).

Lemma analyze_below_threshold old new stage m :
  quantitative old new = Some m →
  (m <= threshold)%Q →
  analyze old new stage =
    Decided {| magnitude := m; significant := false;
               rationale := "change at or below the threshold";
               invalidate := dependents stage |}.
Proof.
  intros Hq Hle. unfold Backend.analyze. rewrite Hq.
  apply Qle_bool_iff in Hle. by rewrite Hle.
Qed.

Lemma save_artifact_records stage content p s :
  records (save_artifact stage content p) s = records p s.
Proof. reflexivity. Qed.

Lemma quantitative_defined old new :
  (0 < longer old new)%nat →
  quantitative old new
  = Some (Z.of_nat (changed old new)
          # Pos.of_nat (longer old new)).
Proof.
  intros Hpos. unfold Backend.quantitative.
  destruct (Nat.eqb_spec (longer old new) 0); [lia|done].
Qed.

Lemma at_most_three_percent (c t : nat) :
  (0 < t)%nat → (100 * c ≤ 3 * t)%nat →
  (Z.of_nat c # Pos.of_nat t <= threshold)%Q.
Proof.
  intros Hpos Hle. unfold Qle, threshold. cbn [Qnum Qden].
  destruct t as [|t']; [lia|].
  rewrite <- Pos.of_nat_succ, Zpos_P_of_succ_nat. lia.
Qed.

(** C2: an edit whose quantitative magnitude, the changed units divided by
    the longer of the two lengths, is at most 3% gets a not-significant
    verdict from the quantitative pass alone: the analysis is decided
    without a [Consult] node, so the judgment call is made zero times and
    the outcome is the same for every judgment call; no stage is
    invalidated, no run is scheduled, every StageRecord is as before, and
    only the edited stage's artifact changes. *)
Theorem below_threshold_edit_is_not_significant
    (judge : string -> string -> Stage -> option Judgment)
    (p : Project) (stage : Stage) (newContent : string) :
  (0 < longer
         (default EmptyString (artifacts p stage)) newContent)%nat →
  (100 * changed
           (default EmptyString (artifacts p stage)) newContent
   ≤ 3 * longer
           (default EmptyString (artifacts p stage)) newContent)%nat →
  analyze (default EmptyString (artifacts p stage)) newContent stage
    = Decided (verdict (applyEdit judge p stage newContent)) ∧
  significant (verdict (applyEdit judge p stage newContent)) = false ∧
  magnitude (verdict (applyEdit judge p stage newContent))
    = (Z.of_nat (changed
                   (default EmptyString (artifacts p stage)) newContent)
       # Pos.of_nat (longer
                       (default EmptyString (artifacts p stage)) newContent)) ∧
  judge_calls (applyEdit judge p stage newContent) = 0%nat ∧
  (∀ judge', applyEdit judge' p stage newContent
             = applyEdit judge p stage newContent) ∧
  invalidated (applyEdit judge p stage newContent) = [] ∧
  scheduled_run (applyEdit judge p stage newContent) = None ∧
  (∀ s, records (project_after (applyEdit judge p stage newContent)) s
        = records p s) ∧
  (∀ s, s ≠ stage →
        artifacts (project_after (applyEdit judge p stage newContent)) s
        = artifacts p s).
Proof.
  intros Hpos Hle.
  pose proof (analyze_below_threshold _ _ stage _
                (quantitative_defined _ _ Hpos)
                (at_most_three_percent _ _ Hpos Hle)) as Ha.
  unfold Backend.applyEdit. rewrite Ha. cbn.
  repeat split; try done.
  intros s Hs. by destruct (decide (s = stage)).
Qed.

(** C3: for every edit of the script stage the verdict names exactly
    [storyboard] and [shot_list] as the stages to invalidate; when the edit
    is judged significant exactly these two are invalidated, both records
    are reset to pending and both artifacts cleared, while the script's
    record stays and its artifact is the new content; when it is not, none
    is invalidated; so [storyboard] is invalidated if and only if
    [shot_list] is. *)
Theorem script_edit_invalidates_both
    (judge : string -> string -> Stage -> option Judgment)
    (p : Project) (newContent : string) :
  invalidate (verdict (applyEdit judge p script newContent))
    = [storyboard; shot_list] ∧
  (significant (verdict (applyEdit judge p script newContent)) = true →
     invalidated (applyEdit judge p script newContent)
       = [storyboard; shot_list] ∧
     records (project_after (applyEdit judge p script newContent)) storyboard
       = fresh_record ∧
     records (project_after (applyEdit judge p script newContent)) shot_list
       = fresh_record ∧
     artifacts (project_after (applyEdit judge p script newContent)) storyboard
       = None ∧
     artifacts (project_after (applyEdit judge p script newContent)) shot_list
       = None ∧
     records (project_after (applyEdit judge p script newContent)) script
       = records p script ∧
     artifacts (project_after (applyEdit judge p script newContent)) script
       = Some newContent ∧
     scheduled_run (applyEdit judge p script newContent) = Some [script]) ∧
  (significant (verdict (applyEdit judge p script newContent)) = false →
     invalidated (applyEdit judge p script newContent) = [] ∧
     scheduled_run (applyEdit judge p script newContent) = None ∧
     ∀ s, records (project_after (applyEdit judge p script newContent)) s
          = records p s ∧
          (s ≠ script →
           artifacts (project_after (applyEdit judge p script newContent)) s
           = artifacts p s)) ∧
  (storyboard ∈ invalidated (applyEdit judge p script newContent) ↔
   shot_list ∈ invalidated (applyEdit judge p script newContent)).
Proof.
  unfold Backend.applyEdit.
  set (old := default EmptyString (artifacts p script)).
  assert (Hdep : invalidate (fst (run_analysis judge (analyze old newContent script)))
                 = [storyboard; shot_list]).
  { unfold Backend.analyze.
    destruct (quantitative old newContent) as [m|]; cbn.
    - destruct (Qle_bool m threshold); cbn; [done|].
      by destruct (judge old newContent script).
    - by destruct (judge old newContent script). }
  destruct (run_analysis judge (analyze old newContent script)) as [v calls].
  cbn in Hdep.
  destruct (significant v) eqn:Hsig; cbn; rewrite ?Hsig, ?Hdep.
  - split; [done|]. split; [intros _; by repeat split|].
    split; [done|]. split; intros _; set_solver.
  - split; [done|]. split; [done|]. split.
    + intros _. split; [done|]. split; [done|]. intros s. split; [done|].
      intros Hs. by destruct (decide (s = script)).
    + split; intros H; by apply elem_of_nil in H.
Qed.

End EditFacts.

(** A script of forty lines. *)
Definition forty_lines : string :=
  String.concat (String "010"%char EmptyString)
    (repeat "SARAH sits alone reading." 39 ++ ["The hero walks slowly."]).

(** The same script with one word of its last line misspelt. *)
Definition forty_lines_typo : string :=
  String.concat (String "010"%char EmptyString)
    (repeat "SARAH sits alone reading." 39 ++ ["The hero walks slowley."]).

(** A project whose three stages are done. *)
Definition finished_project : Project :=
  {| project_id := "p1"; prompt := "a short film"; overall := completed;
     classification := fun _ => false;
     records := fun _ => {| status := done; started_at := Some 1%nat;
                            completed_at := Some 2%nat; last_error := None |};
     artifacts := fun s => match s with
                           | script => Some forty_lines
                           | storyboard => Some "frames"
                           | shot_list => Some "shots"
                           end |}.

(** A judgment call that finds every change significant. *)
Definition always_significant (old new : string) (stage : Stage)
    : option Judgment :=
  Some {| judged_significant := true; judged_magnitude := 1 # 5;
          judged_rationale := "Scene-level changes detected" |}.

Lemma below_threshold_edit_witness :
  changed lines changed_lines
    (default EmptyString (artifacts finished_project script)) forty_lines_typo
    = 1%nat ∧
  longer lines
    (default EmptyString (artifacts finished_project script)) forty_lines_typo
    = 40%nat ∧
  significant (verdict (applyEdit lines changed_lines (fun _ => true)
                          always_significant finished_project script
                          forty_lines_typo)) = false.
Proof.
  split; [vm_compute; reflexivity|]. split; [vm_compute; reflexivity|].
  apply (below_threshold_edit_is_not_significant lines changed_lines
           (fun _ => true) always_significant finished_project script
           forty_lines_typo).
  - vm_compute. lia.
  - vm_compute. lia.
Defined.

(** An edit that replaces the script by a new scene. *)
Definition new_scene : string :=
  String.concat (String "010"%char EmptyString)
    ["INT. COFFEE SHOP - NIGHT"; "TOM enters, approaches her table."].

Lemma script_edit_invalidates_both_witness :
  significant (verdict (applyEdit lines changed_lines (fun _ => false)
                          always_significant finished_project script
                          new_scene)) = true ∧
  invalidated (applyEdit lines changed_lines (fun _ => false)
                 always_significant finished_project script new_scene)
    = [storyboard; shot_list] ∧
  records (project_after (applyEdit lines changed_lines (fun _ => false)
                            always_significant finished_project script
                            new_scene)) storyboard = fresh_record.
Proof.
  assert (H : significant (verdict (applyEdit lines changed_lines
                (fun _ => false) always_significant finished_project script
                new_scene)) = true) by (vm_compute; reflexivity).
  split; [exact H|].
  destruct (script_edit_invalidates_both lines changed_lines (fun _ => false)
              always_significant finished_project new_scene)
    as (_ & Hsig & _).
  destruct (Hsig H) as (Hinv & Hrec & _).
  split; [exact Hinv | exact Hrec].
Defined.

(** ** Serialized runs *)

(** C4: from a system with no run in progress, after any interleaving of
    run requests, walk steps and generation results: at most one walk is in
    progress per project; every [running] StageRecord is the current stage
    of the one walk that holds the project's run lock; a request that
    arrives while a walk of the project is in progress is rejected and
    changes nothing; and of two requests for a project whose lock is free,
    the first acquires the lock and starts a walk and the second is
    rejected. *)
Theorem concurrent_runs_are_serialized (s : System) (actions : list Action) :
  idle s →
  (∀ r1 r2 w1 w2,
     walks (run s actions) !! r1 = Some w1 →
     walks (run s actions) !! r2 = Some w2 →
     walk_project w1 = walk_project w2 → r1 = r2) ∧
  (∀ pid p stage,
     projects (run s actions) !! pid = Some p →
     status (records p stage) = running →
     ∃ r w, run_lock (run s actions) !! pid = Some r ∧
            walks (run s actions) !! r = Some w ∧
            walk_project w = pid ∧ walk_running w = Some stage) ∧
  (∀ r w skip,
     walks (run s actions) !! r = Some w →
     request_run (walk_project w) skip (run s actions)
       = (run s actions, AlreadyRunning)) ∧
  (∀ pid skip1 skip2,
     is_Some (projects (run s actions) !! pid) →
     run_lock (run s actions) !! pid = None →
     ∃ r s1,
       request_run pid skip1 (run s actions) = (s1, Started r) ∧
       run_lock s1 !! pid = Some r ∧
       (∃ w, walks s1 !! r = Some w ∧ walk_project w = pid) ∧
       request_run pid skip2 s1 = (s1, AlreadyRunning)).
Proof.
  intros Hidle.
  pose proof (exclusive_run actions s (exclusive_idle s Hidle)) as Hex.
  set (t := run s actions) in *.
  split; [|split; [|split]].
  - intros r1 r2 w1 w2 H1 H2 Hsame.
    destruct Hex as (Hw & _).
    destruct (Hw r1 w1 H1) as [Hk1 _]. destruct (Hw r2 w2 H2) as [Hk2 _].
    rewrite Hsame in Hk1. congruence.
  - intros pid p stage Hp Hs.
    destruct Hex as (Hw & _ & Hl & Hr).
    destruct (Hr pid p stage Hp Hs) as (r & w & Hk & Hrw & Hrun).
    exists r, w. repeat split; try done.
    destruct (Hl pid r Hk) as (w' & Hrw' & Hwp). congruence.
  - intros r w skip Hrw. by eapply request_rejected_while_walking.
  - intros pid skip1 skip2 [p Hp] Hfree.
    exists (next_run t). eexists. split.
    { unfold request_run. rewrite Hp, Hfree. reflexivity. }
    cbn. rewrite lookup_insert_eq. split; [done|]. split.
    { eexists. rewrite lookup_insert_eq. split; [done|]. done. }
    unfold request_run. cbn. by rewrite !lookup_insert_eq.
Qed.

(** A project just created, nothing generated yet. *)
Definition new_project : Project :=
  {| project_id := "p1"; prompt := "a short film"; overall := created;
     classification := fun _ => false;
     records := fun _ => fresh_record;
     artifacts := fun _ => None |}.

(** A system with that one project and no run. *)
Definition one_project : System :=
  {| projects := {[ "p1" := new_project ]};
     run_lock := ∅; walks := ∅; next_run := 0 |}.

Lemma one_project_idle : idle one_project.
Proof.
  split; [done|]. split; [done|]. intros pid p stage Hp.
  unfold one_project in Hp. cbn in Hp.
  apply lookup_singleton_Some in Hp as [_ <-]. done.
Defined.

Lemma concurrent_runs_are_serialized_witness :
  idle one_project ∧
  request_run "p1" [script]
    (run one_project [RequestRun "p1" []; Advance 0])
  = (run one_project [RequestRun "p1" []; Advance 0], AlreadyRunning).
Proof.
  split; [exact one_project_idle|].
  destruct (concurrent_runs_are_serialized one_project
              [RequestRun "p1" []; Advance 0] one_project_idle)
    as (_ & _ & Hrej & _).
  apply (Hrej 0%nat {| walk_project := "p1"; walk_skip := [];
                       walk_todo := [storyboard; shot_list];
                       walk_running := Some script |} [script]).
  vm_compute. reflexivity.
Defined.

End Backend.

(* ===================================================================== *)
(** * components/ScriptView.jsx *)
(* ===================================================================== *)

Module ScriptView.
Import JS.

Fixpoint strip_prefix (prefix s : string) : option string :=
  match prefix, s with
  | EmptyString, _ => Some s
  | String a prefix', String b s' =>
      if Ascii.eqb a b then strip_prefix prefix' s' else None
  | String _ _, EmptyString => None
  end.

(** The text a request body of the form [{"script":"..."}] carries, as the
    endpoint reads it; [None] for a body of any other form. *)
Definition script_of_body (body : string) : option string :=
  match strip_prefix
          ("{" +:+ JSON_quote "script" +:+ ":" +:+ String dquote EmptyString)
          body with
  | Some rest =>
      match read_quoted rest with
      | Some (text, tail) => if String.eqb tail "}" then Some text else None
      | None => None
      end
  | None => None
  end.

(** ** The component *)

Inductive SaveStatus : Type := analyzing | success | regenerating.

Record Props : Type := mkProps {
  script : option string;        (* [None]: null or undefined *)
  status : jsval;
  projectId : string
}.

Record State : Type := mkState {
  isEditing : bool;
  editedScript : string;
  isSaving : bool;
  saveStatus : option SaveStatus;
  analysisResult : jsval
}.

Record Request : Type := mkRequest {
  url : string;
  method : string;
  headers : list (string * string);
  body : option string
}.

(** What a timer started by [handleSave] does when it fires. *)
Inductive Callback : Type :=
| ExitEditing (result : jsval).

Inductive Effect : Type :=
| Alert (message : string)
| Fetch (request : Request)
| SetTimeout (callback : Callback) (ms : N).

(** What becomes of the [fetch] and of [response.json()]: the [fetch]
    rejects, or answers with [response.ok] and a body that parses as JSON
    or does not. *)
Inductive FetchOutcome : Type :=
| NetworkError
| Response (ok : bool) (json : option jsval).

Definition set_isEditing (b : bool) (st : State) : State :=
  {| isEditing := b; editedScript := editedScript st;
     isSaving := isSaving st; saveStatus := saveStatus st;
     analysisResult := analysisResult st |}.

Definition set_editedScript (s : string) (st : State) : State :=
  {| isEditing := isEditing st; editedScript := s;
     isSaving := isSaving st; saveStatus := saveStatus st;
     analysisResult := analysisResult st |}.

Definition set_isSaving (b : bool) (st : State) : State :=
  {| isEditing := isEditing st; editedScript := editedScript st;
     isSaving := b; saveStatus := saveStatus st;
     analysisResult := analysisResult st |}.

Definition set_saveStatus (s : option SaveStatus) (st : State) : State :=
  {| isEditing := isEditing st; editedScript := editedScript st;
     isSaving := isSaving st; saveStatus := s;
     analysisResult := analysisResult st |}.

Definition set_analysisResult (r : jsval) (st : State) : State :=
  {| isEditing := isEditing st; editedScript := editedScript st;
     isSaving := isSaving st; saveStatus := saveStatus st;
     analysisResult := r |}.

(** [script] as a condition. *)
Definition script_truthy (p : Props) : bool :=
  match script p with
  | Some s => truthy (JStr s)
  | None => false
  end.

(** [script || '']. *)
Definition script_or_empty (p : Props) : string :=
  if script_truthy p then default EmptyString (script p) else EmptyString.

(** [editedScript === script]. *)
Definition same_as_script (p : Props) (st : State) : bool :=
  match script p with
  | Some s => String.eqb (editedScript st) s
  | None => false
  end.

Section Component.

Variable NEXT_PUBLIC_API_URL : option string.

Definition API_URL : string :=
  env_or NEXT_PUBLIC_API_URL "http://localhost:8000".

Definition initial_state (p : Props) : State :=
  {| isEditing := false; editedScript := script_or_empty p;
     isSaving := false; saveStatus := None; analysisResult := JNull |}.

(** The effect on [[script]]. *)
Definition script_changed (p : Props) (st : State) : State :=
  if script_truthy p then set_editedScript (default EmptyString (script p)) st
  else st.

Definition handleEdit (st : State) : State :=
  set_analysisResult JNull (set_saveStatus None (set_isEditing true st)).

Definition handleCancel (p : Props) (st : State) : State :=
  set_analysisResult JNull
    (set_saveStatus None
       (set_isEditing false (set_editedScript (script_or_empty p) st))).

(** The textarea's [onChange]. *)
Definition typed (text : string) (st : State) : State :=
  set_editedScript text st.

(** [handleSave] up to its [await fetch(...)]. *)
Definition handleSave_request (p : Props) (st : State)
    : State * list Effect :=
  if negb (truthy (JStr (trim (editedScript st)))) then
    (st, [Alert "Script cannot be empty"])
  else
    (set_saveStatus (Some analyzing) (set_isSaving true st),
     [Fetch {| url := API_URL +:+ "/projects/" +:+ projectId p +:+ "/script";
               method := "PUT";
               headers := [("Content-Type", "application/json")];
               body := JSON_stringify
                         (JObj [("script", JStr (editedScript st))]) |}]).

(** The [catch] and [finally] blocks. *)
Definition save_failed (st : State) : State * list Effect :=
  (set_isSaving false (set_saveStatus None st),
   [Alert "Failed to save script. Please try again."]).

(** [handleSave] from the [fetch]'s outcome on. *)
Definition handleSave_response (o : FetchOutcome) (st : State)
    : State * list Effect :=
  match o with
  | NetworkError => save_failed st
  | Response false _ => save_failed st
  | Response true None => save_failed st
  | Response true (Some result) =>
      let st1 := set_analysisResult result st in
      match get_prop result "should_regenerate" with
      | None => save_failed st1
      | Some flag =>
          (set_isSaving false
             (set_saveStatus
                (Some (if truthy flag then regenerating else success)) st1),
           [SetTimeout (ExitEditing result) 3000%N])
      end
  end.

(** The requests among a handler's effects. *)
Definition requests (effects : list Effect) : list Request :=
  omap (fun e => match e with Fetch r => Some r | _ => None end) effects.

(** [handleSave] as a whole, given what becomes of its [fetch]. *)
Definition handleSave (p : Props) (o : FetchOutcome) (st : State)
    : State * list Effect :=
  let '(st1, effects) := handleSave_request p st in
  match requests effects with
  | [] => (st1, effects)
  | _ :: _ =>
      let '(st2, more) := handleSave_response o st1 in
      (st2, effects ++ more)
  end.

(** The timer's callback, three seconds after a save. *)
Definition fire (cb : Callback) (st : State) : State :=
  match cb with
  | ExitEditing result =>
      let st1 := set_isEditing false st in
      match get_prop result "should_regenerate" with
      | Some flag => if truthy flag then st1 else set_saveStatus None st1
      | None => st1
      end
  end.

(** What the component renders. *)
Inductive Buttons : Type :=
| EditButton
| CancelAndSave (cancel_disabled save_disabled : bool).

Record Panel : Type := mkPanel {
  panel_regenerating : bool;
  panel_heading : string;
  panel_reason : jsval;
  panel_change_summary : jsval;
  panel_change_percentage : jsval;
  panel_wait_note : bool
}.

Inductive Content : Type :=
| Editor (value : string)
| Pre (text : string)
| Generating
| NoScriptYet.

Record View : Type := mkView {
  indicator : option SaveStatus;
  buttons : option Buttons;
  analysis_panel : option Panel;
  content : Content
}.

Definition render_panel (result : jsval) : option Panel :=
  if truthy result then
    let field k := default JUndefined (get_prop result k) in
    let regen := truthy (field "should_regenerate") in
    Some {| panel_regenerating := regen;
            panel_heading :=
              if regen then " Regenerating Downstream Artifacts"
              else " Script Updated Successfully";
            panel_reason := field "reason";
            panel_change_summary := field "change_summary";
            panel_change_percentage := field "change_percentage";
            panel_wait_note := regen |}
  else None.

Definition render (p : Props) (st : State) : View :=
  {| indicator := if script_truthy p then saveStatus st else None;
     buttons :=
       if script_truthy p then
         Some (if isEditing st
               then CancelAndSave (isSaving st)
                      (isSaving st || same_as_script p st)
               else EditButton)
       else None;
     analysis_panel := render_panel (analysisResult st);
     content :=
       if script_truthy p then
         if isEditing st then Editor (editedScript st)
         else Pre (default EmptyString (script p))
       else
         match status p with
         | JUndefined | JNull => NoScriptYet
         | s => if is_str (default JUndefined (get_prop s "status")) "running"
                then Generating else NoScriptYet
         end |}.

(** A click on "Save Changes": the handler runs when the button is on the
    page and not disabled. *)
Definition click_save (p : Props) (st : State) : State * list Effect :=
  match buttons (render p st) with
  | Some (CancelAndSave _ false) => handleSave_request p st
  | _ => (st, [])
  end.

End Component.

(** The response carries a verdict: it is an object with the fields
    [should_regenerate] (a boolean), [reason], [change_summary] and
    [change_percentage]. *)
Definition carries_verdict (result : jsval) (flag : bool)
    (reason summary percentage : jsval) : Prop :=
  ∃ fields, result = JObj fields ∧
    own_prop fields "should_regenerate" = Some (JBool flag) ∧
    own_prop fields "reason" = Some reason ∧
    own_prop fields "change_summary" = Some summary ∧
    own_prop fields "change_percentage" = Some percentage.

(** ** [trim] and blank texts *)

Lemma trim_start_empty s : trim_start s = EmptyString ↔ blank s = true.
Proof.
  induction s as [|c s IH]; cbn; [done|].
  destruct (is_white_space c); cbn; [done|]. split; discriminate.
Qed.

Lemma blank_trim_start s : blank (trim_start s) = blank s.
Proof.
  induction s as [|c s IH]; cbn; [done|].
  destruct (is_white_space c) eqn:Hc; cbn; [done|]. by rewrite Hc.
Qed.

Lemma blank_rev_onto s : ∀ acc,
  blank (string_rev_onto s acc) = blank s && blank acc.
Proof.
  induction s as [|c s IH]; intros acc; cbn; [done|].
  rewrite IH. cbn. by destruct (is_white_space c), (blank s), (blank acc).
Qed.

Lemma rev_onto_empty s : ∀ acc,
  string_rev_onto s acc = EmptyString → s = EmptyString ∧ acc = EmptyString.
Proof.
  induction s as [|c s IH]; intros acc H; cbn in H; [done|].
  by destruct (IH _ H).
Qed.

Lemma trim_end_empty s : trim_end s = EmptyString ↔ blank s = true.
Proof.
  unfold trim_end, string_rev. split.
  - intros H. apply rev_onto_empty in H as [H _].
    apply trim_start_empty in H. rewrite blank_rev_onto in H.
    by apply andb_true_iff in H as [H _].
  - intros H.
    assert (Hb : blank (string_rev_onto s EmptyString) = true)
      by (by rewrite blank_rev_onto, H).
    apply trim_start_empty in Hb. by rewrite Hb.
Qed.

Lemma trim_empty s : trim s = EmptyString ↔ blank s = true.
Proof. unfold trim. by rewrite trim_end_empty, blank_trim_start. Qed.

Lemma trim_truthy s : truthy (JStr (trim s)) = negb (blank s).
Proof.
  cbn. destruct (blank s) eqn:Hb.
  - apply trim_empty in Hb. by rewrite Hb.
  - destruct (String.eqb_spec (trim s) EmptyString) as [He|]; [|done].
    apply trim_empty in He. congruence.
Qed.

(** ** The request body *)

Lemma append_assoc (a b c : string) : (a +:+ b) +:+ c = a +:+ (b +:+ c).
Proof.
  induction a as [|x a IH]; [reflexivity|].
  change (String x ((a +:+ b) +:+ c) = String x (a +:+ (b +:+ c))).
  by rewrite IH.
Qed.

Lemma strip_prefix_append prefix rest :
  strip_prefix prefix (prefix +:+ rest) = Some rest.
Proof.
  induction prefix as [|x prefix IH]; [reflexivity|].
  change (strip_prefix (String x prefix) (String x (prefix +:+ rest))
          = Some rest).
  cbn. by rewrite Ascii.eqb_refl.
Qed.

(** Reading an escaped code unit back gives the code unit. *)
Lemma read_quoted_unit c rest :
  read_quoted (escape_unit c +:+ rest)
  = prod_map (String c) id <$> read_quoted rest.
Proof. destruct c as [[] [] [] [] [] [] [] []]; reflexivity. Qed.

Lemma read_quoted_escape s : ∀ tail,
  read_quoted (escape s +:+ String dquote tail) = Some (s, tail).
Proof.
  induction s as [|c s IH]; intros tail; [reflexivity|].
  cbn [escape]. rewrite append_assoc, read_quoted_unit, IH. reflexivity.
Qed.

Lemma stringify_script text :
  JSON_stringify (JObj [("script", JStr text)])
  = Some ("{" +:+ JSON_quote "script" +:+ ":" +:+ JSON_quote text +:+ "}").
Proof. unfold JSON_stringify. rewrite !append_assoc. reflexivity. Qed.

Lemma script_of_body_stringify text body :
  JSON_stringify (JObj [("script", JStr text)]) = Some body →
  script_of_body body = Some text.
Proof.
  intros [= <-]. unfold script_of_body.
  lazymatch goal with
  | |- context [strip_prefix ?prefix ?b] =>
      change b
        with (prefix +:+ (((escape text +:+ String dquote EmptyString)
                           +:+ EmptyString) +:+ "}"))
  end.
  rewrite strip_prefix_append, !append_assoc.
  change (String dquote EmptyString +:+ "" +:+ "}") with (String dquote "}").
  by rewrite read_quoted_escape.
Qed.

Section ComponentFacts.

Variable NEXT_PUBLIC_API_URL : option string.

Abbreviation handleSave_request := (handleSave_request NEXT_PUBLIC_API_URL).
Abbreviation click_save := (click_save NEXT_PUBLIC_API_URL).

Lemma handleSave_request_blank p st :
  blank (editedScript st) = true →
  handleSave_request p st = (st, [Alert "Script cannot be empty"]).
Proof.
  intros Hb. unfold ScriptView.handleSave_request.
  by rewrite trim_truthy, Hb.
Qed.

Lemma handleSave_request_fetches p st r :
  r ∈ requests (snd (handleSave_request p st)) →
  blank (editedScript st) = false ∧
  snd (handleSave_request p st) = [Fetch r] ∧
  r = {| url := API_URL NEXT_PUBLIC_API_URL +:+ "/projects/" +:+ projectId p
                +:+ "/script";
         method := "PUT";
         headers := [("Content-Type", "application/json")];
         body := JSON_stringify (JObj [("script", JStr (editedScript st))]) |}.
Proof.
  unfold ScriptView.handleSave_request. rewrite trim_truthy.
  destruct (blank (editedScript st)); cbn.
  - intros H. by apply elem_of_nil in H.
  - intros H. apply list_elem_of_singleton in H. by subst.
Qed.

(** C5: every request [handleSave] issues is a [PUT] to the project's
    script URL whose body is the JSON text of an object with the single
    field [script], and that field holds the whole edited text: reading
    the body back gives exactly [editedScript].  A call issues at most one
    request. *)
Theorem save_request_is_full_replacement (p : Props) (st : State)
    (r : Request) :
  r ∈ requests (snd (handleSave_request p st)) →
  method r = "PUT" ∧
  url r = API_URL NEXT_PUBLIC_API_URL +:+ "/projects/" +:+ projectId p
          +:+ "/script" ∧
  body r = JSON_stringify (JObj [("script", JStr (editedScript st))]) ∧
  (∃ text, body r = Some text ∧
           text = "{" +:+ JSON_quote "script" +:+ ":"
                  +:+ JSON_quote (editedScript st) +:+ "}" ∧
           script_of_body text = Some (editedScript st)) ∧
  requests (snd (handleSave_request p st)) = [r].
Proof.
  intros Hr. destruct (handleSave_request_fetches p st r Hr) as (_ & He & ->).
  cbn [method url body]. repeat split.
  - eexists. split; [apply stringify_script|]. split; [reflexivity|].
    apply script_of_body_stringify, stringify_script.
  - by rewrite He.
Qed.

(** C10: [handleSave] issues no request and changes no state when the
    edited script is empty or only white space; the Save button is disabled
    exactly while a save is in flight or the edited text is identical to
    the [script] prop, the script the component was last given; so a click
    on Save issues no request in any of the three cases, and every request
    a click does issue carries a script that is not blank and differs from
    that prop, with no save in flight. *)
Theorem degenerate_edit_never_submitted (p : Props) (st : State) :
  (blank (editedScript st) = true →
     requests (snd (handleSave_request p st)) = [] ∧
     fst (handleSave_request p st) = st) ∧
  (∀ c d, buttons (render p st) = Some (CancelAndSave c d) →
     d = isSaving st || same_as_script p st) ∧
  (blank (editedScript st) = true ∨ isSaving st = true ∨
   script p = Some (editedScript st) →
     requests (snd (click_save p st)) = []) ∧
  (∀ r, r ∈ requests (snd (click_save p st)) →
     blank (editedScript st) = false ∧ isSaving st = false ∧
     script p ≠ Some (editedScript st) ∧
     body r = JSON_stringify (JObj [("script", JStr (editedScript st))])).
Proof.
  assert (Hclick : ∀ r, r ∈ requests (snd (click_save p st)) →
     blank (editedScript st) = false ∧ isSaving st = false ∧
     script p ≠ Some (editedScript st) ∧
     body r = JSON_stringify (JObj [("script", JStr (editedScript st))])).
  { intros r. unfold ScriptView.click_save, render. cbn [buttons].
    destruct (script_truthy p); [|intros H; by apply elem_of_nil in H].
    destruct (isEditing st); [|intros H; by apply elem_of_nil in H].
    destruct (isSaving st) eqn:Hs; cbn [orb];
      [intros H; by apply elem_of_nil in H|].
    unfold same_as_script.
    destruct (script p) as [s0|] eqn:Hsc.
    - destruct (String.eqb_spec (editedScript st) s0) as [->|Hne];
        [intros H; by apply elem_of_nil in H|].
      intros H. destruct (handleSave_request_fetches p st r H) as (Hb & _ & ->).
      repeat split; try done. congruence.
    - intros H. destruct (handleSave_request_fetches p st r H) as (Hb & _ & ->).
      repeat split; done. }
  split; [|split; [|split]]; [| | |exact Hclick].
  - intros Hb. by rewrite handleSave_request_blank.
  - unfold render. cbn [buttons].
    destruct (script_truthy p); [|done].
    destruct (isEditing st); [|done]. by intros c d [= _ <-].
  - intros Hcase.
    destruct (requests (snd (click_save p st))) as [|r rs] eqn:Hreq; [done|].
    destruct (Hclick r) as (Hb & Hs & Hne & _); [rewrite ?Hreq; by left|].
    destruct Hcase as [H|[H|H]]; congruence.
Qed.

End ComponentFacts.

(** A script of spaces and a line feed only, typed over a stored script. *)
Definition blank_edit : State :=
  {| isEditing := true;
     editedScript := String " " (String " " (String "010"%char EmptyString));
     isSaving := false; saveStatus := None; analysisResult := JNull |}.

Lemma degenerate_edit_never_submitted_witness :
  requests
    (snd (click_save None
            {| script := Some "INT. ROOM"; status := JUndefined;
               projectId := "42" |} blank_edit)) = [].
Proof.
  destruct (degenerate_edit_never_submitted None
              {| script := Some "INT. ROOM"; status := JUndefined;
                 projectId := "42" |} blank_edit) as (_ & _ & Hnone & _).
  apply Hnone. left. vm_compute. reflexivity.
Defined.

Lemma save_request_is_full_replacement_witness :
  script_of_body
    ("{" +:+ JSON_quote "script" +:+ ":" +:+ JSON_quote "FADE IN:" +:+ "}")
  = Some "FADE IN:".
Proof.
  pose (p := {| script := Some "INT. ROOM"; status := JUndefined;
                projectId := "42" |}).
  pose (st := {| isEditing := true; editedScript := "FADE IN:";
                 isSaving := false; saveStatus := None;
                 analysisResult := JNull |}).
  pose (r := {| url := "http://localhost:8000/projects/42/script";
                method := "PUT";
                headers := [("Content-Type", "application/json")];
                body := JSON_stringify (JObj [("script", JStr "FADE IN:")]) |}).
  assert (Hr : r ∈ requests (snd (handleSave_request None p st)))
    by (vm_compute; left).
  destruct (save_request_is_full_replacement None p st r Hr)
    as (_ & _ & _ & (text & Hbody & -> & Hread) & _).
  exact Hread.
Defined.

(** ** The save response *)

(** Both forms of the endpoint's response carry the verdict. *)
Lemma script_update_response_carries_verdict pid o summary percentage :
  carries_verdict (Backend.script_update_response pid o summary percentage)
    (Backend.significant (Backend.verdict o))
    (JStr (Backend.rationale (Backend.verdict o)))
    (JStr summary) (JNum percentage).
Proof.
  unfold Backend.script_update_response, carries_verdict.
  destruct (Backend.significant (Backend.verdict o));
    eexists; (split; [reflexivity|]); repeat split.
Qed.

Lemma carries_verdict_props result flag reason summary percentage :
  carries_verdict result flag reason summary percentage →
  truthy result = true ∧
  get_prop result "should_regenerate" = Some (JBool flag) ∧
  get_prop result "reason" = Some reason ∧
  get_prop result "change_summary" = Some summary ∧
  get_prop result "change_percentage" = Some percentage.
Proof.
  intros (fields & -> & H1 & H2 & H3 & H4). cbn.
  by rewrite H1, H2, H3, H4.
Qed.

(** C1: the response of the edit endpoint carries the verdict's fields in
    both of its forms; and for every response that carries them, a
    successful save stores the response, sets the save state to
    [regenerating] if and only if [should_regenerate] is true and to
    [success] otherwise, ends the saving, and the page then shows the
    verdict's reason, change summary and change percentage; three seconds
    later the stored verdict is still shown, and only a [success] state is
    cleared.  The same holds of [handleSave] as a whole when the edited
    script is not blank. *)
Theorem save_response_distinguishes_outcomes
    (NEXT_PUBLIC_API_URL : option string)
    (p : Props) (st : State) (result : jsval) (flag : bool)
    (reason summary percentage : jsval) :
  carries_verdict result flag reason summary percentage →
  (∀ pid o text number,
     carries_verdict (Backend.script_update_response pid o text number)
       (Backend.significant (Backend.verdict o))
       (JStr (Backend.rationale (Backend.verdict o)))
       (JStr text) (JNum number)) ∧
  saveStatus (fst (handleSave_response (Response true (Some result)) st))
    = Some (if flag then regenerating else success) ∧
  (saveStatus (fst (handleSave_response (Response true (Some result)) st))
     = Some regenerating ↔ flag = true) ∧
  (saveStatus (fst (handleSave_response (Response true (Some result)) st))
     = Some success ↔ flag = false) ∧
  isSaving (fst (handleSave_response (Response true (Some result)) st))
    = false ∧
  analysisResult (fst (handleSave_response (Response true (Some result)) st))
    = result ∧
  snd (handleSave_response (Response true (Some result)) st)
    = [SetTimeout (ExitEditing result) 3000%N] ∧
  analysis_panel
    (render p (fst (handleSave_response (Response true (Some result)) st)))
    = Some {| panel_regenerating := flag;
              panel_heading :=
                if flag then " Regenerating Downstream Artifacts"
                else " Script Updated Successfully";
              panel_reason := reason;
              panel_change_summary := summary;
              panel_change_percentage := percentage;
              panel_wait_note := flag |} ∧
  analysisResult
    (fire (ExitEditing result)
       (fst (handleSave_response (Response true (Some result)) st)))
    = result ∧
  saveStatus
    (fire (ExitEditing result)
       (fst (handleSave_response (Response true (Some result)) st)))
    = (if flag then Some regenerating else None) ∧
  (blank (editedScript st) = false →
     saveStatus
       (fst (handleSave NEXT_PUBLIC_API_URL p (Response true (Some result))
               st))
       = Some (if flag then regenerating else success) ∧
     analysisResult
       (fst (handleSave NEXT_PUBLIC_API_URL p (Response true (Some result))
               st))
       = result).
Proof.
  intros Hc.
  destruct (carries_verdict_props _ _ _ _ _ Hc) as (Ht & Hf & Hr & Hs & Hp).
  split; [intros; apply script_update_response_carries_verdict|].
  assert (Hresp : ∀ st0,
    fst (handleSave_response (Response true (Some result)) st0)
    = set_isSaving false
        (set_saveStatus (Some (if flag then regenerating else success))
           (set_analysisResult result st0))).
  { intros st0. unfold handleSave_response. rewrite Hf. by destruct flag. }
  assert (Hwhole : blank (editedScript st) = false →
    fst (handleSave NEXT_PUBLIC_API_URL p (Response true (Some result)) st)
    = fst (handleSave_response (Response true (Some result))
             (set_saveStatus (Some analyzing) (set_isSaving true st)))).
  { intros Hb. unfold handleSave, handleSave_request.
    rewrite trim_truthy, Hb. cbn [negb requests omap].
    by destruct (handleSave_response _ _). }
  rewrite Hresp.
  split; [done|]. split; [by destruct flag|]. split; [by destruct flag|].
  split; [done|]. split; [done|].
  split; [unfold handleSave_response; by rewrite Hf|].
  split.
  { unfold render, render_panel. cbn. by rewrite Ht, Hf, Hr, Hs, Hp. }
  split; [unfold fire; rewrite Hf; by destruct flag|].
  split; [unfold fire; rewrite Hf; by destruct flag|].
  intros Hb. by rewrite (Hwhole Hb), Hresp.
Qed.

(** The README's sample response to a significant edit. *)
Definition sample_response : jsval :=
  JObj [ ("message", JStr "Script updated and regeneration started");
         ("project_id", JStr "42");
         ("should_regenerate", JBool true);
         ("regenerate_storyboard", JBool true);
         ("regenerate_shot_list", JBool true);
         ("reason", JStr "Scene-level changes detected");
         ("change_summary", JStr "Added new scene, modified dialogue");
         ("change_percentage", JNum "18.5") ].

Definition saving_state : State :=
  {| isEditing := true; editedScript := "FADE IN:"; isSaving := true;
     saveStatus := Some analyzing; analysisResult := JNull |}.

Lemma sample_response_carries_verdict :
  carries_verdict sample_response true
    (JStr "Scene-level changes detected")
    (JStr "Added new scene, modified dialogue") (JNum "18.5").
Proof. eexists. split; [reflexivity|]. repeat split. Defined.

Lemma save_response_distinguishes_outcomes_witness :
  carries_verdict sample_response true
    (JStr "Scene-level changes detected")
    (JStr "Added new scene, modified dialogue") (JNum "18.5") ∧
  saveStatus
    (fst (handleSave_response (Response true (Some sample_response))
            saving_state)) = Some regenerating.
Proof.
  split; [exact sample_response_carries_verdict|].
  destruct (save_response_distinguishes_outcomes None
              {| script := Some "INT. ROOM"; status := JUndefined;
                 projectId := "42" |}
              saving_state sample_response true _ _ _
              sample_response_carries_verdict) as (_ & H & _).
  exact H.
Defined.

(** ** Failed saves, saves in flight and discarded edits *)

Section EditingFacts.

Variable NEXT_PUBLIC_API_URL : option string.

Abbreviation handleSave := (handleSave NEXT_PUBLIC_API_URL).
Abbreviation handleSave_request := (handleSave_request NEXT_PUBLIC_API_URL).
Abbreviation click_save := (click_save NEXT_PUBLIC_API_URL).

Lemma handleSave_request_sends p st :
  blank (editedScript st) = false →
  handleSave_request p st
  = (set_saveStatus (Some analyzing) (set_isSaving true st),
     [Fetch {| url := API_URL NEXT_PUBLIC_API_URL +:+ "/projects/"
                      +:+ projectId p +:+ "/script";
               method := "PUT";
               headers := [("Content-Type", "application/json")];
               body := JSON_stringify
                         (JObj [("script", JStr (editedScript st))]) |}]).
Proof.
  intros Hb. unfold ScriptView.handleSave_request. by rewrite trim_truthy, Hb.
Qed.

Lemma handleSave_sends p o st :
  blank (editedScript st) = false →
  handleSave p o st
  = (fst (handleSave_response o
            (set_saveStatus (Some analyzing) (set_isSaving true st))),
     snd (handleSave_request p st)
     ++ snd (handleSave_response o
               (set_saveStatus (Some analyzing) (set_isSaving true st)))).
Proof.
  intros Hb. unfold ScriptView.handleSave.
  rewrite (handleSave_request_sends p st Hb). cbn [requests omap snd].
  by destruct (handleSave_response _ _).
Qed.

(** ScriptView.jsx, [handleSave]: a save never changes the edited text or
    leaves editing mode by itself, whatever its outcome.  A save that fails
    (the fetch rejects, the response is not ok, or its body does not parse)
    raises the one alert 'Failed to save script. Please try again.',
    starts no timer, ends the saving and clears the save status, and keeps
    an earlier analysis result; so the page is as before the click but for
    the status indicator, and a second click sends the same request
    again. *)
Theorem failed_save_keeps_the_edit
    (p : Props) (o : FetchOutcome) (st : State) :
  blank (editedScript st) = false →
  isSaving st = false →
  (editedScript (fst (handleSave p o st)) = editedScript st ∧
   isEditing (fst (handleSave p o st)) = isEditing st ∧
   isSaving (fst (handleSave p o st)) = false) ∧
  (o = NetworkError ∨ (∃ json, o = Response false json) ∨
   o = Response true None →
   fst (handleSave p o st) = set_saveStatus None st ∧
   snd (handleSave p o st)
     = snd (handleSave_request p st)
       ++ [Alert "Failed to save script. Please try again."] ∧
   buttons (render p (fst (handleSave p o st))) = buttons (render p st) ∧
   content (render p (fst (handleSave p o st))) = content (render p st) ∧
   analysis_panel (render p (fst (handleSave p o st)))
     = analysis_panel (render p st) ∧
   indicator (render p (fst (handleSave p o st))) = None ∧
   snd (click_save p (fst (handleSave p o st))) = snd (click_save p st)).
Proof.
  intros Hb Hs. rewrite (handleSave_sends p o st Hb). cbn [fst snd]. split.
  - destruct o as [|[] [result|]]; try done. cbn.
    by destruct (get_prop result "should_regenerate").
  - intros Hfail.
    assert (Hr : handleSave_response o
                   (set_saveStatus (Some analyzing) (set_isSaving true st))
                 = (set_saveStatus None st,
                    [Alert "Failed to save script. Please try again."])).
    { destruct st as [e t v sv a]. cbn in Hs. subst v.
      by destruct Hfail as [->|[(json & ->)| ->]]. }
    rewrite Hr. cbn [fst snd]. split; [done|]. split; [done|].
    split; [done|]. split; [done|]. split; [done|].
    split; [unfold render; cbn; by destruct (script_truthy p)|].
    unfold ScriptView.click_save, render. cbn [buttons].
    destruct (script_truthy p); [|done].
    change (isEditing (set_saveStatus None st)) with (isEditing st).
    change (isSaving (set_saveStatus None st)) with (isSaving st).
    change (same_as_script p (set_saveStatus None st))
      with (same_as_script p st).
    destruct (isEditing st); [|done].
    destruct (isSaving st || same_as_script p st); [done|].
    by rewrite !handleSave_request_sends.
Qed.


(** ScriptView.jsx, [handleCancel] and the effect on [script]: Cancel
    throws the typed text away for the stored script, or for the empty text
    when there is none, and closes the editor; a new value of the [script]
    prop replaces the text in the editor even in the middle of an edit.
    After either, and after Edit following a Cancel, the Save button is
    missing or disabled and a click on it sends nothing. *)
Theorem stored_script_is_never_resubmitted (p : Props) (st : State) :
  editedScript (handleCancel p st) = script_or_empty p ∧
  isEditing (handleCancel p st) = false ∧
  (∀ text, handleCancel p (typed text st) = handleCancel p st) ∧
  click_save p (handleCancel p st) = (handleCancel p st, []) ∧
  click_save p (handleEdit (handleCancel p st))
    = (handleEdit (handleCancel p st), []) ∧
  (∀ text, script p = Some text → text ≠ EmptyString →
     editedScript (script_changed p st) = text ∧
     content (render p (handleEdit (handleCancel p st))) = Editor text ∧
     buttons (render p (handleEdit (handleCancel p st)))
       = Some (CancelAndSave (isSaving st) true)) ∧
  click_save p (script_changed p st) = (script_changed p st, []).
Proof.
  split; [done|]. split; [done|]. split; [done|].
  assert (Hsame : script_truthy p = true →
            ∃ text, script p = Some text ∧ script_or_empty p = text).
  { unfold script_or_empty, script_truthy.
    destruct (script p) as [text|]; [|done]. intros ->. by exists text. }
  split; [|split; [|split]].
  - unfold ScriptView.click_save, render. cbn [buttons].
    by destruct (script_truthy p).
  - unfold ScriptView.click_save, render. cbn [buttons].
    destruct (script_truthy p) eqn:Ht; [|done].
    destruct (Hsame eq_refl) as (text & Hp & Ho).
    unfold same_as_script. rewrite Hp. cbn. rewrite Ho, String.eqb_refl.
    by rewrite orb_true_r.
  - intros text Hp Hne.
    assert (Ht : script_truthy p = true).
    { unfold script_truthy. rewrite Hp. cbn.
      apply negb_true_iff. by apply String.eqb_neq. }
    destruct (Hsame Ht) as (text' & Hp' & Ho).
    assert (text' = text) as -> by congruence.
    unfold script_changed, render, same_as_script. rewrite Ht, Hp. cbn.
    by rewrite Ho, String.eqb_refl, orb_true_r.
  - unfold ScriptView.click_save, render, script_changed. cbn [buttons].
    destruct (script_truthy p) eqn:Ht; [|done].
    destruct (Hsame eq_refl) as (text & Hp & Ho).
    unfold same_as_script. rewrite Hp. cbn. rewrite String.eqb_refl.
    rewrite orb_true_r. by destruct (isEditing st).
Qed.

(** ScriptView.jsx, after a successful save: when the timer fires, three
    seconds after the response, the editor closes and the page shows the
    Edit button and the script of the [script] prop, not the text that
    was saved, which stays in [editedScript]; until the parent passes the
    new script, Edit opens the editor on the saved text with the analysis
    panel gone and, the text differing from the prop, Save enabled; once
    the prop is the saved text, Save is disabled. *)
Theorem saved_text_waits_for_the_prop
    (p : Props) (st : State) (result flag : jsval) (stored : string) :
  blank (editedScript st) = false →
  script p = Some stored →
  stored ≠ EmptyString →
  get_prop result "should_regenerate" = Some flag →
  isEditing (fire (ExitEditing result)
               (fst (handleSave p (Response true (Some result)) st)))
    = false ∧
  editedScript (fire (ExitEditing result)
                  (fst (handleSave p (Response true (Some result)) st)))
    = editedScript st ∧
  content (render p (fire (ExitEditing result)
                       (fst (handleSave p (Response true (Some result)) st))))
    = Pre stored ∧
  buttons (render p (fire (ExitEditing result)
                       (fst (handleSave p (Response true (Some result)) st))))
    = Some EditButton ∧
  render p (handleEdit
              (fire (ExitEditing result)
                 (fst (handleSave p (Response true (Some result)) st))))
    = {| indicator := None;
         buttons :=
           Some (CancelAndSave false (String.eqb (editedScript st) stored));
         analysis_panel := None;
         content := Editor (editedScript st) |} ∧
  buttons
    (render {| script := Some (editedScript st); status := status p;
               projectId := projectId p |}
       (handleEdit
          (script_changed
             {| script := Some (editedScript st); status := status p;
                projectId := projectId p |}
             (fire (ExitEditing result)
                (fst (handleSave p (Response true (Some result)) st))))))
    = Some (CancelAndSave false true).
Proof.
  intros Hb Hp Hne Hflag. rewrite (handleSave_sends p _ st Hb). cbn [fst].
  assert (Hs : negb (String.eqb stored EmptyString) = true)
    by (by apply negb_true_iff, String.eqb_neq).
  assert (He : negb (String.eqb (editedScript st) EmptyString) = true).
  { apply negb_true_iff, String.eqb_neq. intros He. by rewrite He in Hb. }
  assert (Hst :
    fire (ExitEditing result)
      (fst (handleSave_response (Response true (Some result))
              (set_saveStatus (Some analyzing) (set_isSaving true st))))
    = {| isEditing := false; editedScript := editedScript st;
         isSaving := false;
         saveStatus := if truthy flag then Some regenerating else None;
         analysisResult := result |}).
  { unfold handleSave_response, fire. rewrite Hflag. cbn [fst].
    by destruct (truthy flag). }
  rewrite Hst. unfold render, same_as_script, script_changed, script_truthy.
  rewrite Hp. cbn. rewrite Hs, He. cbn. by rewrite String.eqb_refl.
Qed.

End EditingFacts.

Lemma failed_save_keeps_the_edit_witness :
  fst (handleSave None
         {| script := Some "INT. ROOM"; status := JUndefined;
            projectId := "42" |}
         NetworkError
         {| isEditing := true; editedScript := "FADE IN:"; isSaving := false;
            saveStatus := None; analysisResult := JNull |})
  = {| isEditing := true; editedScript := "FADE IN:"; isSaving := false;
       saveStatus := None; analysisResult := JNull |}.
Proof.
  destruct (failed_save_keeps_the_edit None
              {| script := Some "INT. ROOM"; status := JUndefined;
                 projectId := "42" |}
              NetworkError
              {| isEditing := true; editedScript := "FADE IN:";
                 isSaving := false; saveStatus := None;
                 analysisResult := JNull |} eq_refl eq_refl) as [_ H].
  destruct H as [H _]; [by left|]. exact H.
Defined.


(** ** Saving twice *)

(** The response to an edit that needs no regeneration. *)
Definition minor_response : jsval :=
  JObj [ ("message", JStr "Script updated");
         ("project_id", JStr "42");
         ("should_regenerate", JBool false);
         ("reason", JStr "Only wording changed");
         ("change_summary", JStr "Reworded one line");
         ("change_percentage", JNum "1.2") ].

(** The component as the dashboard last rendered it, before any refresh. *)
Definition stale_props : Props :=
  {| script := Some "INT. ROOM"; status := JUndefined; projectId := "42" |}.

Definition edited : State :=
  {| isEditing := true; editedScript := "FADE IN:"; isSaving := false;
     saveStatus := None; analysisResult := JNull |}.

Definition edit_request : Request :=
  {| url := "http://localhost:8000/projects/42/script";
     method := "PUT";
     headers := [("Content-Type", "application/json")];
     body := JSON_stringify (JObj [("script", JStr "FADE IN:")]) |}.

(** A script that is identical to the stored one reaches the server
    through the Save button: a click sends 'FADE IN:' as the script to
    store, and the server answers ok; the [script] prop is still the old
    script, so the Save button is enabled, right after the response and
    again after the timer and a click on Edit, and a click on it sends the
    same text once more. *)
Lemma unchanged_script_is_submitted_again :
  requests (snd (click_save None stale_props edited)) = [edit_request] ∧
  body edit_request ≫= script_of_body = Some "FADE IN:" ∧
  editedScript
    (fst (handleSave None stale_props (Response true (Some minor_response))
            edited))
    = "FADE IN:" ∧
  buttons
    (render stale_props
       (fst (handleSave None stale_props
               (Response true (Some minor_response)) edited)))
    = Some (CancelAndSave false false) ∧
  requests
    (snd (click_save None stale_props
            (fst (handleSave None stale_props
                    (Response true (Some minor_response)) edited))))
    = [edit_request] ∧
  buttons
    (render stale_props
       (handleEdit
          (fire (ExitEditing minor_response)
             (fst (handleSave None stale_props
                     (Response true (Some minor_response)) edited)))))
    = Some (CancelAndSave false false) ∧
  requests
    (snd (click_save None stale_props
            (handleEdit
               (fire (ExitEditing minor_response)
                  (fst (handleSave None stale_props
                          (Response true (Some minor_response)) edited))))))
    = [edit_request].
Proof. vm_compute. repeat split. Qed.

Lemma saved_text_waits_for_the_prop_witness :
  content
    (render
       {| script := Some "INT. ROOM"; status := JUndefined;
          projectId := "42" |}
       (fire (ExitEditing sample_response)
          (fst (handleSave None
                  {| script := Some "INT. ROOM"; status := JUndefined;
                     projectId := "42" |}
                  (Response true (Some sample_response))
                  {| isEditing := true; editedScript := "FADE IN:";
                     isSaving := false; saveStatus := None;
                     analysisResult := JNull |}))))
  = Pre "INT. ROOM".
Proof.
  assert (Hne : "INT. ROOM" ≠ EmptyString) by discriminate.
  destruct (saved_text_waits_for_the_prop None
              {| script := Some "INT. ROOM"; status := JUndefined;
                 projectId := "42" |}
              {| isEditing := true; editedScript := "FADE IN:";
                 isSaving := false; saveStatus := None;
                 analysisResult := JNull |}
              sample_response (JBool true) "INT. ROOM"
              eq_refl eq_refl Hne eq_refl) as (_ & _ & H & _).
  exact H.
Defined.

End ScriptView.

(* ===================================================================== *)
(** * hooks/useProjectStatus.js *)
(* ===================================================================== *)

Module ProjectStatus.
Import JS.

(** [WebSocket.readyState]. *)
Inductive ReadyState : Type := CONNECTING | OPEN | CLOSING | CLOSED.

#[global] Instance ReadyState_eq_dec : EqDecision ReadyState.
Proof. solve_decision. Defined.

(** A [WebSocket] the hook created: its URL, the [projectId] its handlers
    closed over, its ready state, and the messages sent on it so far. *)
Record Socket : Type := mkSocket {
  ws_url : string;
  ws_project : string;
  readyState : ReadyState;
  sent : list string
}.

(** An active [setInterval]: its period and the socket its callback
    pings. *)
Record Interval : Type := mkInterval {
  period : N;
  target : nat
}.

(** One instance of the hook together with what it shares with the page:
    the module-level [wsCache], the sockets (by identity), the hook's React
    state and refs, and the browser's pending timeouts and active
    intervals.  Timer identifiers are positive, as the browser's are. *)
Record Hook : Type := mkHook {
  wsCache : gmap string nat;
  sockets : gmap nat Socket;
  status : gmap string jsval;
  isConnected : bool;
  lastUpdate : nat;
  reconnectTimeoutRef : option positive;
  heartbeatIntervalRef : option positive;
  reconnectAttemptsRef : nat;
  timeouts : gmap positive N;
  intervals : gmap positive Interval;
  next_socket : nat;
  next_timer : positive
}.

Definition with_wsCache (c : gmap string nat) (h : Hook) : Hook :=
  {| wsCache := c; sockets := sockets h; status := status h;
     isConnected := isConnected h; lastUpdate := lastUpdate h;
     reconnectTimeoutRef := reconnectTimeoutRef h;
     heartbeatIntervalRef := heartbeatIntervalRef h;
     reconnectAttemptsRef := reconnectAttemptsRef h;
     timeouts := timeouts h; intervals := intervals h;
     next_socket := next_socket h; next_timer := next_timer h |}.

Definition with_sockets (s : gmap nat Socket) (h : Hook) : Hook :=
  {| wsCache := wsCache h; sockets := s; status := status h;
     isConnected := isConnected h; lastUpdate := lastUpdate h;
     reconnectTimeoutRef := reconnectTimeoutRef h;
     heartbeatIntervalRef := heartbeatIntervalRef h;
     reconnectAttemptsRef := reconnectAttemptsRef h;
     timeouts := timeouts h; intervals := intervals h;
     next_socket := next_socket h; next_timer := next_timer h |}.

Definition with_status (s : gmap string jsval) (h : Hook) : Hook :=
  {| wsCache := wsCache h; sockets := sockets h; status := s;
     isConnected := isConnected h; lastUpdate := lastUpdate h;
     reconnectTimeoutRef := reconnectTimeoutRef h;
     heartbeatIntervalRef := heartbeatIntervalRef h;
     reconnectAttemptsRef := reconnectAttemptsRef h;
     timeouts := timeouts h; intervals := intervals h;
     next_socket := next_socket h; next_timer := next_timer h |}.

Definition with_isConnected (b : bool) (h : Hook) : Hook :=
  {| wsCache := wsCache h; sockets := sockets h; status := status h;
     isConnected := b; lastUpdate := lastUpdate h;
     reconnectTimeoutRef := reconnectTimeoutRef h;
     heartbeatIntervalRef := heartbeatIntervalRef h;
     reconnectAttemptsRef := reconnectAttemptsRef h;
     timeouts := timeouts h; intervals := intervals h;
     next_socket := next_socket h; next_timer := next_timer h |}.

Definition with_lastUpdate (t : nat) (h : Hook) : Hook :=
  {| wsCache := wsCache h; sockets := sockets h; status := status h;
     isConnected := isConnected h; lastUpdate := t;
     reconnectTimeoutRef := reconnectTimeoutRef h;
     heartbeatIntervalRef := heartbeatIntervalRef h;
     reconnectAttemptsRef := reconnectAttemptsRef h;
     timeouts := timeouts h; intervals := intervals h;
     next_socket := next_socket h; next_timer := next_timer h |}.

Definition with_reconnectTimeoutRef (r : option positive) (h : Hook) : Hook :=
  {| wsCache := wsCache h; sockets := sockets h; status := status h;
     isConnected := isConnected h; lastUpdate := lastUpdate h;
     reconnectTimeoutRef := r;
     heartbeatIntervalRef := heartbeatIntervalRef h;
     reconnectAttemptsRef := reconnectAttemptsRef h;
     timeouts := timeouts h; intervals := intervals h;
     next_socket := next_socket h; next_timer := next_timer h |}.

Definition with_heartbeatIntervalRef (r : option positive) (h : Hook) : Hook :=
  {| wsCache := wsCache h; sockets := sockets h; status := status h;
     isConnected := isConnected h; lastUpdate := lastUpdate h;
     reconnectTimeoutRef := reconnectTimeoutRef h;
     heartbeatIntervalRef := r;
     reconnectAttemptsRef := reconnectAttemptsRef h;
     timeouts := timeouts h; intervals := intervals h;
     next_socket := next_socket h; next_timer := next_timer h |}.

Definition with_reconnectAttemptsRef (n : nat) (h : Hook) : Hook :=
  {| wsCache := wsCache h; sockets := sockets h; status := status h;
     isConnected := isConnected h; lastUpdate := lastUpdate h;
     reconnectTimeoutRef := reconnectTimeoutRef h;
     heartbeatIntervalRef := heartbeatIntervalRef h;
     reconnectAttemptsRef := n;
     timeouts := timeouts h; intervals := intervals h;
     next_socket := next_socket h; next_timer := next_timer h |}.

Definition with_timeouts (t : gmap positive N) (h : Hook) : Hook :=
  {| wsCache := wsCache h; sockets := sockets h; status := status h;
     isConnected := isConnected h; lastUpdate := lastUpdate h;
     reconnectTimeoutRef := reconnectTimeoutRef h;
     heartbeatIntervalRef := heartbeatIntervalRef h;
     reconnectAttemptsRef := reconnectAttemptsRef h;
     timeouts := t; intervals := intervals h;
     next_socket := next_socket h; next_timer := next_timer h |}.

Definition with_intervals (i : gmap positive Interval) (h : Hook) : Hook :=
  {| wsCache := wsCache h; sockets := sockets h; status := status h;
     isConnected := isConnected h; lastUpdate := lastUpdate h;
     reconnectTimeoutRef := reconnectTimeoutRef h;
     heartbeatIntervalRef := heartbeatIntervalRef h;
     reconnectAttemptsRef := reconnectAttemptsRef h;
     timeouts := timeouts h; intervals := i;
     next_socket := next_socket h; next_timer := next_timer h |}.

Definition with_next_socket (n : nat) (h : Hook) : Hook :=
  {| wsCache := wsCache h; sockets := sockets h; status := status h;
     isConnected := isConnected h; lastUpdate := lastUpdate h;
     reconnectTimeoutRef := reconnectTimeoutRef h;
     heartbeatIntervalRef := heartbeatIntervalRef h;
     reconnectAttemptsRef := reconnectAttemptsRef h;
     timeouts := timeouts h; intervals := intervals h;
     next_socket := n; next_timer := next_timer h |}.

Definition with_next_timer (t : positive) (h : Hook) : Hook :=
  {| wsCache := wsCache h; sockets := sockets h; status := status h;
     isConnected := isConnected h; lastUpdate := lastUpdate h;
     reconnectTimeoutRef := reconnectTimeoutRef h;
     heartbeatIntervalRef := heartbeatIntervalRef h;
     reconnectAttemptsRef := reconnectAttemptsRef h;
     timeouts := timeouts h; intervals := intervals h;
     next_socket := next_socket h; next_timer := t |}.

Definition MAX_RECONNECT_ATTEMPTS : nat := 10.

(** The ready state of a socket; an identity no socket has reads as
    [CLOSED]. *)
Definition ready_state_of (h : Hook) (ws : nat) : ReadyState :=
  match sockets h !! ws with
  | Some o => readyState o
  | None => CLOSED
  end.

(** The messages sent so far on a socket. *)
Definition sent_on (h : Hook) (ws : nat) : list string :=
  match sockets h !! ws with
  | Some o => sent o
  | None => []
  end.

Definition set_readyState (r : ReadyState) (o : Socket) : Socket :=
  {| ws_url := ws_url o; ws_project := ws_project o; readyState := r;
     sent := sent o |}.

(** [ws.send(message)]. *)
Definition send (message : string) (o : Socket) : Socket :=
  {| ws_url := ws_url o; ws_project := ws_project o;
     readyState := readyState o; sent := sent o ++ [message] |}.

(** [ws.close()]: a socket that is connecting or open starts closing. *)
Definition close (o : Socket) : Socket :=
  match readyState o with
  | CONNECTING | OPEN => set_readyState CLOSING o
  | CLOSING | CLOSED => o
  end.

(** [setInterval] and [setTimeout]: the browser hands out a fresh
    identifier. *)
Definition setInterval (i : Interval) (h : Hook) : Hook * positive :=
  (with_next_timer (Pos.succ (next_timer h))
     (with_intervals (<[next_timer h := i]> (intervals h)) h),
   next_timer h).

Definition setTimeout (ms : N) (h : Hook) : Hook * positive :=
  (with_next_timer (Pos.succ (next_timer h))
     (with_timeouts (<[next_timer h := ms]> (timeouts h)) h),
   next_timer h).

Definition clearInterval (t : positive) (h : Hook) : Hook :=
  with_intervals (delete t (intervals h)) h.

Definition clearTimeout (t : positive) (h : Hook) : Hook :=
  with_timeouts (delete t (timeouts h)) h.

(** The state [useState] starts from. *)
Definition initial_status : gmap string jsval :=
  {[ "script" := JObj [("status", JStr "pending"); ("message", JStr EmptyString)];
     "storyboard" := JObj [("status", JStr "pending"); ("message", JStr EmptyString)];
     "shot_list" := JObj [("status", JStr "pending"); ("message", JStr EmptyString)];
     "overall" := JStr "created";
     "error" := JNull ]}.

(** The hook as first rendered, on a freshly loaded page, at time [now]. *)
Definition initial (now : nat) : Hook :=
  {| wsCache := ∅; sockets := ∅; status := initial_status;
     isConnected := false; lastUpdate := now;
     reconnectTimeoutRef := None; heartbeatIntervalRef := None;
     reconnectAttemptsRef := 0;
     timeouts := ∅; intervals := ∅;
     next_socket := 0; next_timer := 1%positive |}.

(** What can happen to the hook: its effect runs for a [projectId] or is
    cleaned up; a socket's open, message, error or close event fires (the
    browser having set the ready state first); the browser starts closing
    a socket; a timer fires; or [reconnect()] is called. *)
Inductive Event : Type :=
| Effect (projectId : string)
| Cleanup
| WsOpen (ws : nat)
| WsMessage (ws : nat) (data : string) (now : nat)
| WsError (ws : nat)
| WsClosing (ws : nat)
| WsClose (ws : nat) (code : nat)
| HeartbeatTick (timer : positive)
| ReconnectTimer (timer : positive)
| Reconnect (projectId : string).

Section Hook.

Variable NEXT_PUBLIC_WS_URL : option string.

(** [JSON.parse]: [None] when it throws. *)
Variable JSON_parse : string -> option jsval.

Definition WS_URL : string := env_or NEXT_PUBLIC_WS_URL "ws://localhost:8000".

(** [new WebSocket(url)] for [projectId]. *)
Definition new_socket (projectId : string) : Socket :=
  {| ws_url := WS_URL +:+ "/ws/" +:+ projectId; ws_project := projectId;
     readyState := CONNECTING; sent := [] |}.

(** The condition under which the effect opens a new connection. *)
Definition needs_new_socket (h : Hook) (projectId : string) : bool :=
  match wsCache h !! projectId with
  | None => true
  | Some ws =>
      match ready_state_of h ws with
      | CLOSED | CLOSING => true
      | CONNECTING | OPEN => false
      end
  end.

(** The body of the effect. *)
Definition effect (projectId : string) (h : Hook) : Hook :=
  if negb (truthy (JStr projectId)) then h
  else if needs_new_socket h projectId then
    with_next_socket (S (next_socket h))
      (with_wsCache (<[projectId := next_socket h]> (wsCache h))
         (with_sockets
            (<[next_socket h := new_socket projectId]> (sockets h)) h))
  else
    match wsCache h !! projectId with
    | Some ws =>
        with_isConnected (bool_decide (ready_state_of h ws = OPEN)) h
    | None => h
    end.

(** The effect's cleanup: the timers only. *)
Definition cleanup (h : Hook) : Hook :=
  match reconnectTimeoutRef h with
  | Some t => with_reconnectTimeoutRef None (clearTimeout t h)
  | None => h
  end.

(** [ws.onopen]. *)
Definition onopen (ws : nat) (h : Hook) : Hook :=
  let h1 := with_reconnectAttemptsRef 0 (with_isConnected true h) in
  let h2 := match heartbeatIntervalRef h1 with
            | Some t => clearInterval t h1
            | None => h1
            end in
  let '(h3, t) := setInterval {| period := 30000%N; target := ws |} h2 in
  with_heartbeatIntervalRef (Some t) h3.

(** The heartbeat's callback, for the interval [i]. *)
Definition heartbeat (i : Interval) (h : Hook) : Hook :=
  match sockets h !! target i with
  | Some o =>
      if bool_decide (readyState o = OPEN)
      then with_sockets (<[target i := send "ping" o]> (sockets h)) h
      else h
  | None => h
  end.

(** [ws.onmessage] (the handler is the same in both branches of the
    effect). *)
Definition onmessage (data : string) (now : nat) (h : Hook) : Hook :=
  if String.eqb data "pong" then h
  else
    match JSON_parse data with
    | None => h
    | Some d =>
        match get_prop d "type" with
        | None => h
        | Some type =>
            let field k := default JUndefined (get_prop d k) in
            let h1 :=
              if is_str type "progress" then
                with_lastUpdate now
                  (with_status
                     (<[to_string (field "stage") :=
                          JObj [("status", field "status");
                                ("message",
                                 js_or (field "message") (JStr EmptyString))]]>
                        (status h)) h)
              else h in
            let h2 :=
              if is_str type "completed" then
                with_lastUpdate now
                  (with_status (<["overall" := JStr "completed"]> (status h1))
                     h1)
              else h1 in
            if is_str type "error" then
              with_lastUpdate now
                (with_status (<["error" := field "error"]> (status h2)) h2)
            else h2
        end
    end.

(** [ws.onerror]. *)
Definition onerror (h : Hook) : Hook := with_isConnected false h.

(** [ws.onclose], for a socket whose handlers closed over [projectId]. *)
Definition onclose (projectId : string) (h : Hook) : Hook :=
  let h1 := with_wsCache (delete projectId (wsCache h))
              (with_isConnected false h) in
  let h2 := match heartbeatIntervalRef h1 with
            | Some t => with_heartbeatIntervalRef None (clearInterval t h1)
            | None => h1
            end in
  if (reconnectAttemptsRef h2 <? MAX_RECONNECT_ATTEMPTS)%nat then
    let h3 := with_reconnectAttemptsRef (reconnectAttemptsRef h2 + 1) h2 in
    match reconnectTimeoutRef h3 with
    | None =>
        let '(h4, t) := setTimeout 5000%N h3 in
        with_reconnectTimeoutRef (Some t) h4
    | Some _ => h3
    end
  else h2.

(** The reconnect timer's callback. *)
Definition reconnect_timer (h : Hook) : Hook :=
  with_isConnected false (with_reconnectTimeoutRef None h).

(** [reconnect()]. *)
Definition reconnect (projectId : string) (h : Hook) : Hook :=
  with_isConnected false
    match wsCache h !! projectId with
    | Some ws =>
        with_wsCache (delete projectId (wsCache h))
          (with_sockets (alter close ws (sockets h)) h)
    | None => h
    end.

Definition step (h : Hook) (e : Event) : Hook :=
  match e with
  | Effect projectId => effect projectId h
  | Cleanup => cleanup h
  | WsOpen ws =>
      match sockets h !! ws with
      | Some o =>
          onopen ws
            (with_sockets (<[ws := set_readyState OPEN o]> (sockets h)) h)
      | None => h
      end
  | WsMessage ws data now =>
      match sockets h !! ws with
      | Some _ => onmessage data now h
      | None => h
      end
  | WsError ws =>
      match sockets h !! ws with
      | Some _ => onerror h
      | None => h
      end
  | WsClosing ws =>
      with_sockets (alter (set_readyState CLOSING) ws (sockets h)) h
  | WsClose ws code =>
      match sockets h !! ws with
      | Some o =>
          onclose (ws_project o)
            (with_sockets (<[ws := set_readyState CLOSED o]> (sockets h)) h)
      | None => h
      end
  | HeartbeatTick t =>
      match intervals h !! t with
      | Some i => heartbeat i h
      | None => h
      end
  | ReconnectTimer t =>
      match timeouts h !! t with
      | Some _ => reconnect_timer (clearTimeout t h)
      | None => h
      end
  | Reconnect projectId => reconnect projectId h
  end.

Definition run (h : Hook) (events : list Event) : Hook :=
  fold_left step events h.

(** The event makes the hook create a socket. *)
Definition creates_socket (h : Hook) (e : Event) : Prop :=
  next_socket (step h e) ≠ next_socket h.

(** The event makes the hook schedule a reconnect timer: a timeout is
    pending afterwards that was not pending before. *)
Definition schedules_reconnect (h : Hook) (e : Event) : bool :=
  negb (bool_decide (dom (timeouts (step h e)) ⊆ dom (timeouts h))).

(** How many reconnect timers a run of events schedules. *)
Fixpoint reconnects_scheduled (h : Hook) (events : list Event) : nat :=
  match events with
  | [] => 0
  | e :: rest =>
      ((if schedules_reconnect h e then 1 else 0)
       + reconnects_scheduled (step h e) rest)%nat
  end.

Definition is_open_event (e : Event) : bool :=
  match e with
  | WsOpen _ => true
  | _ => false
  end.

End Hook.

(** ** Messages *)

Lemma is_str_true v text : is_str v text = true → v = JStr text.
Proof.
  destruct v; cbn; try discriminate.
  intros H. by apply String.eqb_eq in H as ->.
Qed.

Section HookFacts.

Variable NEXT_PUBLIC_WS_URL : option string.
Variable JSON_parse : string -> option jsval.

Abbreviation step := (step NEXT_PUBLIC_WS_URL JSON_parse).
Abbreviation run := (run NEXT_PUBLIC_WS_URL JSON_parse).
Abbreviation onmessage := (onmessage JSON_parse).

(** A message touches nothing but [status] and [lastUpdate]. *)
Lemma onmessage_frame data now h :
  wsCache (onmessage data now h) = wsCache h ∧
  sockets (onmessage data now h) = sockets h ∧
  isConnected (onmessage data now h) = isConnected h ∧
  reconnectTimeoutRef (onmessage data now h) = reconnectTimeoutRef h ∧
  heartbeatIntervalRef (onmessage data now h) = heartbeatIntervalRef h ∧
  reconnectAttemptsRef (onmessage data now h) = reconnectAttemptsRef h ∧
  timeouts (onmessage data now h) = timeouts h ∧
  intervals (onmessage data now h) = intervals h ∧
  next_socket (onmessage data now h) = next_socket h ∧
  next_timer (onmessage data now h) = next_timer h.
Proof.
  unfold ProjectStatus.onmessage.
  destruct (String.eqb data "pong"); [done|].
  destruct (JSON_parse data) as [d|]; [|done].
  destruct (get_prop d "type") as [type|]; [|done].
  by destruct (is_str type "progress"), (is_str type "completed"),
       (is_str type "error").
Qed.

Lemma onmessage_progress data now h d :
  String.eqb data "pong" = false →
  JSON_parse data = Some d →
  get_prop d "type" = Some (JStr "progress") →
  onmessage data now h =
    with_lastUpdate now
      (with_status
         (<[to_string (default JUndefined (get_prop d "stage")) :=
              JObj [("status", default JUndefined (get_prop d "status"));
                    ("message",
                     js_or (default JUndefined (get_prop d "message"))
                       (JStr EmptyString))]]> (status h)) h).
Proof.
  intros Hp Hd Ht. unfold ProjectStatus.onmessage. by rewrite Hp, Hd, Ht.
Qed.

Lemma onmessage_completed data now h d :
  String.eqb data "pong" = false →
  JSON_parse data = Some d →
  get_prop d "type" = Some (JStr "completed") →
  onmessage data now h =
    with_lastUpdate now
      (with_status (<["overall" := JStr "completed"]> (status h)) h).
Proof.
  intros Hp Hd Ht. unfold ProjectStatus.onmessage. by rewrite Hp, Hd, Ht.
Qed.

Lemma onmessage_error data now h d :
  String.eqb data "pong" = false →
  JSON_parse data = Some d →
  get_prop d "type" = Some (JStr "error") →
  onmessage data now h =
    with_lastUpdate now
      (with_status
         (<["error" := default JUndefined (get_prop d "error")]> (status h))
         h).
Proof.
  intros Hp Hd Ht. unfold ProjectStatus.onmessage. by rewrite Hp, Hd, Ht.
Qed.

Lemma onmessage_ignored data now h :
  (data = "pong" ∨ JSON_parse data = None ∨
   ∃ d, JSON_parse data = Some d ∧
        ∀ type, get_prop d "type" = Some type →
          is_str type "progress" = false ∧
          is_str type "completed" = false ∧
          is_str type "error" = false) →
  onmessage data now h = h.
Proof.
  unfold ProjectStatus.onmessage. intros [->|[Hn|(d & Hd & Ht)]]; [done| |].
  - rewrite Hn. by destruct (String.eqb data "pong").
  - rewrite Hd. destruct (String.eqb data "pong"); [done|].
    destruct (get_prop d "type") as [type|]; [|done].
    by destruct (Ht type eq_refl) as (-> & -> & ->).
Qed.

(** C8: a message changes nothing of the hook but [status] and
    [lastUpdate], and of [status] only the field it addresses: a
    [progress] message sets the entry under its stage's key to the
    message's status and message and leaves every other key as it was (for
    one of the three stages: the other two stages, [overall] and [error]);
    a [completed] message sets [overall] to ['completed'] and leaves every
    other key; an [error] message sets [error] and leaves every other key;
    a ['pong'], a text that does not parse, and a message of any other
    type leave the whole hook unchanged. *)
Theorem message_updates_only_its_field
    (h : Hook) (ws : nat) (data : string) (now : nat) :
  (wsCache (step h (WsMessage ws data now)) = wsCache h ∧
   sockets (step h (WsMessage ws data now)) = sockets h ∧
   isConnected (step h (WsMessage ws data now)) = isConnected h ∧
   reconnectTimeoutRef (step h (WsMessage ws data now))
     = reconnectTimeoutRef h ∧
   heartbeatIntervalRef (step h (WsMessage ws data now))
     = heartbeatIntervalRef h ∧
   reconnectAttemptsRef (step h (WsMessage ws data now))
     = reconnectAttemptsRef h ∧
   timeouts (step h (WsMessage ws data now)) = timeouts h ∧
   intervals (step h (WsMessage ws data now)) = intervals h) ∧
  (data = "pong" ∨ JSON_parse data = None ∨
   (∃ d, JSON_parse data = Some d ∧
         ∀ type, get_prop d "type" = Some type →
           is_str type "progress" = false ∧
           is_str type "completed" = false ∧
           is_str type "error" = false) →
   step h (WsMessage ws data now) = h) ∧
  (∀ d, is_Some (sockets h !! ws) → data ≠ "pong" →
     JSON_parse data = Some d →
     (get_prop d "type" = Some (JStr "progress") →
        status (step h (WsMessage ws data now))
          = <[to_string (default JUndefined (get_prop d "stage")) :=
                JObj [("status", default JUndefined (get_prop d "status"));
                      ("message",
                       js_or (default JUndefined (get_prop d "message"))
                         (JStr EmptyString))]]> (status h) ∧
        (∀ k, k ≠ to_string (default JUndefined (get_prop d "stage")) →
              status (step h (WsMessage ws data now)) !! k = status h !! k) ∧
        (∀ s, get_prop d "stage" = Some (JStr s) →
              s ∈ ["script"; "storyboard"; "shot_list"] →
              status (step h (WsMessage ws data now)) !! "overall"
                = status h !! "overall" ∧
              status (step h (WsMessage ws data now)) !! "error"
                = status h !! "error" ∧
              ∀ s', s' ∈ ["script"; "storyboard"; "shot_list"] → s' ≠ s →
                    status (step h (WsMessage ws data now)) !! s'
                      = status h !! s')) ∧
     (get_prop d "type" = Some (JStr "completed") →
        status (step h (WsMessage ws data now))
          = <["overall" := JStr "completed"]> (status h) ∧
        ∀ k, k ≠ "overall" →
             status (step h (WsMessage ws data now)) !! k = status h !! k) ∧
     (get_prop d "type" = Some (JStr "error") →
        status (step h (WsMessage ws data now))
          = <["error" := default JUndefined (get_prop d "error")]> (status h) ∧
        ∀ k, k ≠ "error" →
             status (step h (WsMessage ws data now)) !! k = status h !! k)).
Proof.
  split; [|split].
  - cbn. destruct (sockets h !! ws); [|done].
    destruct (onmessage_frame data now h) as (?&?&?&?&?&?&?&?&?&?).
    repeat split; done.
  - intros Hcase. cbn. destruct (sockets h !! ws); [|done].
    by apply onmessage_ignored.
  - intros d [o Ho] Hpong Hd. cbn. rewrite Ho.
    assert (Hp : String.eqb data "pong" = false)
      by (by apply String.eqb_neq).
    split; [|split]; intros Ht.
    + rewrite (onmessage_progress data now h d Hp Hd Ht). cbn.
      split; [done|]. split.
      * intros k Hk. by rewrite lookup_insert_ne.
      * intros s Hs Hin. rewrite Hs. cbn.
        assert (Hstage : s = "script" ∨ s = "storyboard" ∨ s = "shot_list").
        { apply elem_of_cons in Hin as [->|Hin]; [by left|].
          apply elem_of_cons in Hin as [->|Hin]; [by right; left|].
          apply list_elem_of_singleton in Hin as ->. by right; right. }
        split; [|split].
        -- rewrite lookup_insert_ne; [done|].
           by destruct Hstage as [->|[->| ->]].
        -- rewrite lookup_insert_ne; [done|].
           by destruct Hstage as [->|[->| ->]].
        -- intros s' _ Hne. by rewrite lookup_insert_ne.
    + rewrite (onmessage_completed data now h d Hp Hd Ht). cbn.
      split; [done|]. intros k Hk. by rewrite lookup_insert_ne.
    + rewrite (onmessage_error data now h d Hp Hd Ht). cbn.
      split; [done|]. intros k Hk. by rewrite lookup_insert_ne.
Qed.

(** ** The connection cache *)

Lemma truthy_str s : truthy (JStr s) = true ↔ s ≠ EmptyString.
Proof.
  cbn. destruct (String.eqb_spec s EmptyString) as [->|Hne]; cbn.
  - split; [discriminate | by intros []].
  - done.
Qed.

Lemma needs_new_socket_spec h p :
  needs_new_socket h p = true ↔
  wsCache h !! p = None ∨
  ∃ ws, wsCache h !! p = Some ws ∧
        (ready_state_of h ws = CLOSED ∨ ready_state_of h ws = CLOSING).
Proof.
  unfold needs_new_socket. destruct (wsCache h !! p) as [ws|].
  - destruct (ready_state_of h ws) eqn:Hr; split; try done.
    + intros [H|(ws' & H & Hs)]; [discriminate|].
      injection H as <-. destruct Hs; congruence.
    + intros [H|(ws' & H & Hs)]; [discriminate|].
      injection H as <-. destruct Hs; congruence.
    + intros _. right. exists ws. auto.
    + intros _. right. exists ws. auto.
  - split; [by left | done].
Qed.

(** The handlers, field by field. *)
Lemma onopen_eq ws h :
  onopen ws h =
    {| wsCache := wsCache h; sockets := sockets h; status := status h;
       isConnected := true; lastUpdate := lastUpdate h;
       reconnectTimeoutRef := reconnectTimeoutRef h;
       heartbeatIntervalRef := Some (next_timer h);
       reconnectAttemptsRef := 0;
       timeouts := timeouts h;
       intervals :=
         <[next_timer h := {| period := 30000; target := ws |}]>
           (match heartbeatIntervalRef h with
            | Some t => delete t (intervals h)
            | None => intervals h
            end);
       next_socket := next_socket h;
       next_timer := Pos.succ (next_timer h) |}.
Proof. unfold onopen. cbn. by destruct (heartbeatIntervalRef h). Qed.

Lemma onclose_eq p h :
  onclose p h =
    {| wsCache := delete p (wsCache h); sockets := sockets h;
       status := status h; isConnected := false;
       lastUpdate := lastUpdate h;
       reconnectTimeoutRef :=
         if (reconnectAttemptsRef h <? MAX_RECONNECT_ATTEMPTS)%nat
         then Some (default (next_timer h) (reconnectTimeoutRef h))
         else reconnectTimeoutRef h;
       heartbeatIntervalRef := None;
       reconnectAttemptsRef :=
         if (reconnectAttemptsRef h <? MAX_RECONNECT_ATTEMPTS)%nat
         then (reconnectAttemptsRef h + 1)%nat else reconnectAttemptsRef h;
       timeouts :=
         if (reconnectAttemptsRef h <? MAX_RECONNECT_ATTEMPTS)%nat
         then match reconnectTimeoutRef h with
              | None => <[next_timer h := 5000%N]> (timeouts h)
              | Some _ => timeouts h
              end
         else timeouts h;
       intervals :=
         match heartbeatIntervalRef h with
         | Some t => delete t (intervals h)
         | None => intervals h
         end;
       next_socket := next_socket h;
       next_timer :=
         if (reconnectAttemptsRef h <? MAX_RECONNECT_ATTEMPTS)%nat
         then match reconnectTimeoutRef h with
              | None => Pos.succ (next_timer h)
              | Some _ => next_timer h
              end
         else next_timer h |}.
Proof.
  destruct h as [c so st ic lu rt hb ra to iv ns nt].
  unfold onclose. cbn -[Nat.ltb MAX_RECONNECT_ATTEMPTS].
  destruct hb, rt; cbn -[Nat.ltb MAX_RECONNECT_ATTEMPTS];
    destruct (ra <? MAX_RECONNECT_ATTEMPTS)%nat; reflexivity.
Qed.

Lemma effect_eq p h :
  effect NEXT_PUBLIC_WS_URL p h =
    if truthy (JStr p) then
      if needs_new_socket h p then
        {| wsCache := <[p := next_socket h]> (wsCache h);
           sockets :=
             <[next_socket h := new_socket NEXT_PUBLIC_WS_URL p]> (sockets h);
           status := status h; isConnected := isConnected h;
           lastUpdate := lastUpdate h;
           reconnectTimeoutRef := reconnectTimeoutRef h;
           heartbeatIntervalRef := heartbeatIntervalRef h;
           reconnectAttemptsRef := reconnectAttemptsRef h;
           timeouts := timeouts h; intervals := intervals h;
           next_socket := S (next_socket h); next_timer := next_timer h |}
      else
        with_isConnected
          (match wsCache h !! p with
           | Some ws => bool_decide (ready_state_of h ws = OPEN)
           | None => isConnected h
           end) h
    else h.
Proof.
  unfold effect. destruct (truthy (JStr p)); cbn [negb]; [|done].
  destruct (needs_new_socket h p); [done|].
  destruct (wsCache h !! p); [done|]. by destruct h.
Qed.

Lemma cleanup_eq h :
  cleanup h =
    with_reconnectTimeoutRef None
      (with_timeouts
         (match reconnectTimeoutRef h with
          | Some t => delete t (timeouts h)
          | None => timeouts h
          end) h).
Proof.
  unfold cleanup. destruct h as [c so st ic lu rt hb ra to iv ns nt].
  by destruct rt.
Qed.

Lemma heartbeat_eq i h :
  heartbeat i h =
    with_sockets
      (match sockets h !! target i with
       | Some o =>
           if bool_decide (readyState o = OPEN)
           then <[target i := send "ping" o]> (sockets h) else sockets h
       | None => sockets h
       end) h.
Proof.
  unfold heartbeat. destruct h as [c so st ic lu rt hb ra to iv ns nt]. cbn.
  destruct (so !! target i) as [o|]; [|done].
  by destruct (bool_decide (readyState o = OPEN)).
Qed.

Lemma reconnect_eq p h :
  reconnect p h =
    with_isConnected false
      (with_wsCache (delete p (wsCache h))
         (with_sockets
            (match wsCache h !! p with
             | Some ws => alter close ws (sockets h)
             | None => sockets h
             end) h)).
Proof.
  unfold reconnect. destruct (wsCache h !! p) eqn:Hp; [done|].
  destruct h as [c so st ic lu rt hb ra to iv ns nt]. cbn in *.
  by rewrite (delete_id c p Hp).
Qed.

(** Case analysis on the event of a [step], each handler replaced by its
    field-by-field form. *)
Ltac event_cases :=
  lazymatch goal with
  | |- context [ProjectStatus.step _ _ ?h ?e] =>
      destruct e; cbn [ProjectStatus.step];
      rewrite ?effect_eq, ?cleanup_eq, ?reconnect_eq;
      repeat first
        [ progress rewrite ?onopen_eq, ?onclose_eq, ?heartbeat_eq
        | lazymatch goal with
          | |- context [ProjectStatus.onmessage _ ?d ?n h] =>
              destruct (onmessage_frame d n h) as (?&?&?&?&?&?&?&?&?&?);
              generalize dependent (ProjectStatus.onmessage JSON_parse d n h);
              intros
          | |- context [match sockets h !! ?k with _ => _ end] =>
              destruct (sockets h !! k)
          | |- context [match intervals h !! ?k with _ => _ end] =>
              destruct (intervals h !! k)
          | |- context [match timeouts h !! ?k with _ => _ end] =>
              destruct (timeouts h !! k)
          | |- context [if truthy ?v then _ else _] => destruct (truthy v)
          | |- context [if needs_new_socket h ?p then _ else _] =>
              destruct (needs_new_socket h p)
          end ];
      try done
  end.

(** Only the effect creates a socket. *)
Lemma next_socket_step h e :
  next_socket (step h e) =
    match e with
    | Effect p =>
        if truthy (JStr p) && needs_new_socket h p
        then S (next_socket h) else next_socket h
    | _ => next_socket h
    end.
Proof. event_cases. Qed.

(** What an event does to the cache. *)
Lemma wsCache_step h e :
  wsCache (step h e) =
    match e with
    | Effect p =>
        if truthy (JStr p) && needs_new_socket h p
        then <[p := next_socket h]> (wsCache h) else wsCache h
    | WsClose ws code =>
        match sockets h !! ws with
        | Some o => delete (ws_project o) (wsCache h)
        | None => wsCache h
        end
    | Reconnect p => delete p (wsCache h)
    | _ => wsCache h
    end.
Proof. event_cases. Qed.

(** What an event does to the sockets. *)
Lemma sockets_step h e :
  sockets (step h e) =
    match e with
    | Effect p =>
        if truthy (JStr p) && needs_new_socket h p
        then <[next_socket h := new_socket NEXT_PUBLIC_WS_URL p]> (sockets h)
        else sockets h
    | WsOpen ws =>
        match sockets h !! ws with
        | Some o => <[ws := set_readyState OPEN o]> (sockets h)
        | None => sockets h
        end
    | WsClosing ws => alter (set_readyState CLOSING) ws (sockets h)
    | WsClose ws code =>
        match sockets h !! ws with
        | Some o => <[ws := set_readyState CLOSED o]> (sockets h)
        | None => sockets h
        end
    | HeartbeatTick t =>
        match intervals h !! t with
        | Some i =>
            match sockets h !! target i with
            | Some o =>
                if bool_decide (readyState o = OPEN)
                then <[target i := send "ping" o]> (sockets h)
                else sockets h
            | None => sockets h
            end
        | None => sockets h
        end
    | Reconnect p =>
        match wsCache h !! p with
        | Some ws => alter close ws (sockets h)
        | None => sockets h
        end
    | _ => sockets h
    end.
Proof. event_cases. Qed.

(** Every socket was handed out by the hook, and every cache entry holds a
    socket created for its project id. *)
Definition well_formed (h : Hook) : Prop :=
  (∀ ws o, sockets h !! ws = Some o → (ws < next_socket h)%nat) ∧
  (∀ p ws, wsCache h !! p = Some ws →
           ∃ o, sockets h !! ws = Some o ∧ ws_project o = p).

Lemma well_formed_initial now : well_formed (initial now).
Proof. split; intros ? ? H; cbn in H; by rewrite lookup_empty in H. Qed.

Lemma well_formed_step h e : well_formed h → well_formed (step h e).
Proof.
  intros [Hs Hc]. unfold well_formed.
  rewrite next_socket_step, wsCache_step, sockets_step.
  destruct e as [p| |ws|ws data now|ws|ws|ws code|t|t|p]; try done.
  - destruct (truthy (JStr p) && needs_new_socket h p); [|done]. split.
    + intros ws o Ho. destruct (decide (ws = next_socket h)) as [->|Hne];
        [lia|].
      rewrite lookup_insert_ne in Ho by done. apply Hs in Ho. lia.
    + intros q ws Hq. destruct (decide (q = p)) as [->|Hne].
      * rewrite lookup_insert_eq in Hq. injection Hq as <-.
        rewrite lookup_insert_eq. by eexists.
      * rewrite lookup_insert_ne in Hq by done.
        destruct (Hc q ws Hq) as (o & Ho & Hp). exists o. split; [|done].
        rewrite lookup_insert_ne; [done|]. apply Hs in Ho. lia.
  - destruct (sockets h !! ws) as [o|] eqn:Ho; [|done]. split.
    + intros ws' o' Ho'. destruct (decide (ws' = ws)) as [->|Hne].
      * by eapply Hs.
      * rewrite lookup_insert_ne in Ho' by done. by eapply Hs.
    + intros q ws' Hq. destruct (Hc q ws' Hq) as (o' & Ho' & Hp).
      destruct (decide (ws' = ws)) as [->|Hne].
      * rewrite lookup_insert_eq. eexists. split; [done|]. cbn. congruence.
      * rewrite lookup_insert_ne by done. by exists o'.
  - split.
    + intros ws' o' Ho'. apply lookup_alter_Some in Ho'
        as [(_ & o & Ho & _)|[_ Ho]]; by eapply Hs.
    + intros q ws' Hq. destruct (Hc q ws' Hq) as (o' & Ho' & Hp).
      destruct (decide (ws' = ws)) as [->|Hne].
      * exists (set_readyState CLOSING o'). split; [|done].
        by rewrite lookup_alter_eq, Ho'.
      * exists o'. by rewrite lookup_alter_ne.
  - destruct (sockets h !! ws) as [o|] eqn:Ho; [|done]. split.
    + intros ws' o' Ho'. destruct (decide (ws' = ws)) as [->|Hne].
      * by eapply Hs.
      * rewrite lookup_insert_ne in Ho' by done. by eapply Hs.
    + intros q ws' Hq. apply lookup_delete_Some in Hq as [Hne Hq].
      destruct (Hc q ws' Hq) as (o' & Ho' & Hp).
      destruct (decide (ws' = ws)) as [->|Hne'].
      * rewrite lookup_insert_eq. eexists. split; [done|]. cbn. congruence.
      * rewrite lookup_insert_ne by done. by exists o'.
  - destruct (intervals h !! t) as [i|]; [|done].
    destruct (sockets h !! target i) as [o|] eqn:Ho; [|done].
    destruct (bool_decide (readyState o = OPEN)); [|done]. split.
    + intros ws' o' Ho'. destruct (decide (ws' = target i)) as [->|Hne].
      * by eapply Hs.
      * rewrite lookup_insert_ne in Ho' by done. by eapply Hs.
    + intros q ws' Hq. destruct (Hc q ws' Hq) as (o' & Ho' & Hp).
      destruct (decide (ws' = target i)) as [->|Hne].
      * rewrite lookup_insert_eq. eexists. split; [done|]. cbn. congruence.
      * rewrite lookup_insert_ne by done. by exists o'.
  - split.
    + intros ws' o' Ho'. destruct (wsCache h !! p) as [ws|]; [|by eapply Hs].
      apply lookup_alter_Some in Ho' as [(_ & o & Ho & _)|[_ Ho]];
        by eapply Hs.
    + intros q ws' Hq. apply lookup_delete_Some in Hq as [Hne Hq].
      destruct (Hc q ws' Hq) as (o' & Ho' & Hp).
      destruct (wsCache h !! p) as [ws|]; [|by exists o'].
      destruct (decide (ws' = ws)) as [->|Hne'].
      * exists (close o'). split; [by rewrite lookup_alter_eq, Ho'|].
        unfold close. by destruct (readyState o').
      * exists o'. by rewrite lookup_alter_ne.
Qed.

Lemma well_formed_run events : ∀ h, well_formed h → well_formed (run h events).
Proof.
  induction events as [|e events IH]; intros h Hwf; [done|].
  cbn. apply IH. by apply well_formed_step.
Qed.

(** C6: the cache is a map from project ids, so it holds at most one socket
    per id, and for any state of the hook and any event: (1) the hook
    creates a socket exactly when its effect runs for a project id with
    no cached socket or with a cached socket that is CLOSED or CLOSING,
    and then caches the new, CONNECTING socket under that id; (2) the
    effect leaves the entries of all other ids alone, and with a cached
    socket that is CONNECTING or OPEN it leaves cache and sockets as they
    are; (3) the effect's cleanup changes neither the cache nor any socket;
    (4) an id's entry is removed exactly by the close event of a socket
    created for that id, be it the socket the entry holds or an earlier
    one, and by a manual reconnect for that id; (5) along
    every run of the hook each cache entry holds a socket the hook created
    for that entry's id. *)
Theorem connection_cache_discipline (h : Hook) (e : Event) :
  (creates_socket NEXT_PUBLIC_WS_URL JSON_parse h e ↔
   ∃ p, e = Effect p ∧ p ≠ EmptyString ∧
        (wsCache h !! p = None ∨
         ∃ ws, wsCache h !! p = Some ws ∧
               (ready_state_of h ws = CLOSED ∨
                ready_state_of h ws = CLOSING))) ∧
  (creates_socket NEXT_PUBLIC_WS_URL JSON_parse h e →
   ∃ p, e = Effect p ∧
        next_socket (step h e) = S (next_socket h) ∧
        wsCache (step h e) !! p = Some (next_socket h) ∧
        sockets (step h e) !! next_socket h
          = Some {| ws_url := WS_URL NEXT_PUBLIC_WS_URL +:+ "/ws/" +:+ p;
                    ws_project := p; readyState := CONNECTING;
                    sent := [] |}) ∧
  (∀ p q, e = Effect p → q ≠ p →
          wsCache (step h e) !! q = wsCache h !! q) ∧
  (∀ p ws, e = Effect p → wsCache h !! p = Some ws →
           ready_state_of h ws = CONNECTING ∨ ready_state_of h ws = OPEN →
           wsCache (step h e) = wsCache h ∧ sockets (step h e) = sockets h) ∧
  (e = Cleanup →
   wsCache (step h e) = wsCache h ∧ sockets (step h e) = sockets h) ∧
  (∀ p ws, wsCache h !! p = Some ws →
     (wsCache (step h e) !! p = None ↔
      e = Reconnect p ∨
      ∃ ws' code o, e = WsClose ws' code ∧ sockets h !! ws' = Some o ∧
                    ws_project o = p)) ∧
  (∀ now events p ws,
     wsCache (run (initial now) events) !! p = Some ws →
     ∃ o, sockets (run (initial now) events) !! ws = Some o ∧
          ws_project o = p).
Proof.
  split; [|split; [|split; [|split; [|split; [|split]]]]];
    [| | | | | |intros now events;
                apply (well_formed_run events), well_formed_initial].
  all: unfold creates_socket;
    rewrite ?next_socket_step, ?wsCache_step, ?sockets_step.
  - split.
    + destruct e as [p| |ws|ws data now|ws|ws|ws code|t|t|p]; try done.
      destruct (truthy (JStr p)) eqn:Ht; cbn [andb]; [|done].
      destruct (needs_new_socket h p) eqn:Hn; [|done]. intros _.
      exists p. split; [done|]. split; [by apply truthy_str|].
      by apply needs_new_socket_spec.
    + intros (p & -> & Hp & Hn).
      apply truthy_str in Hp. apply needs_new_socket_spec in Hn.
      rewrite Hp, Hn. cbn. lia.
  - destruct e as [p| |ws|ws data now|ws|ws|ws code|t|t|p]; try done.
    destruct (truthy (JStr p) && needs_new_socket h p); [|done].
    intros _. exists p. by rewrite !lookup_insert_eq.
  - intros p q -> Hq.
    destruct (truthy (JStr p) && needs_new_socket h p); [|done].
    by rewrite lookup_insert_ne.
  - intros p ws -> Hc Hr.
    assert (Hn : needs_new_socket h p = false).
    { unfold needs_new_socket. rewrite Hc. by destruct Hr as [-> | ->]. }
    rewrite Hn, andb_false_r. done.
  - by intros ->.
  - intros p ws Hc. split.
    + destruct e as [q| |ws'|ws' data now|ws'|ws'|ws' code|t|t|q];
        try (intros H; congruence).
      * destruct (truthy (JStr q) && needs_new_socket h q);
          [|intros H; congruence].
        destruct (decide (q = p)) as [->|Hne].
        -- rewrite lookup_insert_eq. discriminate.
        -- rewrite lookup_insert_ne by done. congruence.
      * destruct (sockets h !! ws') as [o|] eqn:Ho; [|intros H; congruence].
        destruct (decide (ws_project o = p)) as [Heq|Hne].
        -- intros _. right. by exists ws', code, o.
        -- rewrite lookup_delete_ne by done. congruence.
      * destruct (decide (q = p)) as [->|Hne]; [by left|].
        rewrite lookup_delete_ne by done. congruence.
    + intros [->|(ws' & code & o & -> & Ho & <-)].
      * by rewrite lookup_delete_eq.
      * rewrite Ho. by rewrite lookup_delete_eq.
Qed.

(** ** The heartbeat *)

(** What an event does to the active intervals and to the heartbeat ref. *)
Lemma intervals_step h e :
  intervals (step h e) =
    match e with
    | WsOpen ws =>
        match sockets h !! ws with
        | Some _ =>
            <[next_timer h := {| period := 30000; target := ws |}]>
              (match heartbeatIntervalRef h with
               | Some t => delete t (intervals h)
               | None => intervals h
               end)
        | None => intervals h
        end
    | WsClose ws code =>
        match sockets h !! ws with
        | Some _ =>
            match heartbeatIntervalRef h with
            | Some t => delete t (intervals h)
            | None => intervals h
            end
        | None => intervals h
        end
    | _ => intervals h
    end.
Proof. event_cases. Qed.









(** ** Reconnection *)

(** What an event does to the pending timeouts, to the reconnect ref and to
    the attempt counter. *)
Lemma timeouts_step h e :
  timeouts (step h e) =
    match e with
    | Cleanup =>
        match reconnectTimeoutRef h with
        | Some t => delete t (timeouts h)
        | None => timeouts h
        end
    | WsClose ws code =>
        match sockets h !! ws with
        | Some _ =>
            if (reconnectAttemptsRef h <? MAX_RECONNECT_ATTEMPTS)%nat
            then match reconnectTimeoutRef h with
                 | None => <[next_timer h := 5000%N]> (timeouts h)
                 | Some _ => timeouts h
                 end
            else timeouts h
        | None => timeouts h
        end
    | ReconnectTimer t =>
        match timeouts h !! t with
        | Some _ => delete t (timeouts h)
        | None => timeouts h
        end
    | _ => timeouts h
    end.
Proof. event_cases. Qed.

Lemma reconnectTimeoutRef_step h e :
  reconnectTimeoutRef (step h e) =
    match e with
    | Cleanup => None
    | WsClose ws code =>
        match sockets h !! ws with
        | Some _ =>
            if (reconnectAttemptsRef h <? MAX_RECONNECT_ATTEMPTS)%nat
            then Some (default (next_timer h) (reconnectTimeoutRef h))
            else reconnectTimeoutRef h
        | None => reconnectTimeoutRef h
        end
    | ReconnectTimer t =>
        match timeouts h !! t with
        | Some _ => None
        | None => reconnectTimeoutRef h
        end
    | _ => reconnectTimeoutRef h
    end.
Proof. event_cases. Qed.

Lemma reconnectAttemptsRef_step h e :
  reconnectAttemptsRef (step h e) =
    match e with
    | WsOpen ws =>
        match sockets h !! ws with
        | Some _ => 0%nat
        | None => reconnectAttemptsRef h
        end
    | WsClose ws code =>
        match sockets h !! ws with
        | Some _ =>
            if (reconnectAttemptsRef h <? MAX_RECONNECT_ATTEMPTS)%nat
            then (reconnectAttemptsRef h + 1)%nat
            else reconnectAttemptsRef h
        | None => reconnectAttemptsRef h
        end
    | _ => reconnectAttemptsRef h
    end.
Proof. event_cases. Qed.

(** The pending timeouts are the one the reconnect ref holds, if any, with
    a delay of 5000 ms; and the attempt counter is at most 10. *)
Definition timers_ok (h : Hook) : Prop :=
  timeouts h = match reconnectTimeoutRef h with
               | Some t => {[ t := 5000%N ]}
               | None => ∅
               end ∧
  (reconnectAttemptsRef h ≤ MAX_RECONNECT_ATTEMPTS)%nat.

Lemma timers_ok_initial now : timers_ok (initial now).
Proof. split; cbn; [done | unfold MAX_RECONNECT_ATTEMPTS; lia]. Qed.

Lemma timers_ok_step h e : timers_ok h → timers_ok (step h e).
Proof.
  intros [Ht Ha]. unfold timers_ok.
  rewrite timeouts_step, reconnectTimeoutRef_step, reconnectAttemptsRef_step.
  destruct e as [p| |ws|ws data now|ws|ws|ws code|t|t|p]; try done.
  - split; [|done]. rewrite Ht.
    destruct (reconnectTimeoutRef h) as [t|]; [|done].
    apply delete_singleton_eq.
  - destruct (sockets h !! ws); [|done]. split; [done|lia].
  - destruct (sockets h !! ws); [|done].
    destruct (reconnectAttemptsRef h <? MAX_RECONNECT_ATTEMPTS)%nat eqn:Hlt;
      [|done].
    apply Nat.ltb_lt in Hlt. split; [|lia]. rewrite Ht.
    by destruct (reconnectTimeoutRef h) as [t|].
  - destruct (timeouts h !! t) as [ms|] eqn:Hlook; [|done].
    split; [|done]. rewrite Ht in Hlook |- *.
    destruct (reconnectTimeoutRef h) as [t0|].
    + apply lookup_singleton_Some in Hlook as [-> _].
      apply delete_singleton_eq.
    + by rewrite lookup_empty in Hlook.
Qed.

Lemma timers_ok_run events : ∀ h, timers_ok h → timers_ok (run h events).
Proof.
  induction events as [|e events IH]; intros h Hok; [done|].
  cbn. apply IH. by apply timers_ok_step.
Qed.

(** An event schedules a reconnect timer only as the close event of a
    socket, with fewer than 10 attempts made and no timer pending; the
    timer then waits 5000 ms and the counter goes up by one. *)
Lemma schedules_reconnect_spec h e :
  timers_ok h →
  schedules_reconnect NEXT_PUBLIC_WS_URL JSON_parse h e = true →
  (∃ ws code o, e = WsClose ws code ∧ sockets h !! ws = Some o) ∧
  (reconnectAttemptsRef h < MAX_RECONNECT_ATTEMPTS)%nat ∧
  reconnectTimeoutRef h = None ∧
  timeouts (step h e) = {[ next_timer h := 5000%N ]} ∧
  reconnectAttemptsRef (step h e) = (reconnectAttemptsRef h + 1)%nat.
Proof.
  intros [Ht Ha]. unfold schedules_reconnect.
  rewrite negb_true_iff, bool_decide_eq_false.
  rewrite timeouts_step, reconnectAttemptsRef_step.
  destruct e as [p| |ws|ws data now|ws|ws|ws code|t|t|p];
    try (intros []; done).
  - intros []. destruct (reconnectTimeoutRef h); [|done].
    apply subseteq_dom, delete_subseteq.
  - destruct (sockets h !! ws) as [o|] eqn:Ho; [|intros []; done].
    destruct (reconnectAttemptsRef h <? MAX_RECONNECT_ATTEMPTS)%nat eqn:Hlt;
      [|intros []; done].
    apply Nat.ltb_lt in Hlt.
    destruct (reconnectTimeoutRef h) as [t|]; [intros []; done|].
    intros _. split; [by exists ws, code, o|]. split; [done|].
    split; [done|]. split; [|done]. rewrite Ht. apply insert_empty.
  - intros []. destruct (timeouts h !! t); [|done].
    apply subseteq_dom, delete_subseteq.
Qed.

(** Without an open event the attempt counter never goes down, and it goes
    up with every reconnect timer scheduled. *)
Lemma reconnects_scheduled_bound events : ∀ h,
  timers_ok h →
  forallb (λ e, negb (is_open_event e)) events = true →
  (reconnects_scheduled NEXT_PUBLIC_WS_URL JSON_parse h events
   + reconnectAttemptsRef h ≤ reconnectAttemptsRef (run h events))%nat.
Proof.
  induction events as [|e events IH]; intros h Hok Hno; [cbn; lia|].
  cbn in Hno. apply andb_true_iff in Hno as [He Hno].
  cbn [reconnects_scheduled ProjectStatus.run fold_left].
  specialize (IH (step h e) (timers_ok_step h e Hok) Hno).
  fold (run (step h e) events).
  assert (Hstep : ((if schedules_reconnect NEXT_PUBLIC_WS_URL JSON_parse h e
                    then 1 else 0) + reconnectAttemptsRef h
                   ≤ reconnectAttemptsRef (step h e))%nat).
  { destruct (schedules_reconnect NEXT_PUBLIC_WS_URL JSON_parse h e) eqn:Hs.
    - destruct (schedules_reconnect_spec h e Hok Hs) as (_ & _ & _ & _ & ->).
      lia.
    - rewrite reconnectAttemptsRef_step.
      destruct e as [p| |ws|ws data now|ws|ws|ws code|t|t|p]; try (cbn; lia).
      + done.
      + destruct (sockets h !! ws); [|cbn; lia].
        destruct (reconnectAttemptsRef h <? MAX_RECONNECT_ATTEMPTS)%nat;
          cbn; lia. }
  lia.
Qed.

(** C9: along every run of the hook at most one reconnect timer is
    pending, the one the ref holds, with a delay of 5000 ms, and the
    attempt counter is at most 10; a timer is scheduled only by a close
    event with fewer than 10 attempts made and none pending, and raises
    the counter by one; with 10 attempts made a close event schedules
    nothing and leaves the counter; the counter goes down only by an open
    event, which sets it to 0; so in any continuation without an open
    event the reconnect timers scheduled and the attempts already made
    are together at most 10. *)
Theorem reconnect_attempts_are_bounded :
  (∀ now events,
     timeouts (run (initial now) events)
       = match reconnectTimeoutRef (run (initial now) events) with
         | Some t => {[ t := 5000%N ]}
         | None => ∅
         end ∧
     (size (timeouts (run (initial now) events)) ≤ 1)%nat ∧
     (reconnectAttemptsRef (run (initial now) events) ≤ 10)%nat) ∧
  (∀ now events e,
     schedules_reconnect NEXT_PUBLIC_WS_URL JSON_parse
       (run (initial now) events) e = true →
     (∃ ws code o, e = WsClose ws code ∧
                   sockets (run (initial now) events) !! ws = Some o) ∧
     (reconnectAttemptsRef (run (initial now) events) < 10)%nat ∧
     reconnectTimeoutRef (run (initial now) events) = None ∧
     timeouts (step (run (initial now) events) e)
       = {[ next_timer (run (initial now) events) := 5000%N ]} ∧
     reconnectAttemptsRef (step (run (initial now) events) e)
       = (reconnectAttemptsRef (run (initial now) events) + 1)%nat) ∧
  (∀ h ws code, (10 ≤ reconnectAttemptsRef h)%nat →
     timeouts (step h (WsClose ws code)) = timeouts h ∧
     reconnectTimeoutRef (step h (WsClose ws code)) = reconnectTimeoutRef h ∧
     reconnectAttemptsRef (step h (WsClose ws code))
       = reconnectAttemptsRef h) ∧
  (∀ h e, (reconnectAttemptsRef (step h e) < reconnectAttemptsRef h)%nat →
     reconnectAttemptsRef (step h e) = 0%nat ∧
     ∃ ws o, e = WsOpen ws ∧ sockets h !! ws = Some o) ∧
  (∀ now events more,
     forallb (λ e, negb (is_open_event e)) more = true →
     (reconnects_scheduled NEXT_PUBLIC_WS_URL JSON_parse
        (run (initial now) events) more
      + reconnectAttemptsRef (run (initial now) events) ≤ 10)%nat).
Proof.
  assert (Hok : ∀ now events, timers_ok (run (initial now) events))
    by (intros; apply timers_ok_run, timers_ok_initial).
  split; [|split; [|split; [|split]]].
  - intros now events. destruct (Hok now events) as [Ht Ha].
    split; [done|]. split; [|done]. rewrite Ht.
    destruct (reconnectTimeoutRef _).
    + by rewrite map_size_singleton.
    + rewrite map_size_empty. lia.
  - intros now events e Hs.
    by apply schedules_reconnect_spec.
  - intros h ws code Hmax.
    rewrite timeouts_step, reconnectTimeoutRef_step, reconnectAttemptsRef_step.
    destruct (sockets h !! ws); [|done].
    assert (Hlt : (reconnectAttemptsRef h <? MAX_RECONNECT_ATTEMPTS)%nat
                  = false) by (by apply Nat.ltb_ge).
    by rewrite Hlt.
  - intros h e. rewrite reconnectAttemptsRef_step.
    destruct e as [p| |ws|ws data now|ws|ws|ws code|t|t|p]; try lia.
    + destruct (sockets h !! ws) as [o|] eqn:Ho; [|lia].
      intros _. split; [done|]. by exists ws, o.
    + destruct (sockets h !! ws); [|lia].
      destruct (reconnectAttemptsRef h <? MAX_RECONNECT_ATTEMPTS)%nat; lia.
  - intros now events more Hno.
    pose proof (reconnects_scheduled_bound more _ (Hok now events) Hno) as Hb.
    assert (Hrun : run (run (initial now) events) more
                   = run (initial now) (events ++ more))
      by (unfold ProjectStatus.run; by rewrite fold_left_app).
    rewrite Hrun in Hb.
    destruct (Hok now (events ++ more)) as [_ Ha].
    unfold MAX_RECONNECT_ATTEMPTS in Ha. lia.
Qed.

(** ** What the status remembers *)

(** The data of the message an event delivers, if the handler acts on it:
    the text is not ['pong'], it parses, and its type is one of the three
    the handler knows. *)
Definition handled_message (e : Event) : option jsval :=
  match e with
  | WsMessage _ data _ =>
      if String.eqb data "pong" then None
      else
        match JSON_parse data with
        | Some d =>
            match get_prop d "type" with
            | Some type =>
                if is_str type "progress" || is_str type "completed"
                   || is_str type "error"
                then Some d else None
            | None => None
            end
        | None => None
        end
  | _ => None
  end.

(** The event delivers a [progress] message whose stage is the key [k]. *)
Definition progress_for (k : string) (e : Event) : bool :=
  match handled_message e with
  | Some d =>
      is_str (default JUndefined (get_prop d "type")) "progress"
      && String.eqb (to_string (default JUndefined (get_prop d "stage"))) k
  | None => false
  end.

(** The event delivers a message that writes the key [k] of the status. *)
Definition addresses (k : string) (e : Event) : bool :=
  progress_for k e
  || match handled_message e with
     | Some d =>
         is_str (default JUndefined (get_prop d "type")) "completed"
         && String.eqb k "overall"
         || is_str (default JUndefined (get_prop d "type")) "error"
            && String.eqb k "error"
     | None => false
     end.

Lemma status_step h e :
  status (step h e) =
    match e with
    | WsMessage ws data now =>
        match sockets h !! ws with
        | Some _ => status (onmessage data now h)
        | None => status h
        end
    | _ => status h
    end.
Proof. event_cases. Qed.

Lemma lastUpdate_step h e :
  lastUpdate (step h e) =
    match e with
    | WsMessage ws data now =>
        match sockets h !! ws with
        | Some _ => lastUpdate (onmessage data now h)
        | None => lastUpdate h
        end
    | _ => lastUpdate h
    end.
Proof. event_cases. Qed.

Lemma onmessage_unhandled ws data now h :
  handled_message (WsMessage ws data now) = None →
  onmessage data now h = h.
Proof.
  unfold handled_message, ProjectStatus.onmessage.
  destruct (String.eqb data "pong"); [done|].
  destruct (JSON_parse data) as [d|]; [|done].
  destruct (get_prop d "type") as [type|]; [|done].
  by destruct (is_str type "progress"), (is_str type "completed"),
       (is_str type "error").
Qed.

(** A message leaves the keys it does not address. *)
Lemma onmessage_key ws data now h k :
  addresses k (WsMessage ws data now) = false →
  status (onmessage data now h) !! k = status h !! k.
Proof.
  unfold addresses, progress_for, handled_message, ProjectStatus.onmessage.
  destruct (String.eqb data "pong"); [done|].
  destruct (JSON_parse data) as [d|]; [|done].
  destruct (get_prop d "type") as [type|] eqn:Hty; [|done]. cbn [default].
  destruct (is_str type "progress") eqn:Hp, (is_str type "completed") eqn:Hc,
    (is_str type "error") eqn:He;
    repeat match goal with
           | H : is_str type _ = true |- _ => apply is_str_true in H; subst type
           end;
    try discriminate; cbn; rewrite ?Hty; cbn; rewrite ?orb_false_r;
    try done; intros Hk; apply String.eqb_neq in Hk;
    by rewrite lookup_insert_ne.
Qed.

Lemma onmessage_overall ws data now h :
  progress_for "overall" (WsMessage ws data now) = false →
  status (onmessage data now h) !! "overall" = status h !! "overall" ∨
  status (onmessage data now h) !! "overall" = Some (JStr "completed").
Proof.
  unfold progress_for, handled_message, ProjectStatus.onmessage.
  destruct (String.eqb data "pong"); [by left|].
  destruct (JSON_parse data) as [d|]; [|by left].
  destruct (get_prop d "type") as [type|] eqn:Hty; [|by left]. cbn [default].
  destruct (is_str type "progress") eqn:Hp, (is_str type "completed") eqn:Hc,
    (is_str type "error") eqn:He;
    repeat match goal with
           | H : is_str type _ = true |- _ => apply is_str_true in H; subst type
           end;
    try discriminate; cbn; rewrite ?Hty; cbn.
  - intros Hk. apply String.eqb_neq in Hk. left. by rewrite lookup_insert_ne.
  - intros _. right. by rewrite lookup_insert_eq.
  - intros _. left. by rewrite lookup_insert_ne.
  - by left.
Qed.

Lemma status_step_key h e k :
  addresses k e = false → status (step h e) !! k = status h !! k.
Proof.
  intros Ha. rewrite status_step.
  destruct e as [p| |ws|ws data now|ws|ws|ws code|t|t|p]; try done.
  destruct (sockets h !! ws); [|done]. by apply (onmessage_key ws).
Qed.

Lemma status_run_key k events : ∀ h,
  (∀ e, e ∈ events → addresses k e = false) →
  status (run h events) !! k = status h !! k.
Proof.
  induction events as [|e events IH]; intros h Hno; [done|].
  change (status (run (step h e) events) !! k = status h !! k).
  rewrite IH.
  - apply status_step_key, Hno. by left.
  - intros e' He'. apply Hno. by right.
Qed.

(** useProjectStatus.js, [setStatus] and [setLastUpdate]: the status is
    written by [progress], [completed] and [error] messages and by nothing
    else.  A run of events with no such message (opens, closes, errors,
    heartbeats, reconnects, a change of the project id, pongs, texts that
    do not parse, messages of other types) leaves [status] and
    [lastUpdate] exactly as they were, so the status is never reset when
    the connection is lost or another project is shown; and a run with no
    message for a key leaves that key, so an error once reported stays
    until the next [error] message. *)
Theorem status_is_kept_without_message (h : Hook) (events : list Event) :
  ((∀ e, e ∈ events → handled_message e = None) →
   status (run h events) = status h ∧
   lastUpdate (run h events) = lastUpdate h) ∧
  (∀ k, (∀ e, e ∈ events → addresses k e = false) →
        status (run h events) !! k = status h !! k).
Proof.
  split; [|intros k; apply status_run_key].
  revert h. induction events as [|e events IH]; intros h Hno; [done|].
  change (status (run (step h e) events) = status h ∧
          lastUpdate (run (step h e) events) = lastUpdate h).
  destruct (IH (step h e)) as [-> ->].
  { intros e' He'. apply Hno. by right. }
  rewrite status_step, lastUpdate_step.
  assert (He : handled_message e = None) by (apply Hno; by left).
  destruct e as [p| |ws|ws data now|ws|ws|ws code|t|t|p]; try done.
  destruct (sockets h !! ws); [|done].
  by rewrite (onmessage_unhandled ws data now h He).
Qed.

Lemma overall_step h e :
  progress_for "overall" e = false →
  status (step h e) !! "overall" = status h !! "overall" ∨
  status (step h e) !! "overall" = Some (JStr "completed").
Proof.
  intros Hp. rewrite status_step.
  destruct e as [p| |ws|ws data now|ws|ws|ws code|t|t|p]; try by left.
  destruct (sockets h !! ws); [|by left]. by apply (onmessage_overall ws).
Qed.

(** useProjectStatus.js, [status.overall]: unless a [progress] message
    names 'overall' as its stage, the overall status the hook reports is
    'created' until a [completed] message arrives and 'completed' from then
    on, for good: it stays 'created' through every run of events with no
    [completed] message, and an event takes it away from 'created' only by
    delivering a [completed] message or a [progress] message whose stage is
    'overall'; no failure, no running stage and no later run of the
    pipeline ever shows in it. *)
Theorem overall_is_created_or_completed :
  (∀ now events,
     (∀ e, e ∈ events → progress_for "overall" e = false) →
     status (run (initial now) events) !! "overall" = Some (JStr "created") ∨
     status (run (initial now) events) !! "overall"
       = Some (JStr "completed")) ∧
  (∀ h events,
     (∀ e, e ∈ events → progress_for "overall" e = false) →
     status h !! "overall" = Some (JStr "completed") →
     status (run h events) !! "overall" = Some (JStr "completed")) ∧
  (∀ h events,
     (∀ e, e ∈ events →
           progress_for "overall" e = false ∧
           ∀ d, handled_message e = Some d →
                get_prop d "type" ≠ Some (JStr "completed")) →
     status h !! "overall" = Some (JStr "created") →
     status (run h events) !! "overall" = Some (JStr "created")) ∧
  (∀ h e,
     status h !! "overall" = Some (JStr "created") →
     status (step h e) !! "overall" ≠ Some (JStr "created") →
     ∃ ws data now d,
       e = WsMessage ws data now ∧ handled_message e = Some d ∧
       (get_prop d "type" = Some (JStr "completed") ∨
        progress_for "overall" e = true)).
Proof.
  assert (Hkeep : ∀ events h,
    (∀ e, e ∈ events → progress_for "overall" e = false) →
    status h !! "overall" = Some (JStr "completed") →
    status (run h events) !! "overall" = Some (JStr "completed")).
  { induction events as [|e events IH]; intros h Hno Hc; [done|].
    change (status (run (step h e) events) !! "overall"
            = Some (JStr "completed")).
    apply IH; [intros e' He'; apply Hno; by right|].
    destruct (overall_step h e) as [-> | ->]; [apply Hno; by left|done..]. }
  assert (Hinv : ∀ events h,
    (∀ e, e ∈ events → progress_for "overall" e = false) →
    status h !! "overall" = Some (JStr "created") ∨
    status h !! "overall" = Some (JStr "completed") →
    status (run h events) !! "overall" = Some (JStr "created") ∨
    status (run h events) !! "overall" = Some (JStr "completed")).
  { induction events as [|e events IH]; intros h Hno Hc; [done|].
    change (status (run (step h e) events) !! "overall"
              = Some (JStr "created") ∨
            status (run (step h e) events) !! "overall"
              = Some (JStr "completed")).
    apply IH; [intros e' He'; apply Hno; by right|].
    destruct (overall_step h e) as [-> | ->];
      [apply Hno; by left|done|by right]. }
  assert (Hcause : ∀ e d,
    handled_message e = Some d →
    addresses "overall" e = true →
    get_prop d "type" = Some (JStr "completed") ∨
    progress_for "overall" e = true).
  { intros e d Hm. unfold addresses.
    destruct (progress_for "overall" e); [by right|]. rewrite Hm. cbn.
    rewrite andb_true_r, andb_false_r, orb_false_r. intros Hc. left.
    destruct (get_prop d "type") as [type|]; [|done].
    cbn in Hc. by apply is_str_true in Hc as ->. }
  split; [|split; [|split]].
  - intros now events Hno. apply Hinv; [done|]. by left.
  - intros h events. apply Hkeep.
  - intros h events Hno Hc. rewrite <- Hc. apply status_run_key.
    intros e He. destruct (Hno e He) as [Hpf Hnc].
    destruct (addresses "overall" e) eqn:Ha; [|done]. exfalso.
    destruct (handled_message e) as [d|] eqn:Hm.
    + destruct (Hcause e d Hm Ha) as [Hcm|Hcm]; [by apply (Hnc d)|congruence].
    + unfold addresses in Ha. by rewrite Hpf, Hm in Ha.
  - intros h e Hc Hne.
    destruct (handled_message e) as [d|] eqn:Hm.
    + destruct e as [p| |ws|ws data now|ws|ws|ws code|t|t|p]; try done.
      exists ws, data, now, d. split; [done|]. split; [done|].
      destruct (addresses "overall" (WsMessage ws data now)) eqn:Ha.
      * by apply Hcause.
      * by rewrite (status_step_key h _ _ Ha) in Hne.
    + exfalso. apply Hne. rewrite status_step.
      destruct e as [p| |ws|ws data now|ws|ws|ws code|t|t|p]; try done.
      destruct (sockets h !! ws); [|done].
      by rewrite (onmessage_unhandled ws data now h Hm).
Qed.

(** ** The connection flag *)

Lemma isConnected_step h e :
  isConnected (step h e) =
    match e with
    | Effect p =>
        if truthy (JStr p) && negb (needs_new_socket h p) then
          match wsCache h !! p with
          | Some ws => bool_decide (ready_state_of h ws = OPEN)
          | None => isConnected h
          end
        else isConnected h
    | WsOpen ws =>
        match sockets h !! ws with
        | Some _ => true
        | None => isConnected h
        end
    | WsError ws | WsClose ws _ =>
        match sockets h !! ws with
        | Some _ => false
        | None => isConnected h
        end
    | ReconnectTimer t =>
        match timeouts h !! t with
        | Some _ => false
        | None => isConnected h
        end
    | Reconnect _ => false
    | _ => isConnected h
    end.
Proof. event_cases. Qed.

(** Some socket is open or closing. *)
Definition live (h : Hook) : Prop :=
  ∃ ws, ready_state_of h ws = OPEN ∨ ready_state_of h ws = CLOSING.

Lemma live_step h e :
  well_formed h →
  (isConnected h = true → live h) →
  isConnected (step h e) = true → live (step h e).
Proof.
  intros [Hs Hc] Hinv. rewrite isConnected_step. unfold live, ready_state_of.
  rewrite sockets_step.
  destruct e as [p| |ws|ws data now|ws|ws|ws code|t|t|p]; try done.
  - destruct (truthy (JStr p)); cbn [andb]; [|done].
    destruct (needs_new_socket h p) eqn:Hn; cbn [negb].
    + intros Hi. destruct (Hinv Hi) as [ws Hws]. exists ws.
      unfold ready_state_of in Hws.
      destruct (sockets h !! ws) as [o|] eqn:Ho; [|by destruct Hws].
      rewrite lookup_insert_ne; [by rewrite Ho|]. apply Hs in Ho. lia.
    + destruct (wsCache h !! p) as [ws|]; [|done].
      intros Hi. apply bool_decide_eq_true in Hi. exists ws. by left.
  - destruct (sockets h !! ws) as [o|] eqn:Ho; [|done].
    intros _. exists ws. rewrite lookup_insert_eq. by left.
  - destruct (sockets h !! ws); done.
  - intros Hi. destruct (Hinv Hi) as [ws' Hws]. exists ws'.
    unfold ready_state_of in Hws.
    destruct (decide (ws' = ws)) as [->|Hne].
    + rewrite lookup_alter_eq. destruct (sockets h !! ws); [|by destruct Hws].
      by right.
    + by rewrite lookup_alter_ne.
  - destruct (sockets h !! ws); done.
  - intros Hi. destruct (Hinv Hi) as [ws' Hws]. exists ws'.
    unfold ready_state_of in Hws.
    destruct (intervals h !! t) as [i|]; [|done].
    destruct (sockets h !! target i) as [o|] eqn:Ho; [|done].
    destruct (bool_decide (readyState o = OPEN)); [|done].
    destruct (decide (ws' = target i)) as [->|Hne].
    + rewrite lookup_insert_eq. by rewrite Ho in Hws.
    + by rewrite lookup_insert_ne.
  - destruct (timeouts h !! t); done.
Qed.

(** useProjectStatus.js, [isConnected], for the instance of the hook that
    created every socket of the cache (it was mounted onto an empty cache
    and no other instance is mounted, so that each socket's open, error and
    close handlers are its own): along every run of that instance the flag
    is true only while some socket it created is open or closing; it never
    reports a connection before one has opened or after its close or error
    event. *)
Theorem connected_flag_needs_live_socket (now : nat) (events : list Event) :
  isConnected (run (initial now) events) = true →
  ∃ ws o, sockets (run (initial now) events) !! ws = Some o ∧
          (readyState o = OPEN ∨ readyState o = CLOSING).
Proof.
  assert (Hinv : ∀ events h, well_formed h →
            (isConnected h = true → live h) →
            isConnected (run h events) = true → live (run h events)).
  { clear. induction events as [|e events IH]; intros h Hwf Hinv; [done|].
    change (isConnected (run (step h e) events) = true →
            live (run (step h e) events)).
    apply IH; [by apply well_formed_step | by apply live_step]. }
  intros Hi.
  destruct (Hinv events (initial now) (well_formed_initial now)) as [ws Hws];
    [done..|].
  exists ws. unfold ready_state_of in Hws.
  destruct (sockets (run (initial now) events) !! ws) as [o|];
    [by exists o | by destruct Hws].
Qed.

(** useProjectStatus.js, [reconnect]: a manual reconnect starts closing the
    socket cached for the project, forgets it and reports the hook as
    disconnected, touching no other project's entry; the next run of the
    effect for that project then opens a new socket, different from the
    old one, and caches it. *)
Theorem manual_reconnect_forces_new_socket
    (now : nat) (events : list Event) (p : string) (ws : nat) :
  p ≠ EmptyString →
  wsCache (run (initial now) events) !! p = Some ws →
  (ready_state_of (step (run (initial now) events) (Reconnect p)) ws = CLOSING
   ∨ ready_state_of (step (run (initial now) events) (Reconnect p)) ws
     = CLOSED) ∧
  isConnected (step (run (initial now) events) (Reconnect p)) = false ∧
  wsCache (step (run (initial now) events) (Reconnect p)) !! p = None ∧
  (∀ q, q ≠ p →
        wsCache (step (run (initial now) events) (Reconnect p)) !! q
        = wsCache (run (initial now) events) !! q) ∧
  (∃ ws', ws' ≠ ws ∧
     wsCache (run (initial now) (events ++ [Reconnect p; Effect p])) !! p
       = Some ws' ∧
     ready_state_of (run (initial now) (events ++ [Reconnect p; Effect p])) ws'
       = CONNECTING ∧
     ready_state_of (run (initial now) (events ++ [Reconnect p; Effect p])) ws
       = ready_state_of (step (run (initial now) events) (Reconnect p)) ws).
Proof.
  intros Hp Hc.
  pose proof (well_formed_run events _ (well_formed_initial now)) as Hwf.
  assert (Hrun : run (initial now) (events ++ [Reconnect p; Effect p])
                 = step (step (run (initial now) events) (Reconnect p))
                     (Effect p))
    by (unfold ProjectStatus.run; by rewrite fold_left_app).
  rewrite Hrun. clear Hrun.
  generalize dependent (run (initial now) events). intros h Hc Hwf.
  destruct Hwf as [Hs Hcache].
  destruct (Hcache p ws Hc) as (o & Ho & _).
  assert (Hlt : (ws < next_socket h)%nat) by (by eapply Hs).
  assert (Hnext : next_socket (step h (Reconnect p)) = next_socket h)
    by (by rewrite next_socket_step).
  assert (Hcache' : wsCache (step h (Reconnect p)) = delete p (wsCache h))
    by (by rewrite wsCache_step).
  assert (Hsock : sockets (step h (Reconnect p)) = alter close ws (sockets h))
    by (by rewrite sockets_step, Hc).
  assert (Hnew : needs_new_socket (step h (Reconnect p)) p = true).
  { unfold needs_new_socket. by rewrite Hcache', lookup_delete_eq. }
  apply truthy_str in Hp.
  split; [|split; [|split; [|split]]].
  - unfold ready_state_of. rewrite Hsock, lookup_alter_eq, Ho. cbn.
    unfold close. destruct (readyState o) eqn:Hr; cbn; rewrite ?Hr; auto.
  - by rewrite isConnected_step.
  - by rewrite Hcache', lookup_delete_eq.
  - intros q Hq. by rewrite Hcache', lookup_delete_ne.
  - exists (next_socket h). split; [lia|].
    unfold ready_state_of.
    rewrite wsCache_step, !sockets_step, Hp, Hnew, Hnext, Hc. cbn [andb].
    rewrite !lookup_insert_eq. split; [done|]. split; [done|].
    rewrite lookup_insert_ne by lia. done.
Qed.

(** ** One heartbeat *)

Lemma heartbeatIntervalRef_step h e :
  heartbeatIntervalRef (step h e) =
    match e with
    | WsOpen ws =>
        match sockets h !! ws with
        | Some _ => Some (next_timer h)
        | None => heartbeatIntervalRef h
        end
    | WsClose ws code =>
        match sockets h !! ws with
        | Some _ => None
        | None => heartbeatIntervalRef h
        end
    | _ => heartbeatIntervalRef h
    end.
Proof. event_cases. Qed.

(** The active intervals are the one the heartbeat ref holds. *)
Definition one_heartbeat (h : Hook) : Prop :=
  match heartbeatIntervalRef h with
  | Some t =>
      ∃ ws, intervals h = {[ t := {| period := 30000%N; target := ws |} ]}
  | None => intervals h = ∅
  end.

Lemma one_heartbeat_step h e : one_heartbeat h → one_heartbeat (step h e).
Proof.
  unfold one_heartbeat. rewrite heartbeatIntervalRef_step, intervals_step.
  destruct e as [p| |ws|ws data now|ws|ws|ws code|t|t|p]; try done.
  - destruct (sockets h !! ws); [|done].
    destruct (heartbeatIntervalRef h) as [t|].
    + intros [ws' ->]. exists ws. by rewrite delete_singleton_eq, insert_empty.
    + intros ->. exists ws. by rewrite insert_empty.
  - destruct (sockets h !! ws); [|done].
    destruct (heartbeatIntervalRef h) as [t|]; [|done].
    intros [ws' ->]. by rewrite delete_singleton_eq.
Qed.

(** useProjectStatus.js, the heartbeat interval: along every run of the
    hook at most one heartbeat interval is active, the one the heartbeat
    ref holds; no interval is left behind by a reconnect, and none
    survives the close event of a socket of the hook, after which there is
    no heartbeat until the next open event. *)
Theorem at_most_one_heartbeat (now : nat) (events : list Event) :
  (size (intervals (run (initial now) events)) ≤ 1)%nat ∧
  (∀ t, is_Some (intervals (run (initial now) events) !! t) ↔
        heartbeatIntervalRef (run (initial now) events) = Some t) ∧
  (∀ ws code, is_Some (sockets (run (initial now) events) !! ws) →
     intervals (step (run (initial now) events) (WsClose ws code)) = ∅ ∧
     heartbeatIntervalRef (step (run (initial now) events) (WsClose ws code))
       = None) ∧
  (∀ ws, is_Some (sockets (run (initial now) events) !! ws) →
     intervals (step (run (initial now) events) (WsOpen ws))
     = {[ next_timer (run (initial now) events)
          := {| period := 30000%N; target := ws |} ]}).
Proof.
  assert (Hinv : ∀ events h, one_heartbeat h → one_heartbeat (run h events)).
  { clear. induction events as [|e events IH]; intros h Hh; [done|].
    change (one_heartbeat (run (step h e) events)).
    by apply IH, one_heartbeat_step. }
  assert (Hone : one_heartbeat (run (initial now) events))
    by (by apply Hinv).
  pose proof (λ e, one_heartbeat_step _ e Hone) as Hstep.
  generalize dependent (run (initial now) events). intros h Hone Hstep.
  split; [|split; [|split]].
  - unfold one_heartbeat in Hone.
    destruct (heartbeatIntervalRef h) as [t|].
    + destruct Hone as [ws ->]. rewrite map_size_singleton. lia.
    + rewrite Hone, map_size_empty. lia.
  - intros t. unfold one_heartbeat in Hone.
    destruct (heartbeatIntervalRef h) as [t'|].
    + destruct Hone as [ws ->]. split.
      * intros [i Hi]. apply lookup_singleton_Some in Hi as [-> _]. done.
      * intros [= ->]. rewrite lookup_singleton_eq. by eexists.
    + rewrite Hone, lookup_empty. split; [by intros [? ?]|done].
  - intros ws code [o Ho]. specialize (Hstep (WsClose ws code)).
    unfold one_heartbeat in Hstep.
    rewrite heartbeatIntervalRef_step, Ho in Hstep.
    by rewrite heartbeatIntervalRef_step, Ho.
  - intros ws [o Ho]. specialize (Hstep (WsOpen ws)).
    unfold one_heartbeat in Hstep.
    rewrite heartbeatIntervalRef_step, Ho in Hstep.
    destruct Hstep as [ws' Hi]. rewrite Hi.
    rewrite intervals_step, Ho in Hi.
    assert (Hl : (<[next_timer h := {| period := 30000; target := ws |}]>
                    match heartbeatIntervalRef h with
                    | Some t => delete t (intervals h)
                    | None => intervals h
                    end : gmap positive Interval) !! next_timer h
                 = Some {| period := 30000; target := ws |})
      by apply lookup_insert_eq.
    rewrite Hi, lookup_singleton_eq in Hl. by injection Hl as ->.
Qed.

End HookFacts.

(** ** A session *)

(** The messages of the README's WebSocket section, and a [JSON.parse] that
    reads exactly their texts. *)
Definition progress_message : jsval :=
  JObj [("type", JStr "progress"); ("stage", JStr "storyboard");
        ("status", JStr "running"); ("message", JStr "Generating frames")].

Definition completed_message : jsval := JObj [("type", JStr "completed")].

Definition error_message : jsval :=
  JObj [("type", JStr "error"); ("error", JStr "Generation failed")].

Definition text_of (v : jsval) : string :=
  default EmptyString (JSON_stringify v).

Definition sample_parse (text : string) : option jsval :=
  if String.eqb text (text_of progress_message) then Some progress_message
  else if String.eqb text (text_of completed_message)
  then Some completed_message
  else if String.eqb text (text_of error_message) then Some error_message
  else None.

(** The page opens a project, the connection opens, a heartbeat fires, a
    progress message arrives, and the server goes away. *)
Definition session : list Event :=
  [ Effect "p1"; WsOpen 0; HeartbeatTick 1;
    WsMessage 0 (text_of progress_message) 7; WsClose 0 1006 ].

Example session_result :
  wsCache (run None sample_parse (initial 0) session) = ∅ ∧
  sent_on (run None sample_parse (initial 0) session) 0 = ["ping"] ∧
  ready_state_of (run None sample_parse (initial 0) session) 0 = CLOSED ∧
  status (run None sample_parse (initial 0) session) !! "storyboard"
    = Some (JObj [("status", JStr "running");
                  ("message", JStr "Generating frames")]) ∧
  status (run None sample_parse (initial 0) session) !! "overall"
    = Some (JStr "created") ∧
  intervals (run None sample_parse (initial 0) session) = ∅ ∧
  timeouts (run None sample_parse (initial 0) session) = {[ 2%positive := 5000%N ]} ∧
  reconnectAttemptsRef (run None sample_parse (initial 0) session) = 1%nat.
Proof. vm_compute. repeat split. Qed.

Lemma connection_cache_discipline_witness :
  wsCache (step None sample_parse (initial 0) (Effect "p1")) !! "p1" = Some 0%nat.
Proof.
  destruct (connection_cache_discipline None sample_parse (initial 0)
              (Effect "p1")) as (Hiff & Hnew & _).
  destruct Hnew as (p & Hp & _ & Hc & _).
  - apply Hiff. exists "p1". split; [done|]. split; [done|]. by left.
  - injection Hp as <-. exact Hc.
Defined.


Lemma message_updates_only_its_field_witness :
  status
    (step None sample_parse
       (run None sample_parse (initial 0) [Effect "p1"; WsOpen 0])
       (WsMessage 0 (text_of progress_message) 7)) !! "overall"
  = Some (JStr "created").
Proof.
  destruct (message_updates_only_its_field None sample_parse
              (run None sample_parse (initial 0) [Effect "p1"; WsOpen 0])
              0 (text_of progress_message) 7) as (_ & _ & Hmsg).
  destruct (Hmsg progress_message) as (Hprogress & _).
  - vm_compute. by eexists.
  - vm_compute. discriminate.
  - vm_compute. reflexivity.
  - destruct Hprogress as (_ & _ & Hstage); [vm_compute; reflexivity|].
    destruct (Hstage "storyboard") as (Hoverall & _).
    + vm_compute. reflexivity.
    + right. left.
    + rewrite Hoverall. vm_compute. reflexivity.
Defined.

(** The server never answers: the page mounts again and again, and every
    connection closes without opening; [k] is the identity of the next
    socket and of the next timer but one. *)
Fixpoint unreachable_from (rounds k : nat) : list Event :=
  match rounds with
  | O => []
  | S rounds' =>
      [Effect "p1"; WsClose k 1006; ReconnectTimer (Pos.of_succ_nat k)]
        ++ unreachable_from rounds' (S k)
  end.

Definition unreachable : list Event := unreachable_from 12 0.

Example unreachable_result :
  reconnects_scheduled None sample_parse (initial 0) unreachable = 10%nat ∧
  reconnectAttemptsRef (run None sample_parse (initial 0) unreachable)
    = 10%nat ∧
  timeouts (run None sample_parse (initial 0) unreachable) = ∅ ∧
  next_socket (run None sample_parse (initial 0) unreachable) = 12%nat.
Proof. vm_compute. repeat split. Qed.

Lemma reconnect_attempts_are_bounded_witness :
  (reconnects_scheduled None sample_parse (initial 0) unreachable ≤ 10)%nat.
Proof.
  destruct (reconnect_attempts_are_bounded None sample_parse)
    as (_ & _ & _ & _ & Hbound).
  specialize (Hbound 0%nat [] unreachable).
  cbn [ProjectStatus.run fold_left] in Hbound.
  assert (Hno : forallb (λ e, negb (is_open_event e)) unreachable = true)
    by (vm_compute; reflexivity).
  specialize (Hbound Hno).
  change (reconnectAttemptsRef (initial 0)) with 0%nat in Hbound. lia.
Defined.

(** ** A stale close event *)

(** A cache entry goes exactly when its own connection closes or a manual
    reconnect is asked for: the entry of [p] holding
    [ws] is gone after the event if and only if the event is the close
    event of [ws] or a reconnect for [p]. *)
Definition removed_exactly_with_its_connection
    (NEXT_PUBLIC_WS_URL : option string) (JSON_parse : string → option jsval)
    (h : Hook) (e : Event) : Prop :=
  ∀ p ws, wsCache h !! p = Some ws →
    (wsCache (step NEXT_PUBLIC_WS_URL JSON_parse h e) !! p = None ↔
     e = Reconnect p ∨ ∃ code, e = WsClose ws code).

(** The page shows project p1, whose connection opens and then starts to
    close; the page goes to project p2 and back to p1, where the effect
    finds the cached connection closing, opens a new one, number 2, and
    caches it; that connection opens. *)
Definition revisit : list Event :=
  [ Effect "p1"; WsOpen 0; WsClosing 0; Cleanup; Effect "p2"; Cleanup;
    Effect "p1"; WsOpen 2 ].

(** The close event of the old connection of p1 then removes the cache
    entry of the new one, which stays open: the entry goes though neither
    its connection closed nor a reconnect was asked for, and the next run
    of the effect opens a third connection for p1 beside the open one. *)
Lemma stale_close_evicts_open_connection :
  wsCache (run None sample_parse (initial 0) revisit) !! "p1" = Some 2%nat ∧
  ready_state_of (run None sample_parse (initial 0) revisit) 2 = OPEN ∧
  wsCache (step None sample_parse (run None sample_parse (initial 0) revisit)
             (WsClose 0 1000)) !! "p1" = None ∧
  ready_state_of
    (step None sample_parse (run None sample_parse (initial 0) revisit)
       (WsClose 0 1000)) 2 = OPEN ∧
  ¬ removed_exactly_with_its_connection None sample_parse
      (run None sample_parse (initial 0) revisit) (WsClose 0 1000) ∧
  (ready_state_of
     (run None sample_parse (initial 0)
        (revisit ++ [WsClose 0 1000; Effect "p1"])) 2 = OPEN ∧
   ready_state_of
     (run None sample_parse (initial 0)
        (revisit ++ [WsClose 0 1000; Effect "p1"])) 3 = CONNECTING ∧
   ws_project <$> sockets (run None sample_parse (initial 0)
                             (revisit ++ [WsClose 0 1000; Effect "p1"]))
                  !! 2%nat = Some "p1" ∧
   ws_project <$> sockets (run None sample_parse (initial 0)
                             (revisit ++ [WsClose 0 1000; Effect "p1"]))
                  !! 3%nat = Some "p1").
Proof.
  assert (Hc : wsCache (run None sample_parse (initial 0) revisit) !! "p1"
               = Some 2%nat) by (vm_compute; reflexivity).
  assert (Hn : wsCache (step None sample_parse
                          (run None sample_parse (initial 0) revisit)
                          (WsClose 0 1000)) !! "p1" = None)
    by (vm_compute; reflexivity).
  split; [exact Hc|]. split; [vm_compute; reflexivity|].
  split; [exact Hn|]. split; [vm_compute; reflexivity|].
  split; [|vm_compute; repeat split].
  intros Hclaim. destruct (Hclaim "p1" 2%nat Hc) as [Hgone _].
  destruct (Hgone Hn) as [Hr|[code Hr]]; discriminate.
Qed.





(** The connection opens and is lost again, with no message in between. *)
Definition silent_session : list Event :=
  [ Effect "p1"; WsOpen 0; HeartbeatTick 1; WsMessage 0 "pong" 5;
    WsError 0; WsClose 0 1006 ].

Lemma status_is_kept_without_message_witness :
  status (run None sample_parse (initial 0) silent_session) = initial_status ∧
  lastUpdate (run None sample_parse (initial 0) silent_session) = 0%nat.
Proof.
  destruct (status_is_kept_without_message None sample_parse (initial 0)
              silent_session) as [H _].
  apply H. intros e He.
  repeat (apply elem_of_cons in He as [->|He]; [reflexivity|]).
  by apply elem_of_nil in He.
Defined.

Lemma overall_is_created_or_completed_witness :
  status (run None sample_parse (initial 0)
            (session ++ [WsMessage 0 (text_of completed_message) 9]))
    !! "overall" = Some (JStr "created") ∨
  status (run None sample_parse (initial 0)
            (session ++ [WsMessage 0 (text_of completed_message) 9]))
    !! "overall" = Some (JStr "completed").
Proof.
  destruct (overall_is_created_or_completed None sample_parse) as [H _].
  apply H. intros e He.
  repeat (apply elem_of_cons in He as [->|He]; [reflexivity|]).
  by apply elem_of_nil in He.
Defined.

Lemma connected_flag_needs_live_socket_witness :
  ∃ ws o,
    sockets (run None sample_parse (initial 0) [Effect "p1"; WsOpen 0]) !! ws
      = Some o ∧
    (readyState o = OPEN ∨ readyState o = CLOSING).
Proof.
  apply (connected_flag_needs_live_socket None sample_parse 0
           [Effect "p1"; WsOpen 0]).
  vm_compute. reflexivity.
Defined.

Lemma manual_reconnect_forces_new_socket_witness :
  ready_state_of
    (step None sample_parse
       (run None sample_parse (initial 0) [Effect "p1"; WsOpen 0])
       (Reconnect "p1")) 0 = CLOSING ∨
  ready_state_of
    (step None sample_parse
       (run None sample_parse (initial 0) [Effect "p1"; WsOpen 0])
       (Reconnect "p1")) 0 = CLOSED.
Proof.
  assert (Hp : "p1" ≠ EmptyString) by discriminate.
  assert (Hc : wsCache (run None sample_parse (initial 0)
                          [Effect "p1"; WsOpen 0]) !! "p1" = Some 0%nat)
    by (vm_compute; reflexivity).
  destruct (manual_reconnect_forces_new_socket None sample_parse 0
              [Effect "p1"; WsOpen 0] "p1" 0%nat Hp Hc) as [H _].
  exact H.
Defined.

End ProjectStatus.

(* ===================================================================== *)
(** * pages/index.js *)
(* ===================================================================== *)

Module Home.
Import JS.

Record State : Type := mkState {
  prompt : string;
  title : string;
  loading : bool;
  error : option string          (* [None]: null *)
}.

Inductive Effect : Type :=
| PreventDefault
| Fetch (request : ScriptView.Request)
| Push (path : string)
| ConsoleLog (text : string)
| ConsoleWarn (text : string)
| ConsoleError (text : string).

(** What becomes of a [fetch] and of [response.json()]: the [fetch]
    rejects with an error of the given message; or it answers with
    [response.ok] and a body that [response.json()] turns into a value, or
    over which it rejects with an error of the given message. *)
Inductive Settled : Type :=
| Rejected (message : string)
| Answered (ok : bool) (json : string + jsval).

Definition set_loading (b : bool) (st : State) : State :=
  {| prompt := prompt st; title := title st; loading := b;
     error := error st |}.

Definition set_error (e : option string) (st : State) : State :=
  {| prompt := prompt st; title := title st; loading := loading st;
     error := e |}.

Definition initial_state : State :=
  {| prompt := EmptyString; title := EmptyString; loading := false;
     error := None |}.

Section Page.

Variable NEXT_PUBLIC_API_URL : option string.

(** The message of the [TypeError] that reading [_id] of [null] throws. *)
Variable TypeError_message : string.

Definition API_URL : string :=
  env_or NEXT_PUBLIC_API_URL "http://localhost:8000".

Definition create_request (st : State) : ScriptView.Request :=
  {| ScriptView.url := API_URL +:+ "/projects/create";
     ScriptView.method := "POST";
     ScriptView.headers := [("Content-Type", "application/json")];
     ScriptView.body :=
       JSON_stringify
         (JObj [("user_prompt", JStr (prompt st));
                ("title", js_or (JStr (title st)) JNull)]) |}.

(** The request for [`${API_URL}/projects/${id}/run`]. *)
Definition run_request (id : jsval) (force_rerun : bool)
    : ScriptView.Request :=
  {| ScriptView.url := API_URL +:+ "/projects/" +:+ to_string id +:+ "/run";
     ScriptView.method := "POST";
     ScriptView.headers := [("Content-Type", "application/json")];
     ScriptView.body :=
       JSON_stringify (JObj [("force_rerun", JBool force_rerun)]) |}.

(** [handleSubmit] up to its first [await]. *)
Definition handleSubmit_start (st : State) : State * list Effect :=
  if negb (truthy (JStr (trim (prompt st)))) then
    (set_error (Some "Please enter a prompt") st, [PreventDefault])
  else
    (set_error None (set_loading true st),
     [PreventDefault; Fetch (create_request st)]).

(** The outer [catch] and [finally]. *)
Definition creation_failed (message : string) (st : State)
    : State * list Effect :=
  (set_loading false (set_error (Some message) st),
   [ConsoleError "Error creating project:"]).

(** [handleSubmit] from the first [fetch]'s outcome to its second [await]
    (the result then names the created project's [_id]) or to its end.
    With a [null] body the inner [try] catches the [TypeError] of
    [data._id], and [router.push] throws it again. *)
Definition handleSubmit_created (create : Settled) (st : State)
    : State * list Effect * option jsval :=
  match create with
  | Rejected message => (creation_failed message st, None)
  | Answered false _ => (creation_failed "Failed to create project" st, None)
  | Answered true (inl message) => (creation_failed message st, None)
  | Answered true (inr data) =>
      match get_prop data "_id" with
      | None =>
          let '(st', effects) := creation_failed TypeError_message st in
          (st',
           [ConsoleLog "Project created:";
            ConsoleError "Pipeline auto-start error:"] ++ effects,
           None)
      | Some id =>
          (st, [ConsoleLog "Project created:"; Fetch (run_request id false)],
           Some id)
      end
  end.

(** [handleSubmit] from the second [fetch]'s outcome on. *)
Definition handleSubmit_ran (id : jsval) (run : Settled) (st : State)
    : State * list Effect :=
  (set_loading false st,
   [ match run with
     | Rejected _ => ConsoleError "Pipeline auto-start error:"
     | Answered true _ => ConsoleLog " Pipeline auto-started"
     | Answered false _ =>
         ConsoleWarn
           "  Pipeline auto-start failed, user can manually start it"
     end;
     Push ("/project/" +:+ to_string id) ]).

(** The requests and the navigations among a handler's effects. *)
Definition requests (effects : list Effect) : list ScriptView.Request :=
  omap (fun e => match e with Fetch r => Some r | _ => None end) effects.

Definition navigations (effects : list Effect) : list string :=
  omap (fun e => match e with Push path => Some path | _ => None end)
    effects.

(** [handleSubmit] as a whole, given what becomes of its two fetches. *)
Definition handleSubmit (create run : Settled) (st : State)
    : State * list Effect :=
  let '(st1, effects1) := handleSubmit_start st in
  match requests effects1 with
  | [] => (st1, effects1)
  | _ :: _ =>
      let '(st2, effects2, waiting) := handleSubmit_created create st1 in
      match waiting with
      | None => (st2, effects1 ++ effects2)
      | Some id =>
          let '(st3, effects3) := handleSubmit_ran id run st2 in
          (st3, effects1 ++ effects2 ++ effects3)
      end
  end.

(** What the form shows of the state: the submit button is disabled while
    loading, and the error banner is there for a non-empty message. *)
Record View : Type := mkView {
  submit_disabled : bool;
  error_banner : option string
}.

Definition render (st : State) : View :=
  {| submit_disabled := loading st;
     error_banner :=
       match error st with
       | Some message => if truthy (JStr message) then Some message else None
       | None => None
       end |}.

(** The form's submit event: the browser raises none while the submit
    button is disabled or the [required] prompt is empty. *)
Definition submit (create run : Settled) (st : State)
    : State * list Effect :=
  if submit_disabled (render st) || String.eqb (prompt st) EmptyString
  then (st, [])
  else handleSubmit create run st.

End Page.

Section PageFacts.

Variable NEXT_PUBLIC_API_URL : option string.
Variable TypeError_message : string.

Abbreviation handleSubmit_start := (handleSubmit_start NEXT_PUBLIC_API_URL).
Abbreviation handleSubmit :=
  (handleSubmit NEXT_PUBLIC_API_URL TypeError_message).
Abbreviation submit := (submit NEXT_PUBLIC_API_URL TypeError_message).
Abbreviation create_request := (create_request NEXT_PUBLIC_API_URL).
Abbreviation run_request := (run_request NEXT_PUBLIC_API_URL).

Lemma handleSubmit_start_blank st :
  blank (prompt st) = true →
  handleSubmit_start st
  = (set_error (Some "Please enter a prompt") st, [PreventDefault]).
Proof.
  intros Hb. unfold Home.handleSubmit_start.
  by rewrite ScriptView.trim_truthy, Hb.
Qed.

Lemma handleSubmit_start_filled st :
  blank (prompt st) = false →
  handleSubmit_start st
  = (set_error None (set_loading true st),
     [PreventDefault; Fetch (create_request st)]).
Proof.
  intros Hb. unfold Home.handleSubmit_start.
  by rewrite ScriptView.trim_truthy, Hb.
Qed.

(** index.js, [handleSubmit] guard: a prompt that is empty or only white
    space is never sent: [handleSubmit] issues no request, navigates
    nowhere, leaves [loading] as it is and sets the error to 'Please enter
    a prompt'; and the form raises no submission at all, and so changes
    nothing, while [loading] is true or the prompt is empty. *)
Theorem blank_prompt_is_not_submitted
    (create run : Settled) (st : State) :
  (blank (prompt st) = true →
     handleSubmit create run st
       = (set_error (Some "Please enter a prompt") st, [PreventDefault]) ∧
     requests (snd (submit create run st)) = [] ∧
     navigations (snd (submit create run st)) = []) ∧
  (loading st = true ∨ prompt st = EmptyString →
     submit create run st = (st, [])).
Proof.
  split.
  - intros Hb.
    assert (Hh : handleSubmit create run st
                 = (set_error (Some "Please enter a prompt") st,
                    [PreventDefault])).
    { unfold Home.handleSubmit. by rewrite (handleSubmit_start_blank st Hb). }
    split; [done|]. unfold Home.submit.
    destruct (_ || _); [done|]. by rewrite Hh.
  - intros Hcase. unfold Home.submit, render. cbn [submit_disabled].
    destruct Hcase as [-> | ->]; [done|]. by rewrite orb_true_r.
Qed.

(** index.js, [handleSubmit] after a successful creation: when the prompt
    is not blank and the creation answers ok with a body other than [null]
    ([id] is its [_id], [undefined] when it has none), the page sends
    exactly two requests, the creation and then the run of the created
    project with [force_rerun] false, then navigates once, to
    [/project/<id>], with no error shown and [loading] false again; the
    outcome of the run request (ok, not ok, or a network error) changes
    neither the state, nor the requests, nor the navigation. *)
Theorem created_project_is_run_and_opened
    (run : Settled) (st : State) (data id : jsval) :
  blank (prompt st) = false →
  get_prop data "_id" = Some id →
  requests (snd (handleSubmit (Answered true (inr data)) run st))
    = [create_request st; run_request id false] ∧
  navigations (snd (handleSubmit (Answered true (inr data)) run st))
    = ["/project/" +:+ to_string id] ∧
  fst (handleSubmit (Answered true (inr data)) run st)
    = {| prompt := prompt st; title := title st; loading := false;
         error := None |} ∧
  (∀ run',
     fst (handleSubmit (Answered true (inr data)) run' st)
       = fst (handleSubmit (Answered true (inr data)) run st) ∧
     requests (snd (handleSubmit (Answered true (inr data)) run' st))
       = requests (snd (handleSubmit (Answered true (inr data)) run st)) ∧
     navigations (snd (handleSubmit (Answered true (inr data)) run' st))
       = navigations (snd (handleSubmit (Answered true (inr data)) run st))).
Proof.
  intros Hb Hid.
  assert (Hh : ∀ r,
    fst (handleSubmit (Answered true (inr data)) r st)
      = {| prompt := prompt st; title := title st; loading := false;
           error := None |} ∧
    requests (snd (handleSubmit (Answered true (inr data)) r st))
      = [create_request st; run_request id false] ∧
    navigations (snd (handleSubmit (Answered true (inr data)) r st))
      = ["/project/" +:+ to_string id]).
  { intros r. unfold Home.handleSubmit.
    rewrite (handleSubmit_start_filled st Hb). cbn [requests omap].
    unfold handleSubmit_created. rewrite Hid. cbn.
    by destruct r as [m|[] j]. }
  destruct (Hh run) as (Hs & Hr & Hn).
  split; [done|]. split; [done|]. split; [done|].
  intros run'. destruct (Hh run') as (Hs' & Hr' & Hn'). by rewrite Hs', Hr', Hn'.
Qed.

(** index.js, [handleSubmit] after a failed creation: when the creation
    request fails (the fetch rejects, the answer is not ok, the body does
    not parse, or the body is [null]), the creation is the only request,
    there is no navigation, [loading] is false again, prompt and title are
    kept, and the error is the message of what failed: 'Failed to create
    project' for an answer that is not ok, the error's own message
    otherwise. *)
Theorem failed_creation_stays_on_the_form
    (run : Settled) (st : State) (create : Settled) (message : string) :
  blank (prompt st) = false →
  (create = Rejected message ∨
   (∃ json, create = Answered false json ∧
            message = "Failed to create project") ∨
   create = Answered true (inl message) ∨
   (create = Answered true (inr JNull) ∧ message = TypeError_message)) →
  requests (snd (handleSubmit create run st)) = [create_request st] ∧
  navigations (snd (handleSubmit create run st)) = [] ∧
  fst (handleSubmit create run st)
    = {| prompt := prompt st; title := title st; loading := false;
         error := Some message |} ∧
  submit_disabled (render (fst (handleSubmit create run st))) = false.
Proof.
  intros Hb Hcase. unfold Home.handleSubmit.
  rewrite (handleSubmit_start_filled st Hb). cbn [requests omap].
  destruct Hcase as [->|[(json & -> & ->)|[->|[-> ->]]]]; by cbn.
Qed.

(** index.js, the submit button: from the state [handleSubmit] leaves at
    its first [await], no further submission sends anything: while a
    creation is in flight the button is disabled. *)
Theorem no_submission_while_loading
    (create run : Settled) (st : State) :
  requests (snd (submit create run (fst (handleSubmit_start st)))) = [] ∧
  (blank (prompt st) = false →
     submit create run (fst (handleSubmit_start st))
       = (fst (handleSubmit_start st), []) ∧
     submit_disabled (render (fst (handleSubmit_start st))) = true).
Proof.
  destruct (blank (prompt st)) eqn:Hb.
  - split; [|done]. rewrite (handleSubmit_start_blank st Hb). cbn [fst].
    unfold Home.submit. destruct (_ || _); [done|].
    unfold Home.handleSubmit.
    assert (Hb' : blank (prompt (set_error (Some "Please enter a prompt") st))
                  = true) by done.
    by rewrite (handleSubmit_start_blank _ Hb').
  - rewrite (handleSubmit_start_filled st Hb). cbn [fst].
    unfold Home.submit. cbn. done.
Qed.

End PageFacts.

(** A filled form, and the answer to its creation. *)
Definition filled : State :=
  {| prompt := "A lonely astronaut discovers life on Mars.";
     title := EmptyString; loading := false; error := None |}.

Definition created : jsval :=
  JObj [("_id", JStr "42"); ("status", JStr "created")].

Lemma blank_prompt_is_not_submitted_witness :
  requests
    (snd (submit None "TypeError" (Answered true (inr created))
            (Answered true (inr JNull))
            {| prompt := " "; title := "Mars"; loading := false;
               error := None |})) = [].
Proof.
  destruct (blank_prompt_is_not_submitted None "TypeError"
              (Answered true (inr created)) (Answered true (inr JNull))
              {| prompt := " "; title := "Mars"; loading := false;
                 error := None |}) as [Hblank _].
  destruct Hblank as (_ & Hr & _); [vm_compute; reflexivity|]. exact Hr.
Defined.

Lemma created_project_is_run_and_opened_witness :
  navigations
    (snd (handleSubmit None "TypeError" (Answered true (inr created))
            (Rejected "Failed to fetch") filled))
  = ["/project/42"].
Proof.
  destruct (created_project_is_run_and_opened None "TypeError"
              (Rejected "Failed to fetch") filled created (JStr "42"))
    as (_ & Hn & _).
  - vm_compute; reflexivity.
  - vm_compute; reflexivity.
  - exact Hn.
Defined.

Lemma failed_creation_stays_on_the_form_witness :
  error
    (fst (handleSubmit None "TypeError" (Answered false (inr JNull))
            (Rejected "unused") filled))
  = Some "Failed to create project".
Proof.
  destruct (failed_creation_stays_on_the_form None "TypeError"
              (Rejected "unused") filled (Answered false (inr JNull))
              "Failed to create project") as (_ & _ & Hs & _).
  - vm_compute; reflexivity.
  - right. left. by exists (inr JNull).
  - by rewrite Hs.
Defined.

End Home.

(* ===================================================================== *)
(** * pages/project/[id].js *)
(* ===================================================================== *)

Module ProjectPage.
Import JS.

Record State : Type := mkState {
  project : jsval;               (* starts as [null] *)
  loading : bool;
  error : option string;
  isRunning : bool
}.

Inductive Effect : Type :=
| Fetch (request : ScriptView.Request)
| Alert (message : string)
| ConsoleLog (text : string)
| ConsoleError (text : string).


Definition set_loading (b : bool) (st : State) : State :=
  {| project := project st; loading := b; error := error st;
     isRunning := isRunning st |}.

Definition set_error (e : option string) (st : State) : State :=
  {| project := project st; loading := loading st; error := e;
     isRunning := isRunning st |}.

Definition set_isRunning (b : bool) (st : State) : State :=
  {| project := project st; loading := loading st; error := error st;
     isRunning := b |}.

Definition initial_state : State :=
  {| project := JNull; loading := true; error := None; isRunning := false |}.

(** The requests among a handler's effects. *)
Definition requests (effects : list Effect) : list ScriptView.Request :=
  omap (fun e => match e with Fetch r => Some r | _ => None end) effects.

Definition alerts (effects : list Effect) : list string :=
  omap (fun e => match e with Alert m => Some m | _ => None end) effects.

Section Page.

Variable NEXT_PUBLIC_API_URL : option string.

Definition API_URL : string :=
  env_or NEXT_PUBLIC_API_URL "http://localhost:8000".

(** [fetch(url)] with no options. *)
Definition get_request (url : string) : ScriptView.Request :=
  {| ScriptView.url := url; ScriptView.method := "GET";
     ScriptView.headers := []; ScriptView.body := None |}.

(** The effect on [[id]], up to its [await]; [id] is [router.query.id],
    [None] while the router is not ready. *)
Definition fetchProject_start (id : option string) (st : State)
    : State * list Effect :=
  match id with
  | Some i =>
      if truthy (JStr i) then
        (set_loading true st,
         [Fetch (get_request (API_URL +:+ "/projects/" +:+ i))])
      else (st, [])
  | None => (st, [])
  end.


(** [runPipeline(forceRerun)] up to its [await]. *)
Definition runPipeline_start (id : string) (forceRerun : bool) (st : State)
    : State * list Effect :=
  (set_isRunning true st,
   [Fetch {| ScriptView.url := API_URL +:+ "/projects/" +:+ id +:+ "/run";
             ScriptView.method := "POST";
             ScriptView.headers := [("Content-Type", "application/json")];
             ScriptView.body :=
               JSON_stringify (JObj [("force_rerun", JBool forceRerun)]) |}]).

(** [runPipeline] from the [fetch]'s outcome on. *)
Definition runPipeline_settled (o : Home.Settled) (st : State)
    : State * list Effect :=
  let failed message :=
    (set_isRunning false st,
     [ConsoleError "Error running pipeline:";
      Alert ("Error: " +:+ message)]) in
  match o with
  | Home.Rejected message => failed message
  | Home.Answered false _ => failed "Failed to start pipeline"
  | Home.Answered true (inl message) => failed message
  | Home.Answered true (inr data) =>
      (set_isRunning false st, [ConsoleLog "Pipeline started:"])
  end.

(** What the page renders: one of the three full-page states, or the run
    buttons (each with its [disabled] flag) above the dashboard of the
    project. *)
Inductive View : Type :=
| LoadingView
| ErrorView (message : string)
| NotFoundView
| ProjectView (rerun_button start_button : option bool) (dashboard : jsval).

Definition status_is (p : jsval) (text : string) : bool :=
  is_str (default JUndefined (get_prop p "status")) text.

(** The page below the three early returns. *)
Definition page (st : State) : View :=
  if truthy (project st) then
    ProjectView
      (if status_is (project st) "completed"
       then Some (isRunning st) else None)
      (if status_is (project st) "failed" || status_is (project st) "created"
       then Some (isRunning st) else None)
      (project st)
  else NotFoundView.

Definition render (st : State) : View :=
  if loading st then LoadingView
  else
    match error st with
    | Some message =>
        if truthy (JStr message) then ErrorView message else page st
    | None => page st
    end.

(** The two buttons. *)
Inductive Button : Type := Rerun | Start.

(** [forceRerun] as each button's [onClick] passes it. *)
Definition force_of (b : Button) : bool :=
  match b with
  | Rerun => true
  | Start => false
  end.

(** A click on a button: its handler runs when the button is on the page
    and not disabled. *)
Definition click (b : Button) (id : string) (st : State)
    : State * list Effect :=
  match render st with
  | ProjectView rerun start _ =>
      match (match b with Rerun => rerun | Start => start end) with
      | Some false => runPipeline_start id (force_of b) st
      | _ => (st, [])
      end
  | _ => (st, [])
  end.

End Page.

Section PageFacts.

Variable NEXT_PUBLIC_API_URL : option string.

Abbreviation click := (click NEXT_PUBLIC_API_URL).
Abbreviation runPipeline_start := (runPipeline_start NEXT_PUBLIC_API_URL).
Abbreviation fetchProject_start := (fetchProject_start NEXT_PUBLIC_API_URL).

Lemma status_is_exclusive p a b :
  a ≠ b → status_is p a = true → status_is p b = false.
Proof.
  unfold status_is. intros Hne Ha.
  destruct (default JUndefined (get_prop p "status")); try done. cbn in *.
  apply String.eqb_eq in Ha as ->. by apply String.eqb_neq.
Qed.

(** When the page shows run buttons at all. *)
Lemma render_project st rerun start d :
  render st = ProjectView rerun start d →
  loading st = false ∧ truthy (project st) = true ∧ d = project st ∧
  rerun = (if status_is (project st) "completed"
           then Some (isRunning st) else None) ∧
  start = (if status_is (project st) "failed"
              || status_is (project st) "created"
           then Some (isRunning st) else None).
Proof.
  unfold render, page. destruct (loading st); [done|].
  destruct (error st) as [m|].
  - destruct (truthy (JStr m)); [done|].
    destruct (truthy (project st)); [|done]. by intros [= <- <- <-].
  - destruct (truthy (project st)); [|done]. by intros [= <- <- <-].
Qed.

(** [id].js, the run buttons: every run request the page sends comes from
    a button that is on the page and enabled: the page is loaded with a
    project, no run request of its own is in flight, and [force_rerun] is
    true exactly for the Rerun button, which is there only for the status
    'completed', and false for the Start button, which is there only for
    'failed' and 'created'.  The two buttons are never shown together, and
    for any other status, 'processing' included, there is no button. *)
Theorem run_request_follows_status (b : Button) (id : string) (st : State) :
  (∀ r, r ∈ requests (snd (click b id st)) →
     loading st = false ∧ truthy (project st) = true ∧
     isRunning st = false ∧
     status_is (project st) "completed" = force_of b ∧
     (status_is (project st) "failed" || status_is (project st) "created")
       = negb (force_of b) ∧
     ScriptView.method r = "POST" ∧
     ScriptView.url r
       = ProjectPage.API_URL NEXT_PUBLIC_API_URL +:+ "/projects/" +:+ id
         +:+ "/run" ∧
     ScriptView.body r
       = JSON_stringify (JObj [("force_rerun", JBool (force_of b))])) ∧
  (∀ rerun start d, render st = ProjectView rerun start d →
     (rerun = None ∨ start = None) ∧
     (status_is (project st) "completed" = false →
      status_is (project st) "failed" = false →
      status_is (project st) "created" = false →
      rerun = None ∧ start = None)).
Proof.
  split.
  - intros r. unfold ProjectPage.click.
    destruct (render st) as [|m| |rerun start d] eqn:Hr;
      try (intros H; by apply elem_of_nil in H).
    destruct (render_project st rerun start d Hr) as (Hl & Hp & _ & -> & ->).
    destruct b; cbn [force_of negb].
    + destruct (status_is (project st) "completed") eqn:Hc;
        [|intros H; by apply elem_of_nil in H].
      destruct (isRunning st) eqn:Hrun;
        [intros H; by apply elem_of_nil in H|].
      intros H. apply list_elem_of_singleton in H as ->.
      rewrite (status_is_exclusive _ "completed" "failed") by done.
      rewrite (status_is_exclusive _ "completed" "created") by done.
      done.
    + destruct (status_is (project st) "failed"
                || status_is (project st) "created") eqn:Hc;
        [|intros H; by apply elem_of_nil in H].
      destruct (isRunning st) eqn:Hrun;
        [intros H; by apply elem_of_nil in H|].
      intros H. apply list_elem_of_singleton in H as ->.
      repeat split; try done.
      apply orb_true_iff in Hc as [Hc|Hc].
      * by apply (status_is_exclusive _ "failed" "completed").
      * by apply (status_is_exclusive _ "created" "completed").
  - intros rerun start d Hr.
    destruct (render_project st rerun start d Hr) as (_ & _ & _ & -> & ->).
    split.
    + destruct (status_is (project st) "completed") eqn:Hc; [|by left].
      right.
      rewrite (status_is_exclusive _ "completed" "failed") by done.
      by rewrite (status_is_exclusive _ "completed" "created").
    + by intros -> -> ->.
Qed.

(** [id].js, [runPipeline]: a run request changes nothing of the page but
    [isRunning]: while it is in flight both buttons are disabled and a
    click sends nothing; once it has settled, whatever its outcome, the
    page renders exactly as before the click, the same button enabled
    again, since the project's status is not fetched anew; and an alert
    comes up exactly when the request failed (the fetch rejected, the
    answer was not ok, or its body did not parse). *)
Theorem run_pipeline_leaves_the_page
    (id : string) (force : bool) (o : Home.Settled) (st : State) :
  isRunning st = false →
  (∀ b, click b id (fst (runPipeline_start id force st))
        = (fst (runPipeline_start id force st), [])) ∧
  fst (runPipeline_settled o (fst (runPipeline_start id force st))) = st ∧
  render (fst (runPipeline_settled o (fst (runPipeline_start id force st))))
    = render st ∧
  (alerts (snd (runPipeline_settled o (fst (runPipeline_start id force st))))
     = [] ↔ ∃ data, o = Home.Answered true (inr data)) ∧
  (∀ message, o = Home.Rejected message →
     alerts (snd (runPipeline_settled o (fst (runPipeline_start id force st))))
       = ["Error: " +:+ message]) ∧
  (∀ json, o = Home.Answered false json →
     alerts (snd (runPipeline_settled o (fst (runPipeline_start id force st))))
       = ["Error: Failed to start pipeline"]).
Proof.
  intros Hrun.
  assert (Hback : fst (runPipeline_settled o
                         (fst (runPipeline_start id force st))) = st).
  { destruct st as [p l e r]. cbn in Hrun. subst r.
    by destruct o as [m|[] [m|data]]. }
  split; [|split; [done|split; [by rewrite Hback|split]]].
  - intros b. unfold ProjectPage.click.
    destruct (render (fst (runPipeline_start id force st)))
      as [|m| |rerun start d] eqn:Hr; try done.
    destruct (render_project _ rerun start d Hr) as (_ & _ & _ & -> & ->).
    cbn. by destruct b; [destruct (status_is _ _)|destruct (_ || _)].
  - destruct o as [m|[] [m|data]]; cbn; split; try done;
      try (by intros (data' & [=])). intros _. by eexists.
  - split; [by intros message ->|by intros json ->].
Qed.


End PageFacts.

(** A project that has run to the end, on a page that has loaded it. *)
Definition finished : State :=
  {| project := JObj [("_id", JStr "42"); ("status", JStr "completed")];
     loading := false; error := None; isRunning := false |}.

Lemma run_request_follows_status_witness :
  status_is (project finished) "completed" = true ∧
  ∀ r, r ∈ requests (snd (click None Rerun "42" finished)) →
       ScriptView.body r
       = JSON_stringify (JObj [("force_rerun", JBool true)]).
Proof.
  split; [reflexivity|]. intros r Hr.
  destruct (run_request_follows_status None Rerun "42" finished) as [H _].
  destruct (H r Hr) as (_ & _ & _ & _ & _ & _ & _ & Hbody).
  exact Hbody.
Defined.

Lemma run_pipeline_leaves_the_page_witness :
  render (fst (runPipeline_settled (Home.Rejected "Failed to fetch")
                 (fst (runPipeline_start None "42" true finished))))
  = render finished.
Proof.
  destruct (run_pipeline_leaves_the_page None "42" true
              (Home.Rejected "Failed to fetch") finished eq_refl)
    as (_ & _ & H & _).
  exact H.
Defined.


End ProjectPage.

(* ===================================================================== *)
(** * components/StoryboardView.jsx, components/ShotListView.jsx *)
(* ===================================================================== *)

(** What the two list views have in common: the test on the artifact and
    the placeholder shown for a missing one. *)
Module ArtifactList.
Import JS.

Inductive Placeholder : Type := Generating | NothingYet.

(** The value of [v && <element/>]: the element, which shows [v], or the
    falsy [v] itself, in whose place React shows nothing, or the text of a
    number. *)
Inductive Guarded : Type :=
| Element (v : jsval)
| Skipped (v : jsval).

Definition guarded (v : jsval) : Guarded :=
  if truthy v then Element v else Skipped v.

(** What React takes as a child: text, numbers, booleans, [null],
    [undefined] and arrays of such; for an object it throws 'Objects are
    not valid as a React child', and the render fails. *)
Fixpoint valid_child (v : jsval) : bool :=
  match v with
  | JObj _ => false
  | JArr items => forallb valid_child items
  | JUndefined | JNull | JBool _ | JNum _ | JStr _ => true
  end.

(** [status?.status === 'running']. *)
Definition is_running (status : jsval) : bool :=
  match status with
  | JUndefined | JNull => false
  | s => is_str (default JUndefined (get_prop s "status")) "running"
  end.

Definition placeholder (status : jsval) : Placeholder :=
  if is_running status then Generating else NothingYet.

(** What becomes of [list && list.length > 0 ? list.map(...) : ...]: the
    items are mapped, the placeholder is shown, or the test holds of a
    value that has no [map] and the render throws a [TypeError]. *)
Inductive Shown : Type :=
| Items (items : list jsval)
| Missing
| NotAList.

Section Shown.

(** [v > 0], for the [length] field of a parsed object. *)
Variable greater_than_zero : jsval -> bool.

Definition shown (list : jsval) : Shown :=
  match list with
  | JArr [] => Missing
  | JArr items => Items items
  | JStr s => if truthy (JStr s) then NotAList else Missing
  | JObj fields =>
      match own_prop fields "length" with
      | Some v => if greater_than_zero v then NotAList else Missing
      | None => Missing
      end
  | JUndefined | JNull | JBool _ | JNum _ => Missing
  end.

End Shown.

End ArtifactList.

Module StoryboardView.
Import JS.
Export ArtifactList.

Inductive Image : Type :=
| Picture (src : jsval) (alt : string)
| NoPicture (frame_number : jsval).

Record Card : Type := mkCard {
  image : Image;
  frame_number : jsval;
  camera : Guarded;
  description : jsval;
  dialogue : Guarded
}.

(** The fields of a frame that a card prints as children ([image_url]
    goes into attributes only). *)
Definition printed : list string :=
  ["frame_number"; "camera_angle"; "description"; "dialogue"].

(** One frame of the grid; [None] when it throws: the [TypeError] of
    reading a property of a [null] frame, or React's error for an object
    among the printed fields. *)
Definition frame_card (frame : jsval) : option Card :=
  match frame with
  | JUndefined | JNull => None
  | _ =>
      let field k := default JUndefined (get_prop frame k) in
      if negb (forallb (fun k => valid_child (field k)) printed) then None
      else
      Some {| image :=
                if truthy (field "image_url")
                then Picture (field "image_url")
                       ("Frame " +:+ to_string (field "frame_number"))
                else NoPicture (field "frame_number");
              frame_number := field "frame_number";
              camera := guarded (field "camera_angle");
              description := field "description";
              dialogue := guarded (field "dialogue") |}
  end.

Inductive View : Type :=
| Grid (cards : list Card)
| Empty (shown : Placeholder).

Section Component.

Variable greater_than_zero : jsval -> bool.

(** The component; [None] when the render throws. *)
Definition render (storyboard status : jsval) : option View :=
  match shown greater_than_zero storyboard with
  | Items frames => Grid <$> mapM frame_card frames
  | Missing => Some (Empty (placeholder status))
  | NotAList => None
  end.

End Component.

End StoryboardView.

Module ShotListView.
Import JS.
Export ArtifactList.

Record Row : Type := mkRow {
  shot_number : jsval;
  scene : jsval;
  shot_type : jsval;
  description : jsval;
  duration : jsval
}.

(** The fields of a shot that a row prints. *)
Definition printed : list string :=
  ["shot_number"; "scene"; "shot_type"; "description"; "duration"].

(** One row of the table; [None] when it throws: the [TypeError] of
    reading a property of a [null] shot, or React's error for an object
    among the printed fields. *)
Definition shot_row (shot : jsval) : option Row :=
  match shot with
  | JUndefined | JNull => None
  | _ =>
      let field k := default JUndefined (get_prop shot k) in
      if negb (forallb (fun k => valid_child (field k)) printed) then None
      else
      Some {| shot_number := field "shot_number";
              scene := field "scene";
              shot_type := field "shot_type";
              description := field "description";
              duration := js_or (field "duration") (JStr "-") |}
  end.

(** What [flatMap] adds for one shot, [shot.equipment || []]: the elements
    of an array, or the value itself if it is not an array. *)
Definition equipment_of (shot : jsval) : option (list jsval) :=
  match get_prop shot "equipment" with
  | Some v =>
      Some match js_or v (JArr []) with
           | JArr items => items
           | other => [other]
           end
  | None => None
  end.

(** [SameValueZero] on parsed values: primitives are compared by value;
    two objects or arrays that [JSON.parse] made are never the same
    object. *)
Definition same_value_zero (a b : jsval) : bool :=
  match a, b with
  | JUndefined, JUndefined => true
  | JNull, JNull => true
  | JBool x, JBool y => Bool.eqb x y
  | JNum x, JNum y => String.eqb x y
  | JStr x, JStr y => String.eqb x y
  | _, _ => false
  end.

(** [Set.prototype.add], on the elements in insertion order. *)
Definition Set_add (seen : list jsval) (v : jsval) : list jsval :=
  if existsb (same_value_zero v) seen then seen else seen ++ [v].

(** [[...new Set(items)]]. *)
Definition Set_of (items : list jsval) : list jsval :=
  fold_left Set_add items [].

(** [shotList.flatMap(shot => shot.equipment || [])]. *)
Definition all_equipment (shotList : list jsval) : option (list jsval) :=
  (fun parts => List.concat parts) <$> mapM equipment_of shotList.

(** The equipment summary. *)
Definition equipment_summary (shotList : list jsval) : option (list jsval) :=
  Set_of <$> all_equipment shotList.

Inductive View : Type :=
| Table (rows : list Row) (equipment : list jsval)
| Empty (shown : Placeholder).

Section Component.

Variable greater_than_zero : jsval -> bool.

(** The component; [None] when the render throws; the items of the
    equipment summary are printed too. *)
Definition render (shotList status : jsval) : option View :=
  match shown greater_than_zero shotList with
  | Items shots =>
      rows ← mapM shot_row shots;
      equipment ← equipment_summary shots;
      if forallb valid_child equipment then Some (Table rows equipment)
      else None
  | Missing => Some (Empty (placeholder status))
  | NotAList => None
  end.

End Component.

(** A value that is not an object or array. *)
Definition primitive (v : jsval) : bool :=
  match v with
  | JArr _ | JObj _ => false
  | _ => true
  end.

(** ** The equipment summary *)

Lemma same_value_zero_eq a b : same_value_zero a b = true → a = b.
Proof.
  destruct a, b; cbn; try done.
  - intros H. apply Bool.eqb_prop in H. by subst.
  - intros H. by apply String.eqb_eq in H as ->.
  - intros H. by apply String.eqb_eq in H as ->.
Qed.

Lemma same_value_zero_refl v : primitive v = true → same_value_zero v v = true.
Proof.
  destruct v; cbn; try done; intros _.
  - by destruct b.
  - apply String.eqb_refl.
  - apply String.eqb_refl.
Qed.

Lemma Set_add_seen seen v :
  existsb (same_value_zero v) seen = true → v ∈ seen.
Proof.
  intros H. apply existsb_exists in H as (u & Hu & Hs).
  apply same_value_zero_eq in Hs as ->. by apply list_elem_of_In.
Qed.

Lemma Set_add_new seen v :
  existsb (same_value_zero v) seen = false → primitive v = true → v ∉ seen.
Proof.
  intros H Hp Hin.
  assert (existsb (same_value_zero v) seen = true); [|congruence].
  apply existsb_exists. exists v. split; [by apply list_elem_of_In|].
  by apply same_value_zero_refl.
Qed.

(** The set grows at its end, by elements of the input in their order. *)
Lemma fold_Set_add items : ∀ seen,
  ∃ extra, fold_left Set_add items seen = seen ++ extra ∧
           sublist extra items.
Proof.
  induction items as [|v items IH]; intros seen.
  - exists []. by rewrite app_nil_r.
  - cbn [fold_left]. destruct (IH (Set_add seen v)) as (extra & -> & Hsub).
    unfold Set_add. destruct (existsb (same_value_zero v) seen).
    + exists extra. split; [done|]. by apply sublist_cons.
    + exists (v :: extra). rewrite <- app_assoc. split; [done|].
      by apply sublist_skip.
Qed.

Lemma fold_Set_add_elem items : ∀ seen v,
  v ∈ fold_left Set_add items seen ↔ v ∈ seen ∨ v ∈ items.
Proof.
  induction items as [|u items IH]; intros seen v.
  - cbn. rewrite elem_of_nil. tauto.
  - cbn [fold_left]. rewrite IH, elem_of_cons. unfold Set_add.
    destruct (existsb (same_value_zero u) seen) eqn:He.
    + apply Set_add_seen in He. split; [tauto|].
      intros [H|[->|H]]; tauto.
    + rewrite elem_of_app, list_elem_of_singleton. tauto.
Qed.

Lemma fold_Set_add_NoDup items : ∀ seen,
  NoDup (filter (λ v, primitive v) seen) →
  NoDup (filter (λ v, primitive v) (fold_left Set_add items seen)).
Proof.
  induction items as [|u items IH]; intros seen Hnd; [done|].
  cbn [fold_left]. apply IH. unfold Set_add.
  destruct (existsb (same_value_zero u) seen) eqn:He; [done|].
  rewrite filter_app. destruct (primitive u) eqn:Hp.
  - rewrite filter_cons_True by (by rewrite Hp). rewrite filter_nil.
    apply NoDup_app. split; [done|]. split; [|apply NoDup_singleton].
    intros x Hx Hx'. apply list_elem_of_singleton in Hx' as ->.
    apply list_elem_of_filter in Hx as [_ Hx].
    by apply (Set_add_new seen u He Hp).
  - rewrite filter_cons_False by (rewrite Hp; exact id). rewrite filter_nil.
    by rewrite app_nil_r.
Qed.

Lemma mapM_elem_r {A B} (f : A → option B) l k y :
  mapM f l = Some k → y ∈ k → ∃ x, x ∈ l ∧ f x = Some y.
Proof.
  intros H. apply mapM_Some in H.
  induction H as [|x y' l k Hxy _ IH]; intros Hy.
  - by apply elem_of_nil in Hy.
  - apply elem_of_cons in Hy as [->|Hy].
    + exists x. split; [by left|done].
    + destruct (IH Hy) as (x' & Hx' & Hf). exists x'. split; [by right|done].
Qed.

Lemma mapM_elem_l {A B} (f : A → option B) l k x :
  mapM f l = Some k → x ∈ l → ∃ y, y ∈ k ∧ f x = Some y.
Proof.
  intros H. apply mapM_Some in H.
  induction H as [|x' y l k Hxy _ IH]; intros Hx.
  - by apply elem_of_nil in Hx.
  - apply elem_of_cons in Hx as [->|Hx].
    + exists y. split; [by left|done].
    + destruct (IH Hx) as (y' & Hy' & Hf). exists y'. split; [by right|done].
Qed.

Lemma mapM_app_Some {A B} (f : A → option B) l1 l2 k1 :
  mapM f l1 = Some k1 →
  mapM f (l1 ++ l2) = (λ k2, k1 ++ k2) <$> mapM f l2.
Proof.
  revert k1. induction l1 as [|x l1 IH]; intros k1; cbn.
  - intros [= <-]. by destruct (mapM f l2).
  - destruct (f x) as [y|]; [|done]. cbn.
    destruct (mapM f l1) as [k|]; [|done]. cbn. intros [= <-].
    rewrite (IH k eq_refl). by destruct (mapM f l2).
Qed.

Lemma mapM_None_elem {A B} (f : A → option B) l :
  mapM f l = None ↔ ∃ x, x ∈ l ∧ f x = None.
Proof.
  rewrite mapM_None, Exists_exists. done.
Qed.

Lemma elem_of_concat {A} (parts : list (list A)) v :
  v ∈ concat parts ↔ ∃ items, items ∈ parts ∧ v ∈ items.
Proof.
  rewrite list_elem_of_In, in_concat. split.
  - intros (items & H1 & H2). exists items.
    by rewrite !list_elem_of_In.
  - intros (items & H1 & H2). exists items.
    by rewrite <- !list_elem_of_In.
Qed.

Lemma equipment_of_None shot :
  equipment_of shot = None ↔ shot = JNull ∨ shot = JUndefined.
Proof.
  unfold equipment_of. destruct shot; cbn; split; try done; auto;
    intros [H|H]; discriminate.
Qed.

Lemma equipment_summary_None shotList :
  equipment_summary shotList = None ↔
  ∃ shot, shot ∈ shotList ∧ (shot = JNull ∨ shot = JUndefined).
Proof.
  unfold equipment_summary, all_equipment.
  destruct (mapM equipment_of shotList) as [parts|] eqn:Hm; cbn.
  - split; [done|]. intros (shot & Hshot & Hnull).
    apply equipment_of_None in Hnull.
    destruct (mapM_elem_l _ _ _ _ Hm Hshot) as (? & _ & ?). congruence.
  - split; [|done]. intros _.
    apply mapM_None_elem in Hm as (shot & Hshot & Hnone).
    exists shot. split; [done|]. by apply equipment_of_None.
Qed.

(** ShotListView.jsx, the equipment summary: the summary holds exactly the
    items that some shot lists as its equipment, each primitive item
    (a name) once however many shots list it, in the order in which the
    items first occur; a shot whose [equipment] is missing, [null] or
    empty adds nothing; and the summary of a longer shot list starts with
    the summary of the shorter one.  Only a [null] shot makes it throw. *)
Theorem equipment_summary_lists_each_item_once
    (shotList : list jsval) (summary : list jsval) :
  equipment_summary shotList = Some summary →
  (∀ v, v ∈ summary ↔
        ∃ shot items, shot ∈ shotList ∧ equipment_of shot = Some items ∧
                      v ∈ items) ∧
  NoDup (filter (λ v, primitive v) summary) ∧
  (∃ all, all_equipment shotList = Some all ∧ sublist summary all) ∧
  (∀ shot, shot ∈ shotList →
     truthy (default JUndefined (get_prop shot "equipment")) = false ∨
     get_prop shot "equipment" = Some (JArr []) →
     equipment_of shot = Some []) ∧
  (∀ more longer, equipment_summary (shotList ++ more) = Some longer →
                  summary `prefix_of` longer) ∧
  (∀ more, equipment_summary more = None ↔
           ∃ shot, shot ∈ more ∧ (shot = JNull ∨ shot = JUndefined)).
Proof.
  unfold equipment_summary, all_equipment. intros Hs.
  destruct (mapM equipment_of shotList) as [parts|] eqn:Hparts; [|done].
  cbn in Hs. injection Hs as <-.
  split; [|split; [|split; [|split; [|split]]]].
  - intros v. unfold Set_of.
    rewrite fold_Set_add_elem, elem_of_nil, elem_of_concat. split.
    + intros [[]|(items & Hitems & Hv)].
      destruct (mapM_elem_r _ _ _ _ Hparts Hitems) as (shot & Hshot & He).
      by exists shot, items.
    + intros (shot & items & Hshot & He & Hv). right.
      destruct (mapM_elem_l _ _ _ _ Hparts Hshot) as (items' & Hi & He').
      exists items. split; [congruence|done].
  - apply fold_Set_add_NoDup. rewrite filter_nil. apply NoDup_nil_2.
  - eexists. split; [done|]. unfold Set_of.
    by destruct (fold_Set_add (concat parts) []) as (extra & -> & Hsub).
  - intros shot Hshot Hcase. unfold equipment_of.
    destruct (mapM_elem_l _ _ _ _ Hparts Hshot) as (items & _ & He).
    unfold equipment_of in He.
    destruct (get_prop shot "equipment") as [v|]; [|done].
    destruct Hcase as [Hf|[= ->]]; [|done].
    cbn in Hf. unfold js_or. by rewrite Hf.
  - intros more longer.
    rewrite (mapM_app_Some _ _ more _ Hparts).
    destruct (mapM equipment_of more) as [parts'|]; [|done].
    cbn. intros [= <-]. rewrite concat_app. unfold Set_of.
    rewrite fold_left_app.
    destruct (fold_Set_add (concat parts')
                (fold_left Set_add (concat parts) [])) as (extra & -> & _).
    by eexists.
  - intros more. apply equipment_summary_None.
Qed.

(** ** The two list views *)

Lemma forallb_false_elem {A} (f : A → bool) l :
  forallb f l = false ↔ ∃ x, x ∈ l ∧ f x = false.
Proof.
  induction l as [|x l IH]; cbn.
  - split; [done|]. intros (x & Hx & _). by apply elem_of_nil in Hx.
  - rewrite andb_false_iff, IH. split.
    + intros [Hx|(y & Hy & Hf)].
      * exists x. split; [by left|done].
      * exists y. split; [by right|done].
    + intros (y & Hy & Hf). apply elem_of_cons in Hy as [->|Hy].
      * by left.
      * right. by exists y.
Qed.

(** A falsy value is printable: no object is falsy. *)
Lemma falsy_valid_child v : truthy v = false → valid_child v = true.
Proof. by destruct v. Qed.

Lemma valid_child_js_or v text :
  valid_child (js_or v (JStr text)) = valid_child v.
Proof.
  unfold js_or. destruct (truthy v) eqn:Ht; [done|].
  by rewrite (falsy_valid_child v Ht).
Qed.

(** The element makes its card or row throw. *)
Definition throws (printed : list string) (item : jsval) : Prop :=
  item = JNull ∨ item = JUndefined ∨
  ∃ k, k ∈ printed ∧
       valid_child (default JUndefined (get_prop item k)) = false.

Lemma frame_card_None frame :
  StoryboardView.frame_card frame = None ↔
  throws StoryboardView.printed frame.
Proof.
  unfold throws, StoryboardView.frame_card.
  destruct frame; try (split; [auto|done]);
    (destruct (forallb _ StoryboardView.printed) eqn:Hall; cbn [negb];
     [ split; [done|]; intros [?|[?|(k & Hk & Hv)]]; try discriminate;
       rewrite forallb_forall in Hall;
       apply list_elem_of_In in Hk; apply Hall in Hk; congruence
     | split; [|done]; intros _; right; right;
       by apply forallb_false_elem in Hall ]).
Qed.

Lemma shot_row_None shot :
  shot_row shot = None ↔ throws printed shot.
Proof.
  unfold throws, shot_row.
  destruct shot; try (split; [auto|done]);
    (destruct (forallb _ printed) eqn:Hall; cbn [negb];
     [ split; [done|]; intros [?|[?|(k & Hk & Hv)]]; try discriminate;
       rewrite forallb_forall in Hall;
       apply list_elem_of_In in Hk; apply Hall in Hk; congruence
     | split; [|done]; intros _; right; right;
       by apply forallb_false_elem in Hall ]).
Qed.

Lemma equipment_summary_elem shotList summary v :
  equipment_summary shotList = Some summary →
  v ∈ summary ↔
  ∃ shot items, shot ∈ shotList ∧ equipment_of shot = Some items ∧ v ∈ items.
Proof.
  unfold equipment_summary, all_equipment. intros Hs.
  destruct (mapM equipment_of shotList) as [parts|] eqn:Hparts; [|done].
  cbn in Hs. injection Hs as <-. unfold Set_of.
  rewrite fold_Set_add_elem, elem_of_nil, elem_of_concat. split.
  - intros [[]|(items & Hitems & Hv)].
    destruct (mapM_elem_r _ _ _ _ Hparts Hitems) as (shot & Hshot & He).
    by exists shot, items.
  - intros (shot & items & Hshot & He & Hv). right.
    destruct (mapM_elem_l _ _ _ _ Hparts Hshot) as (items' & Hi & He').
    exists items. split; [congruence|done].
Qed.

Section ListViews.

Variable greater_than_zero : jsval -> bool.

Abbreviation shown := (shown greater_than_zero).

(** StoryboardView.jsx and ShotListView.jsx: a storyboard or shot list
    that is missing, [null] or an empty array shows the placeholder,
    'Generating...' exactly when the stage's [status.status] is 'running';
    one that is a non-empty array is shown whatever the stage's status
    says, one card or row per element and in their order.  The render of
    a non-empty array throws exactly when an element is [null] or
    [undefined], or holds an object (or an array with an object in it) in
    a field that is printed; for the shot list, also when an item of some
    shot's equipment is such a value. *)
Theorem list_views_show_artifact_or_placeholder (artifact status : jsval) :
  (artifact = JUndefined ∨ artifact = JNull ∨ artifact = JArr [] →
   shown artifact = Missing) ∧
  (shown artifact = Missing →
   StoryboardView.render greater_than_zero artifact status
     = Some (StoryboardView.Empty
               (if is_running status then Generating else NothingYet)) ∧
   render greater_than_zero artifact status
     = Some (Empty (if is_running status then Generating else NothingYet))) ∧
  (∀ items, artifact = JArr items → items ≠ [] →
     (∀ other,
        StoryboardView.render greater_than_zero artifact other
          = StoryboardView.render greater_than_zero artifact status ∧
        render greater_than_zero artifact other
          = render greater_than_zero artifact status) ∧
     (∀ cards,
        StoryboardView.render greater_than_zero artifact status
          = Some (StoryboardView.Grid cards) →
        Forall2 (λ frame card, StoryboardView.frame_card frame = Some card)
          items cards) ∧
     (∀ rows equipment,
        render greater_than_zero artifact status
          = Some (Table rows equipment) →
        Forall2 (λ shot row, shot_row shot = Some row) items rows ∧
        equipment_summary items = Some equipment) ∧
     (StoryboardView.render greater_than_zero artifact status = None ↔
      ∃ item, item ∈ items ∧
        (item = JNull ∨ item = JUndefined ∨
         ∃ k, k ∈ ["frame_number"; "camera_angle"; "description"; "dialogue"]
              ∧ valid_child (default JUndefined (get_prop item k)) = false)) ∧
     (render greater_than_zero artifact status = None ↔
      ∃ item, item ∈ items ∧
        (item = JNull ∨ item = JUndefined ∨
         (∃ k, k ∈ ["shot_number"; "scene"; "shot_type"; "description";
                    "duration"]
               ∧ valid_child (default JUndefined (get_prop item k)) = false) ∨
         ∃ equipment v, equipment_of item = Some equipment ∧ v ∈ equipment ∧
                        valid_child v = false))).
Proof.
  split; [by intros [->|[->| ->]]|]. split.
  - intros Hm. unfold StoryboardView.render, render. by rewrite Hm.
  - intros items -> Hne.
    assert (Hs : shown (JArr items) = Items items) by (by destruct items).
    unfold StoryboardView.render, render. rewrite Hs.
    split; [done|]. split; [|split; [|split]].
    + intros cards.
      destruct (mapM StoryboardView.frame_card items) as [cs|] eqn:Hm;
        [|done].
      cbn. intros [= <-]. by apply mapM_Some.
    + intros rows equipment.
      destruct (mapM shot_row items) as [rs|] eqn:Hm; [|done]. cbn.
      destruct (equipment_summary items) as [eq|]; [|done]. cbn.
      destruct (forallb valid_child eq); [|done].
      intros [= <- <-]. split; [by apply mapM_Some|done].
    + destruct (mapM StoryboardView.frame_card items) as [cs|] eqn:Hm; cbn.
      * split; [done|]. intros (item & Hitem & Hthrows).
        apply (frame_card_None item) in Hthrows.
        destruct (mapM_elem_l _ _ _ _ Hm Hitem) as (? & _ & ?). congruence.
      * split; [|done]. intros _.
        apply mapM_None_elem in Hm as (item & Hitem & Hnone).
        exists item. split; [done|]. by apply frame_card_None.
    + destruct (mapM shot_row items) as [rs|] eqn:Hm; cbn.
      * destruct (equipment_summary items) as [eq|] eqn:He; cbn.
        -- destruct (forallb valid_child eq) eqn:Hv.
           ++ split; [done|].
              intros (item & Hitem & [Hn|[Hu|[Hk|(e & v & He' & Hin & Hbad)]]]).
              ** assert (Hr : shot_row item = None)
                   by (apply shot_row_None; by left).
                 destruct (mapM_elem_l _ _ _ _ Hm Hitem) as (? & _ & ?).
                 congruence.
              ** assert (Hr : shot_row item = None)
                   by (apply shot_row_None; right; by left).
                 destruct (mapM_elem_l _ _ _ _ Hm Hitem) as (? & _ & ?).
                 congruence.
              ** assert (Hr : shot_row item = None)
                   by (apply shot_row_None; right; by right).
                 destruct (mapM_elem_l _ _ _ _ Hm Hitem) as (? & _ & ?).
                 congruence.
              ** rewrite forallb_forall in Hv.
                 assert (Hs' : v ∈ eq).
                 { apply (equipment_summary_elem items eq v He).
                   by exists item, e. }
                 apply list_elem_of_In, Hv in Hs'. congruence.
           ++ split; [|done]. intros _.
              apply forallb_false_elem in Hv as (v & Hin & Hbad).
              apply (equipment_summary_elem items eq v He) in Hin
                as (shot & e & Hshot & He' & Hin).
              exists shot. split; [done|]. right. right. right.
              by exists e, v.
        -- split; [|done]. intros _.
           apply equipment_summary_None in He as (shot & Hshot & Hnull).
           exists shot. split; [done|]. destruct Hnull; auto.
      * split; [|done]. intros _.
        apply mapM_None_elem in Hm as (item & Hitem & Hnone).
        exists item. split; [done|].
        apply shot_row_None in Hnone as [?|[?|?]]; auto.
Qed.

End ListViews.

(** Three shots: two share the tripod, one lists no equipment. *)
Definition sample_shots : list jsval :=
  [ JObj [("shot_number", JNum "1");
          ("equipment", JArr [JStr "Camera"; JStr "Tripod"])];
    JObj [("shot_number", JNum "2"); ("equipment", JNull)];
    JObj [("shot_number", JNum "3");
          ("equipment", JArr [JStr "Tripod"; JStr "Drone"])] ].

Lemma equipment_summary_lists_each_item_once_witness :
  equipment_summary sample_shots
    = Some [JStr "Camera"; JStr "Tripod"; JStr "Drone"] ∧
  NoDup (filter (λ v, primitive v)
           [JStr "Camera"; JStr "Tripod"; JStr "Drone"]).
Proof.
  split; [reflexivity|].
  destruct (equipment_summary_lists_each_item_once sample_shots
              [JStr "Camera"; JStr "Tripod"; JStr "Drone"] eq_refl)
    as (_ & H & _).
  exact H.
Defined.

End ShotListView.

(* ===================================================================== *)
(** * components/ProjectDashboard.jsx *)
(* ===================================================================== *)

Module ProjectDashboard.
Import JS.

Inductive Effect : Type :=
| Fetch (request : ScriptView.Request)
| ConsoleLog (text : string)
| ConsoleError (text : string).

(** The requests among a handler's effects. *)
Definition requests (effects : list Effect) : list ScriptView.Request :=
  omap (fun e => match e with Fetch r => Some r | _ => None end) effects.

(** The props the dashboard hands to its [ScriptView]. *)
Record ScriptProps : Type := mkScriptProps {
  script : jsval;
  script_status : jsval;
  projectId : jsval
}.

(** The props as the model of the [ScriptView] takes them: a script that
    is a string, [null] or [undefined], and the project id as the text the
    URL template makes of it. *)
Definition ScriptView_props (p : ScriptProps) : option ScriptView.Props :=
  match script p with
  | JStr s =>
      Some {| ScriptView.script := Some s;
              ScriptView.status := script_status p;
              ScriptView.projectId := to_string (projectId p) |}
  | JUndefined | JNull =>
      Some {| ScriptView.script := None;
              ScriptView.status := script_status p;
              ScriptView.projectId := to_string (projectId p) |}
  | _ => None
  end.

Record View : Type := mkView {
  heading : jsval;
  project_id : jsval;
  connection : string;
  overall : jsval;
  user_prompt : jsval;
  error_panel : ArtifactList.Guarded;
  script_view : ScriptProps;
  storyboard_view : StoryboardView.View;
  shot_list_view : ShotListView.View
}.

Section Component.

Variable NEXT_PUBLIC_API_URL : option string.
Variable greater_than_zero : jsval -> bool.

Definition API_URL : string :=
  env_or NEXT_PUBLIC_API_URL "http://localhost:8000".

(** [fetchLatestProject] up to its [await]; reading [project._id] of a
    [null] project throws inside the [try]. *)
Definition fetchLatestProject_start (project : jsval) : list Effect :=
  match get_prop project "_id" with
  | Some id =>
      [Fetch (ProjectPage.get_request
                (API_URL +:+ "/projects/" +:+ to_string id))]
  | None => [ConsoleError "Error fetching latest project:"]
  end.

(** [fetchLatestProject] from the [fetch]'s outcome on: the project the
    dashboard holds afterwards. *)
Definition fetchLatestProject_settled (o : Home.Settled) (project : jsval)
    : jsval * list Effect :=
  match o with
  | Home.Rejected _ => (project, [ConsoleError "Error fetching latest project:"])
  | Home.Answered false _ => (project, [])
  | Home.Answered true (inl _) =>
      (project, [ConsoleError "Error fetching latest project:"])
  | Home.Answered true (inr data) =>
      (data, [ConsoleLog " Project data refreshed"])
  end.

(** What the dashboard prints as children of its own elements: the
    heading, the project id, the overall status, the prompt and the
    error. *)
Definition printed (project : jsval) (status : gmap string jsval)
    : list jsval :=
  [ js_or (default JUndefined (get_prop project "title"))
      (JStr "Untitled Project");
    default JUndefined (get_prop project "_id");
    default JUndefined (status !! "overall");
    default JUndefined (get_prop project "user_prompt");
    default JUndefined (status !! "error") ].

(** What the dashboard renders, given what the hook returns; [None] when
    the render throws: the [TypeError] of reading [_id] of a [null]
    project, React's error for an object among the values the dashboard
    prints, or a throw of one of the two list views.  The [ScriptView] is
    given by the props it gets; what it renders from them, in the state
    it is in, is [ScriptView.render]. *)
Definition render (project : jsval) (status : gmap string jsval)
    (isConnected : bool) : option View :=
  match get_prop project "_id" with
  | Some id =>
      let field k := default JUndefined (get_prop project k) in
      let stage k := default JUndefined (status !! k) in
      if negb (forallb ArtifactList.valid_child (printed project status))
      then None else
      storyboard ←
        StoryboardView.render greater_than_zero (field "storyboard")
          (stage "storyboard");
      shot_list ←
        ShotListView.render greater_than_zero (field "shot_list")
          (stage "shot_list");
      Some {| heading := js_or (field "title") (JStr "Untitled Project");
              project_id := id;
              connection := if isConnected then "Connected"
                            else "Disconnected";
              overall := stage "overall";
              user_prompt := field "user_prompt";
              error_panel := ArtifactList.guarded (stage "error");
              script_view := {| script := field "script";
                                script_status := stage "script";
                                projectId := id |};
              storyboard_view := storyboard;
              shot_list_view := shot_list |}
  | None => None
  end.

End Component.

Section DashboardFacts.

Variable NEXT_PUBLIC_WS_URL : option string.
Variable JSON_parse : string -> option jsval.
Variable greater_than_zero : jsval -> bool.

Abbreviation step := (ProjectStatus.step NEXT_PUBLIC_WS_URL JSON_parse).
Abbreviation render := (render greater_than_zero).
Abbreviation shown := (ArtifactList.shown greater_than_zero).

(** ProjectDashboard.jsx with useProjectStatus.js and the three views: a
    [progress] message for a stage other than 'overall' and 'error'
    reaches the section of its stage and nothing else on the dashboard.
    While the project has no artifact for the stage, the section shows
    'Generating...' exactly when the message's status is 'running', and
    its placeholder text otherwise; every other part of the dashboard,
    the overall status, the error panel, the connection indicator and the
    other sections included, renders as before the message.  A [progress]
    message whose stage is 'overall' or 'error' puts an object where the
    dashboard prints the overall status or the error, and the render
    throws. *)
Theorem stage_message_reaches_its_view
    (project : jsval) (h : ProjectStatus.Hook) (ws : nat) (data : string)
    (now : nat) (d : jsval) (stage : string) (before : View) :
  is_Some (ProjectStatus.sockets h !! ws) →
  data ≠ "pong" →
  JSON_parse data = Some d →
  get_prop d "type" = Some (JStr "progress") →
  get_prop d "stage" = Some (JStr stage) →
  render project (ProjectStatus.status h) (ProjectStatus.isConnected h)
    = Some before →
  (stage ≠ "overall" → stage ≠ "error" →
   ∃ after,
    render project
      (ProjectStatus.status (step h (ProjectStatus.WsMessage ws data now)))
      (ProjectStatus.isConnected
         (step h (ProjectStatus.WsMessage ws data now)))
      = Some after ∧
    heading after = heading before ∧
    project_id after = project_id before ∧
    connection after = connection before ∧
    user_prompt after = user_prompt before ∧
    overall after = overall before ∧
    error_panel after = error_panel before ∧
    (stage ≠ "script" → script_view after = script_view before) ∧
    (stage ≠ "storyboard" → storyboard_view after = storyboard_view before) ∧
    (stage ≠ "shot_list" → shot_list_view after = shot_list_view before) ∧
    (stage = "storyboard" →
     shown (default JUndefined (get_prop project "storyboard"))
       = ArtifactList.Missing →
     storyboard_view after
     = StoryboardView.Empty
         (if is_str (default JUndefined (get_prop d "status")) "running"
          then ArtifactList.Generating else ArtifactList.NothingYet)) ∧
    (stage = "shot_list" →
     shown (default JUndefined (get_prop project "shot_list"))
       = ArtifactList.Missing →
     shot_list_view after
     = ShotListView.Empty
         (if is_str (default JUndefined (get_prop d "status")) "running"
          then ArtifactList.Generating else ArtifactList.NothingYet)) ∧
    (stage = "script" →
     ∀ p st, ScriptView_props (script_view after) = Some p →
             ScriptView.script_truthy p = false →
             ScriptView.content (ScriptView.render p st)
             = if is_str (default JUndefined (get_prop d "status")) "running"
               then ScriptView.Generating else ScriptView.NoScriptYet)) ∧
  (stage = "overall" ∨ stage = "error" →
   render project
     (ProjectStatus.status (step h (ProjectStatus.WsMessage ws data now)))
     (ProjectStatus.isConnected
        (step h (ProjectStatus.WsMessage ws data now)))
   = None).
Proof.
  intros [o Ho] Hpong Hd Hty Hstage.
  assert (Hp : String.eqb data "pong" = false) by (by apply String.eqb_neq).
  cbn [ProjectStatus.step]. rewrite Ho.
  rewrite (ProjectStatus.onmessage_progress JSON_parse data now h d Hp Hd Hty).
  rewrite Hstage. cbn [default to_string ProjectStatus.status
                       ProjectStatus.with_lastUpdate ProjectStatus.with_status
                       ProjectStatus.isConnected].
  set (entry := JObj [("status", default JUndefined (get_prop d "status"));
                      ("message",
                       js_or (default JUndefined (get_prop d "message"))
                         (JStr EmptyString))]).
  assert (Hrun : ArtifactList.is_running entry
                 = is_str (default JUndefined (get_prop d "status")) "running")
    by reflexivity.
  unfold ProjectDashboard.render.
  destruct (get_prop project "_id") as [id|] eqn:Hid; [|done].
  destruct (forallb ArtifactList.valid_child
              (printed project (ProjectStatus.status h))) eqn:Hprinted;
    cbn [negb]; [|done].
  assert (Hkey : ∀ k, k ≠ stage →
            <[stage := entry]> (ProjectStatus.status h) !! k
            = ProjectStatus.status h !! k).
  { intros k Hk. by rewrite lookup_insert_ne. }
  assert (Hsb : ∀ s s',
    is_Some (StoryboardView.render greater_than_zero
               (default JUndefined (get_prop project "storyboard")) s) →
    is_Some (StoryboardView.render greater_than_zero
               (default JUndefined (get_prop project "storyboard")) s')).
  { intros s s'. unfold StoryboardView.render.
    by destruct (shown _). }
  assert (Hsl : ∀ s s',
    is_Some (ShotListView.render greater_than_zero
               (default JUndefined (get_prop project "shot_list")) s) →
    is_Some (ShotListView.render greater_than_zero
               (default JUndefined (get_prop project "shot_list")) s')).
  { intros s s'. unfold ShotListView.render.
    by destruct (shown _). }
  destruct (StoryboardView.render greater_than_zero _
              (default JUndefined (ProjectStatus.status h !! "storyboard")))
    as [sb|] eqn:Hsb0; [|done].
  destruct (ShotListView.render greater_than_zero _
              (default JUndefined (ProjectStatus.status h !! "shot_list")))
    as [sl|] eqn:Hsl0; [|done].
  cbn -[printed]. intros [= <-]. split.
  - intros Hoverall Herror.
    assert (Hsame : printed project
                      (<[stage := entry]> (ProjectStatus.status h))
                    = printed project (ProjectStatus.status h)).
    { unfold printed. by rewrite !Hkey. }
    rewrite Hsame, Hprinted. cbn [negb].
    destruct (Hsb _ (default JUndefined
                       (<[stage := entry]> (ProjectStatus.status h)
                          !! "storyboard")) (mk_is_Some _ _ Hsb0))
      as [sb' Hsb'].
    destruct (Hsl _ (default JUndefined
                       (<[stage := entry]> (ProjectStatus.status h)
                          !! "shot_list")) (mk_is_Some _ _ Hsl0))
      as [sl' Hsl'].
    rewrite Hsb', Hsl'. cbn. eexists. split; [done|]. cbn.
    split; [done|]. split; [done|]. split; [done|]. split; [done|].
    split; [by rewrite Hkey|].
    split; [by rewrite Hkey|].
    split; [intros Hne; by rewrite Hkey|].
    split; [intros Hne; rewrite Hkey in Hsb' by done; congruence|].
    split; [intros Hne; rewrite Hkey in Hsl' by done; congruence|].
    split; [|split].
    + intros -> Hm. rewrite lookup_insert_eq in Hsb'. cbn in Hsb'.
      unfold StoryboardView.render in Hsb'. rewrite Hm in Hsb'.
      injection Hsb' as <-. unfold ArtifactList.placeholder. by rewrite Hrun.
    + intros -> Hm. rewrite lookup_insert_eq in Hsl'. cbn in Hsl'.
      unfold ShotListView.render in Hsl'. rewrite Hm in Hsl'.
      injection Hsl' as <-. unfold ArtifactList.placeholder. by rewrite Hrun.
    + intros -> p st Hprops Hfalsy. rewrite lookup_insert_eq in Hprops.
      unfold ScriptView_props in Hprops. cbn in Hprops.
      unfold ScriptView.render. cbn. rewrite Hfalsy.
      destruct (default JUndefined (get_prop project "script"));
        try discriminate; injection Hprops as <-; done.
  - assert (Hbad : stage = "overall" ∨ stage = "error" →
              forallb ArtifactList.valid_child
                (printed project (<[stage := entry]> (ProjectStatus.status h)))
              = false).
    { unfold printed. intros [-> | ->]; rewrite lookup_insert_eq;
        cbn; by rewrite ?andb_false_r. }
    intros Hcase. by rewrite (Hbad Hcase).
Qed.

(** ProjectDashboard.jsx, [fetchLatestProject]: the refresh asks for the
    project with the request the project page itself loads it with; it
    replaces the project the dashboard holds only by the body of a response
    that is ok and parses, and any other outcome (a rejected fetch, a
    response that is not ok, a body that does not parse) leaves the
    project, and with it everything the dashboard renders, as it was. *)
Theorem refresh_keeps_project_unless_answered
    (NEXT_PUBLIC_API_URL : option string) (project : jsval)
    (o : Home.Settled) :
  (∀ id st, get_prop project "_id" = Some (JStr id) → id ≠ EmptyString →
     requests (fetchLatestProject_start NEXT_PUBLIC_API_URL project)
     = ProjectPage.requests
         (snd (ProjectPage.fetchProject_start NEXT_PUBLIC_API_URL
                 (Some id) st))) ∧
  (∀ data, o = Home.Answered true (inr data) →
     fst (fetchLatestProject_settled o project) = data) ∧
  ((∀ data, o ≠ Home.Answered true (inr data)) →
   fst (fetchLatestProject_settled o project) = project ∧
   ∀ status connected,
     render (fst (fetchLatestProject_settled o project)) status connected
     = render project status connected).
Proof.
  split; [|split].
  - intros id st Hid Hne. unfold fetchLatestProject_start.
    rewrite Hid. unfold ProjectPage.fetchProject_start.
    apply ProjectStatus.truthy_str in Hne. by rewrite Hne.
  - by intros data ->.
  - intros Hfail.
    assert (Hsame : fst (fetchLatestProject_settled o project) = project).
    { destruct o as [m|[] [m|data]]; try done. by destruct (Hfail data). }
    split; [done|]. intros status connected. by rewrite Hsame.
Qed.

End DashboardFacts.

(** A project whose script is written and whose storyboard is awaited. *)
Definition scripted : jsval :=
  JObj [("_id", JStr "42"); ("title", JNull);
        ("user_prompt", JStr "A heist in space");
        ("script", JStr "INT. ROOM");
        ("storyboard", JNull); ("shot_list", JNull)].

Lemma stage_message_reaches_its_view_witness :
  ∃ after,
    render (λ _, false) scripted
      (ProjectStatus.status
         (ProjectStatus.run None ProjectStatus.sample_parse
            (ProjectStatus.initial 0)
            [ProjectStatus.Effect "42"; ProjectStatus.WsOpen 0;
             ProjectStatus.WsMessage 0
               (ProjectStatus.text_of ProjectStatus.progress_message) 7]))
      true
    = Some after ∧
    storyboard_view after = StoryboardView.Empty ArtifactList.Generating.
Proof.
  edestruct (stage_message_reaches_its_view None ProjectStatus.sample_parse
               (λ _, false) scripted
               (ProjectStatus.run None ProjectStatus.sample_parse
                  (ProjectStatus.initial 0)
                  [ProjectStatus.Effect "42"; ProjectStatus.WsOpen 0])
               0 (ProjectStatus.text_of ProjectStatus.progress_message) 7
               ProjectStatus.progress_message "storyboard")
    as [Hreaches _].
  - eexists. vm_compute. reflexivity.
  - intros H. vm_compute in H. discriminate.
  - vm_compute. reflexivity.
  - reflexivity.
  - reflexivity.
  - vm_compute. reflexivity.
  - destruct Hreaches
      as (after & Hafter & _ & _ & _ & _ & _ & _ & _ & _ & _ & Hsb & _);
      [discriminate..|].
    exists after. split; [exact Hafter|]. by apply Hsb.
Defined.

Lemma refresh_keeps_project_unless_answered_witness :
  fst (fetchLatestProject_settled (Home.Answered false (inr JNull)) scripted)
  = scripted.
Proof.
  destruct (refresh_keeps_project_unless_answered (λ _, false) None scripted
              (Home.Answered false (inr JNull))) as (_ & _ & H).
  destruct H as [H _]; [done|]. exact H.
Defined.

End ProjectDashboard.
